(** * sip-parser: a shallow embedding of [sip_parser/sip.py] and
      [sip_parser/rtp.py], and the properties of the parser proved on it.

    Text is modelled by the Standard Library's [string]. A character of the
    model is a code point below U+0100, so the model covers the texts of
    Python's [str] whose characters lie in that range, ASCII and the Latin-1
    supplement. The length of a string is its number of characters, which is
    what [len] counts, and not its number of bytes in an encoding. The case
    mappings and the white-space classes are Python's on that range; the
    three letters whose upper-case form leaves the range are named at
    [upper_char]. *)

From Stdlib Require Import String Ascii List ZArith Lia Bool Arith.
From Stdlib Require Import Numbers.DecimalString Numbers.DecimalPos.
Import ListNotations.

Open Scope string_scope.
Open Scope Z_scope.

(** ** Python exceptions and the result of a call that may raise *)

Inductive exn : Type :=
| ValueError (msg : string)
| IndexError
| KeyError
| AttributeError
| TypeError
| RecursionError
| OSError.

Inductive result (A : Type) : Type :=
| Ok (a : A)
| Raise (e : exn).

Arguments Ok {A} a.
Arguments Raise {A} e.

Definition bind {A B : Type} (r : result A) (f : A -> result B) : result B :=
  match r with
  | Ok a => f a
  | Raise e => Raise e
  end.

Notation "x <- r ;; k" := (bind r (fun x => k))
  (at level 61, r at next level, right associativity).

(** [try: r except Exception: d] *)
Definition try_except {A : Type} (r : result A) (d : A) : A :=
  match r with
  | Ok a => a
  | Raise _ => d
  end.

(** ** The methods of Python's [str] that the parser uses *)

Module PyStr.

Definition chr (n : nat) : ascii := ascii_of_nat n.
Definition ord (c : ascii) : nat := nat_of_ascii c.

Definition between (lo hi : nat) (c : ascii) : bool :=
  (lo <=? ord c)%nat && (ord c <=? hi)%nat.

(** the ASCII classes [A-Z], [a-z], [0-9] and [a-zA-Z] *)
Definition is_upper (c : ascii) : bool := between 65 90 c.
Definition is_lower (c : ascii) : bool := between 97 122 c.
Definition is_digit (c : ascii) : bool := between 48 57 c.
Definition is_alpha (c : ascii) : bool := is_upper c || is_lower c.

(** the upper-case letters U+00C0 to U+00DE and the lower-case letters U+00E0
    to U+00FE of the Latin-1 supplement; U+00D7 and U+00F7 are signs. *)
Definition is_upper_latin (c : ascii) : bool :=
  between 192 222 c && negb (between 215 215 c).
Definition is_lower_latin (c : ascii) : bool :=
  between 224 254 c && negb (between 247 247 c).

(** [str.isspace] on one character, the class that [str.strip] removes: TAB,
    LF, VT, FF, CR, the four separators FS, GS, RS, US, the space, and U+0085
    and U+00A0. *)
Definition is_space (c : ascii) : bool :=
  between 9 13 c || between 28 32 c || between 133 133 c || between 160 160 c.

(** the white space that [int] skips: that of [str.strip] without the four
    separators FS, GS, RS, US. *)
Definition is_int_space (c : ascii) : bool :=
  is_space c && negb (between 28 31 c).

(** [str.lower] on one character *)
Definition lower_char (c : ascii) : ascii :=
  if is_upper c || is_upper_latin c then chr (ord c + 32) else c.

(** [str.upper] on one character whose upper-case form is one character
    below U+0100. The three other letters of the range are left as they are:
    the upper-case forms of U+00B5 and U+00FF lie above the range and that of
    U+00DF has two letters, so a text that [capitalize] meets with one of them
    in front lies outside the model. *)
Definition upper_char (c : ascii) : ascii :=
  if is_lower c || is_lower_latin c then chr (ord c - 32) else c.

Fixpoint smap (f : ascii -> ascii) (s : string) : string :=
  match s with
  | EmptyString => EmptyString
  | String c r => String (f c) (smap f r)
  end.

(** [s.lower()] *)
Definition lower (s : string) : string := smap lower_char s.

(** [s.capitalize()] *)
Definition capitalize (s : string) : string :=
  match s with
  | EmptyString => EmptyString
  | String c r => String (upper_char c) (lower r)
  end.

Fixpoint lstrip (s : string) : string :=
  match s with
  | EmptyString => EmptyString
  | String c r => if is_space c then lstrip r else s
  end.

Fixpoint rstrip (s : string) : string :=
  match s with
  | EmptyString => EmptyString
  | String c r =>
      match rstrip r with
      | EmptyString => if is_space c then EmptyString else String c EmptyString
      | r' => String c r'
      end
  end.

(** [s.strip()] *)
Definition strip (s : string) : string := rstrip (lstrip s).

(** the same with the white space of [int] *)
Fixpoint lstrip_int (s : string) : string :=
  match s with
  | EmptyString => EmptyString
  | String c r => if is_int_space c then lstrip_int r else s
  end.

Fixpoint rstrip_int (s : string) : string :=
  match s with
  | EmptyString => EmptyString
  | String c r =>
      match rstrip_int r with
      | EmptyString => if is_int_space c then EmptyString else String c EmptyString
      | r' => String c r'
      end
  end.

(** [len(s)]: the number of characters *)
Definition len (s : string) : Z := Z.of_nat (String.length s).

(** truth value of a string: [bool(s)] *)
Definition truthy (s : string) : bool :=
  match s with
  | EmptyString => false
  | _ => true
  end.

(** [s.startswith(p)] *)
Definition startswith (s p : string) : bool := prefix p s.

(** [s.find(sub, start)] for [0 <= start]: the index of the first occurrence
    at or after [start], or [-1]. *)
Definition find (s sub : string) (start : Z) : Z :=
  match index (Z.to_nat start) sub s with
  | Some i => Z.of_nat i
  | None => -1
  end.

(** [s[a:b]] for [0 <= a] and [0 <= b] *)
Definition slice (s : string) (a b : Z) : string :=
  substring (Z.to_nat a) (Z.to_nat b - Z.to_nat a) s.

(** [s[a:]] for [0 <= a] *)
Definition slice_from (s : string) (a : Z) : string :=
  substring (Z.to_nat a) (String.length s - Z.to_nat a) s.

(** [s[:b]] for [0 <= b] *)
Definition slice_to (s : string) (b : Z) : string :=
  substring 0 (Z.to_nat b) s.

(** [s[i]] for [0 <= i]; raises [IndexError] out of range. *)
Definition char_at (s : string) (i : Z) : result ascii :=
  match get (Z.to_nat i) s with
  | Some c => Ok c
  | None => Raise IndexError
  end.

(** [s[-1]] *)
Fixpoint last_char (s : string) : result ascii :=
  match s with
  | EmptyString => Raise IndexError
  | String c EmptyString => Ok c
  | String _ r => last_char r
  end.

(** [s[:-1]] *)
Fixpoint drop_last (s : string) : string :=
  match s with
  | EmptyString => EmptyString
  | String _ EmptyString => EmptyString
  | String c r => String c (drop_last r)
  end.

Definition cons_head (c : ascii) (l : list string) : list string :=
  match l with
  | [] => [String c EmptyString]
  | x :: xs => String c x :: xs
  end.

(** [s.split(sep)] for a one-character separator. *)
Fixpoint split (s : string) (sep : ascii) : list string :=
  match s with
  | EmptyString => [EmptyString]
  | String c r =>
      if Ascii.eqb c sep then EmptyString :: split r sep
      else cons_head c (split r sep)
  end.

(** [s.split(sep, maxsplit)] for a one-character separator. *)
Fixpoint splitn (s : string) (sep : ascii) (maxsplit : nat) : list string :=
  match s with
  | EmptyString => [EmptyString]
  | String c r =>
      match maxsplit with
      | O => [s]
      | S n =>
          if Ascii.eqb c sep then EmptyString :: splitn r sep n
          else cons_head c (splitn r sep maxsplit)
      end
  end.

(** [s.partition(sep)] for a one-character separator. *)
Fixpoint partition (s : string) (sep : ascii) : string * string * string :=
  match s with
  | EmptyString => (EmptyString, EmptyString, EmptyString)
  | String c r =>
      if Ascii.eqb c sep then (EmptyString, String sep EmptyString, r)
      else let '(a, m, b) := partition r sep in (String c a, m, b)
  end.

(** [sep.join(l)] *)
Definition join (sep : string) (l : list string) : string :=
  String.concat sep l.

(** [s.replace('\r\n', '\n')] *)
Fixpoint replace_crlf (s : string) : string :=
  match s with
  | EmptyString => EmptyString
  | String c r =>
      match r with
      | String d r' =>
          if Ascii.eqb c (chr 13) && Ascii.eqb d (chr 10)
          then String (chr 10) (replace_crlf r')
          else String c (replace_crlf r)
      | EmptyString => s
      end
  end.

Definition CR : ascii := chr 13.
Definition LF : ascii := chr 10.
Definition TAB : ascii := chr 9.
Definition CRLF : string := String CR (String LF EmptyString).

(** the double quote, as a character and as a string *)
Definition DQUOTE : ascii := chr 34.
Definition QUOTE : string := String DQUOTE EmptyString.

(** [int(s)]: optional white space around an optional sign and decimal
    digits, where single underscores may separate digits. *)
Definition digit_val (c : ascii) : Z := Z.of_nat (ord c - 48).

Fixpoint int_digits (s : string) (acc : Z) (after_digit : bool) : option Z :=
  match s with
  | EmptyString => if after_digit then Some acc else None
  | String c r =>
      if is_digit c then int_digits r (10 * acc + digit_val c) true
      else if Ascii.eqb c (chr 95) && after_digit then int_digits r acc false
      else None
  end.

Definition int_literal (s : string) : option Z :=
  match rstrip_int (lstrip_int s) with
  | String c r =>
      if Ascii.eqb c (chr 43) then int_digits r 0 false
      else if Ascii.eqb c (chr 45) then option_map Z.opp (int_digits r 0 false)
      else int_digits (String c r) 0 false
  | EmptyString => None
  end.

Definition int (s : string) : result Z :=
  match int_literal s with
  | Some z => Ok z
  | None => Raise (ValueError ("invalid literal for int() with base 10: '" ++ s ++ "'"))
  end.

(** [str(n)] and ['%d' % n] for an integer [n] *)
Definition str_of_int (z : Z) : string := NilEmpty.string_of_int (Z.to_int z).

(** [x in l] and [l.index(x)] on a list of strings, [l[i]] with Python's
    negative indices. *)
Definition list_mem (x : string) (l : list string) : bool :=
  existsb (String.eqb x) l.

Fixpoint list_index (l : list string) (x : string) : result Z :=
  match l with
  | [] => Raise (ValueError "x not in list")
  | y :: r => if String.eqb y x then Ok 0 else i <- list_index r x ;; Ok (i + 1)
  end.

Definition list_at {A : Type} (l : list A) (i : Z) : result A :=
  let j := if i <? 0 then i + Z.of_nat (List.length l) else i in
  if j <? 0 then Raise IndexError
  else match nth_error l (Z.to_nat j) with
       | Some a => Ok a
       | None => Raise IndexError
       end.

End PyStr.

(** ** Python dictionaries with string keys, in insertion order *)

Section Dict.

Context {V : Type}.

Definition dict : Type := list (string * V).

(** [d.get(k, None)] *)
Fixpoint dict_get (d : dict) (k : string) : option V :=
  match d with
  | [] => None
  | (k', v) :: r => if String.eqb k' k then Some v else dict_get r k
  end.

(** [k in d] *)
Definition dict_mem (d : dict) (k : string) : bool :=
  match dict_get d k with
  | Some _ => true
  | None => false
  end.

(** [d[k]] *)
Definition dict_item (d : dict) (k : string) : result V :=
  match dict_get d k with
  | Some v => Ok v
  | None => Raise KeyError
  end.

(** [d[k] = v]: a key already present keeps its place. *)
Fixpoint dict_set (d : dict) (k : string) (v : V) : dict :=
  match d with
  | [] => [(k, v)]
  | (k', v') :: r =>
      if String.eqb k' k then (k, v) :: r else (k', v') :: dict_set r k v
  end.

End Dict.

Arguments dict V : clear implicits.

(** ** The part of Python's [re] that the grammars of [sip.py] use

    A backtracking matcher in continuation-passing style: quantifiers are
    greedy, an optional part is tried before it is skipped, and a group
    records the text it matched last on the path that succeeds. *)

Module Re.

Import PyStr.

Inductive regex : Type :=
| Eps
| Chars (p : ascii -> bool)
| Seq (r1 r2 : regex)
| Opt (r : regex)
| Star (r : regex)
| Group (i : nat) (r : regex)
| Eos.

Definition Plus (r : regex) : regex := Seq r (Star r).

Definition Lit (c : ascii) : regex := Chars (Ascii.eqb c).

Fixpoint Str (s : string) : regex :=
  match s with
  | EmptyString => Eps
  | String c r => Seq (Lit c) (Str r)
  end.

Fixpoint Cat (l : list regex) : regex :=
  match l with
  | [] => Eps
  | r :: l' => Seq r (Cat l')
  end.

(** character classes *)
Fixpoint one_of (set : string) (c : ascii) : bool :=
  match set with
  | EmptyString => false
  | String d r => Ascii.eqb c d || one_of r c
  end.

Definition none_of (set : string) (c : ascii) : bool := negb (one_of set c).

(** [.] matches everything but a line feed. *)
Definition dot (c : ascii) : bool := negb (Ascii.eqb c (chr 10)).

Definition groups : Type := list (option string).

Fixpoint set_group (g : groups) (i : nat) (v : string) : groups :=
  match g, i with
  | [], _ => []
  | _ :: r, O => Some v :: r
  | x :: r, S i' => x :: set_group r i' v
  end.

Section Matcher.

Context {R : Type}.

Fixpoint run (r : regex) (s : string) (g : groups)
  (k : string -> groups -> option R) {struct r} : option R :=
  match r with
  | Eps => k s g
  | Chars p =>
      match s with
      | String c s' => if p c then k s' g else None
      | EmptyString => None
      end
  | Seq r1 r2 => run r1 s g (fun s' g' => run r2 s' g' k)
  | Opt r1 =>
      match run r1 s g k with
      | Some x => Some x
      | None => k s g
      end
  | Star r1 =>
      (fix loop (n : nat) (s : string) (g : groups) {struct n} : option R :=
         match n with
         | O => k s g
         | S n' =>
             match run r1 s g (fun s' g' =>
                     if (String.length s' <? String.length s)%nat
                     then loop n' s' g' else None) with
             | Some x => Some x
             | None => k s g
             end
         end) (String.length s) s g
  | Group i r1 =>
      run r1 s g (fun s' g' =>
        k s' (set_group g' i
                (substring 0 (String.length s - String.length s') s)))
  | Eos =>
      match s with
      | EmptyString => k s g
      | String c EmptyString => if Ascii.eqb c (chr 10) then k s g else None
      | _ => None
      end
  end.

End Matcher.

(** [re.compile(r).match(s)] for a pattern with [n] groups: the tuple
    [m.groups()] and [m.end()], or [None]. *)
Definition re_match (r : regex) (n : nat) (s : string) : option (groups * Z) :=
  run r s (repeat None n)
    (fun s' g => Some (g, Z.of_nat (String.length s - String.length s'))).

End Re.

(** ** [sip.py] *)

Module Sip.

Import PyStr.

Definition _address : list string :=
  ["contact"; "from"; "record-route"; "refer-to"; "referred-by"; "route"; "to"].

Definition _comma : list string :=
  ["allow"; "authorization"; "proxy-authenticate"; "proxy-authorization";
   "www-authenticate"].

Definition _unstructured : list string :=
  ["call-id"; "cseq"; "date"; "expires"; "max-forwards"; "organization";
   "server"; "subject"; "timestamp"; "user-agent"].

Definition _short : list string :=
  ["allow-events"; "u"; "call-id"; "i"; "contact"; "m"; "content-encoding";
   "e"; "content-length"; "l"; "content-type"; "c"; "event"; "o"; "from"; "f";
   "subject"; "s"; "supported"; "k"; "to"; "t"; "via"; "v"].

Definition _exception : dict string :=
  [("call-id", "Call-ID"); ("cseq", "CSeq");
   ("www-authenticate", "WWW-Authenticate"); ("x-real-ip", "X-Real-IP")].

(** [x or y] for a string [x], where evaluating [y] may raise *)
Definition or_else (x : string) (y : result string) : result string :=
  if truthy x then Ok x else y.

(** [_canon]. The calls nest: [depth] bounds the nesting as the interpreter's
    recursion limit does. Where a test of an [and] fails its value is
    falsy, which the empty string stands for. *)
Fixpoint _canon_rec (depth : nat) (s : string) : result string :=
  match depth with
  | O => Raise RecursionError
  | S depth' =>
      let s := lower s in
      short <- (if (len s =? 1) && list_mem s _short
                then i <- list_index _short s ;;
                     long <- list_at _short (i - 1) ;;
                     _canon_rec depth' long
                else Ok EmptyString) ;;
      or_else short
        (exc <- (if dict_mem _exception s then dict_item _exception s
                 else Ok EmptyString) ;;
         or_else exc (Ok (join "-" (map capitalize (split s "-")))))
  end.

Definition recursion_limit : nat := 1000.

Definition _canon (s : string) : result string := _canon_rec recursion_limit s.

(** *** class URI *)

Record URI : Type := mkURI {
  scheme : option string;
  user : option string;
  password : option string;
  host : option string;
  port : option Z;
  param : dict (option string);
  header : list string
}.

Import Re.

Definition user_chars (c : ascii) : bool :=
  is_alpha c || is_digit c || one_of "-_.!~*'()&=+$,;?/%" c.

Definition scheme_chars (c : ascii) : bool :=
  is_alpha c || is_digit c || one_of "+.-" c.

(** [URI._syntax]; the groups are scheme, user, password, host, port, params
    and headers. *)
Definition URI_syntax : regex :=
  Cat [ Group 0 (Seq (Chars is_alpha) (Star (Chars scheme_chars))); Lit ":";
        Opt (Cat [ Group 1 (Plus (Chars user_chars));
                   Opt (Seq (Lit ":") (Group 2 (Plus (Chars (none_of ":@;?")))));
                   Lit "@" ]);
        Group 3 (Star (Chars (none_of ";?:")));
        Opt (Seq (Lit ":") (Group 4 (Plus (Chars is_digit))));
        Opt (Seq (Lit ";") (Group 5 (Star (Chars (none_of "?")))));
        Opt (Seq (Lit "?") (Group 6 (Star (Chars dot))));
        Eos ].

(** [URI._syntax_urn]; the groups are scheme and host. *)
Definition URI_syntax_urn : regex :=
  Cat [ Group 0 (Str "urn"); Lit ":"; Group 1 (Plus (Chars (none_of ";?>")));
        Eos ].

Definition opt_truthy (o : option string) : bool :=
  match o with
  | Some s => truthy s
  | None => false
  end.

Definition is_none {A : Type} (o : option A) : bool :=
  match o with
  | Some _ => false
  | None => true
  end.

Definition opt_is (o : option string) (s : string) : bool :=
  match o with
  | Some x => String.eqb x s
  | None => false
  end.

(** [dict(pairs)] *)
Definition dict_of {V : Type} (l : list (string * V)) : dict V :=
  fold_left (fun d kv => dict_set d (fst kv) (snd kv)) l [].

Definition URI_empty : URI := mkURI None None None None None [] [].

(** [URI.__init__] *)
Definition URI_init (value : string) : result URI :=
  if truthy value then
    m <- match re_match URI_syntax 7 value with
         | Some ([scheme; user; password; host; port; params; headers], _) =>
             Ok (scheme, user, password, host, port, params, headers)
         | _ =>
             match re_match URI_syntax_urn 2 value with
             | Some ([scheme; host], _) =>
                 Ok (scheme, None, None, host, None, None, None)
             | _ => Raise (ValueError ("Invalid URI(" ++ value ++ ")"))
             end
         end ;;
    let '(scheme, user, password, host, port, params, headers) := m in
    let '(user, host) :=
      if opt_is scheme "tel" && is_none user
      then (host, None) else (user, host) in
    port <- match port with
            | Some p =>
                if truthy p
                then n <- int p ;; Ok (if n =? 0 then None else Some n)
                else Ok None
            | None => Ok None
            end ;;
    let param :=
      match params with
      | Some ps =>
          if truthy ps
          then dict_of
                 (map (fun k => let '(n, _, v) := k in
                                (n, if truthy v then Some v else None))
                    (map (fun n => partition n "=") (split ps ";")))
          else []
      | None => []
      end in
    let header :=
      match headers with
      | Some hs => if truthy hs then split hs "&" else []
      | None => []
      end in
    Ok (mkURI scheme user password host port param header)
  else Ok URI_empty.

(** [sorted(d.items())]: the keys of a dictionary are distinct, so the order
    of the pairs is the order of the keys. *)
Fixpoint insert_sorted {V : Type} (kv : string * V) (l : list (string * V))
  : list (string * V) :=
  match l with
  | [] => [kv]
  | kv' :: r =>
      if (fst kv <=? fst kv')%string then kv :: l
      else kv' :: insert_sorted kv r
  end.

Definition sorted_items {V : Type} (d : dict V) : list (string * V) :=
  fold_right insert_sorted [] d.

(** [URI.__repr__], which is also [str(uri)]. *)
Definition URI_repr (self : URI) : string :=
  let '(user, host) :=
    if negb (opt_is (scheme self) "tel") then (user self, host self)
    else (None, user self) in
  match scheme self, host with
  | Some sch, Some h =>
      if truthy sch && truthy h then
        sch ++ ":"
        ++ (match user with
            | Some u =>
                if truthy u
                then u ++ (match password self with
                           | Some p => if truthy p then ":" ++ p else ""
                           | None => ""
                           end) ++ "@"
                else ""
            | None => ""
            end)
        ++ h
        ++ (match port self with
            | Some p => if p =? 0 then "" else ":" ++ str_of_int p
            | None => ""
            end)
        ++ (if (0 <? Z.of_nat (List.length (param self)))
            then ";" ++ join ";"
                   (map (fun nv => match snd nv with
                                   | Some v => fst nv ++ "=" ++ v
                                   | None => fst nv
                                   end) (sorted_items (param self)))
            else "")
        ++ (if (0 <? Z.of_nat (List.length (header self)))
            then "?" ++ join "&" (header self)
            else "")
      else ""
  | _, _ => ""
  end.

(** [URI.__cmp__] *)
Definition URI_cmp (self other : URI) : Z :=
  let a := lower (URI_repr self) in
  let b := lower (URI_repr other) in
  if (b <? a)%string then 1
  else if (a <? b)%string then -1
  else 0.

Section Hash.

(** The built-in [hash] on strings. *)
Variable hash : string -> Z.

(** [URI.__hash__] *)
Definition URI_hash (self : URI) : Z := hash (lower (URI_repr self)).

End Hash.

(** URI objects. A call [URI(value)] makes a new object; the store lists the
    objects made so far and a reference is the place of an object in it. *)
Definition URI_store : Type := list URI.

Definition URI_ref : Type := nat.

Definition URI_new (value : string) (store : URI_store)
  : result (URI_ref * URI_store) :=
  u <- URI_init value ;;
  Ok (List.length store, (store ++ [u])%list).

Definition URI_deref (store : URI_store) (r : URI_ref) : option URI :=
  nth_error store r.

(** [a == b] on two URI objects. The class defines [__hash__] and [__cmp__]
    and no [__eq__]; Python 3, which the package requires, never calls
    [__cmp__], so the comparison is the one every class inherits from
    [object]: two references are equal when they are the same object. *)
Definition URI_eq (a b : URI_ref) : bool := Nat.eqb a b.

(** *** class Address *)

Record Address : Type := mkAddress {
  displayName : option string;
  uri : option URI;
  wildcard : bool;
  mustQuote : bool
}.

Definition name_chars (c : ascii) : bool :=
  is_alpha c || is_digit c || one_of "._+~ " c || Ascii.eqb c (chr 9)
  || Ascii.eqb c "-".

Definition blank (c : ascii) : bool := Ascii.eqb c " " || Ascii.eqb c (chr 9).

(** [Address._syntax]; the groups of each are name and uri. *)
Definition Address_syntax : list regex :=
  [ Cat [ Group 0 (Star (Chars name_chars)); Lit "<";
          Group 1 (Plus (Chars (none_of ">"))); Lit ">" ];
    Cat [ Lit DQUOTE; Group 0 (Plus (Chars (none_of QUOTE))); Lit DQUOTE;
          Star (Chars blank); Lit "<"; Group 1 (Plus (Chars (none_of ">")));
          Lit ">" ];
    Cat [ Star (Chars blank); Group 0 Eps; Group 1 (Plus (Chars (none_of ";"))) ] ].

(** [Address.__init__] without a value *)
Definition Address_empty : Address := mkAddress None None false false.

Definition group_strip (g : option string) : result string :=
  match g with
  | Some s => Ok (strip s)
  | None => Raise AttributeError
  end.

(** [Address.parse]: the address after the call and the returned count,
    [None] when no alternative matches. *)
Fixpoint Address_parse_alternatives (self : Address) (value : string)
  (alternatives : list regex) : result (Address * option Z) :=
  match alternatives with
  | [] => Ok (self, None)
  | s :: rest =>
      match re_match s 2 value with
      | Some (g, e) =>
          name <- group_strip (nth 0 g None) ;;
          u <- group_strip (nth 1 g None) ;;
          u <- URI_init u ;;
          Ok (mkAddress (Some name) (Some u) (wildcard self) (mustQuote self),
              Some e)
      | None => Address_parse_alternatives self value rest
      end
  end.

Definition Address_parse (self : Address) (value : string)
  : result (Address * option Z) :=
  if startswith value "*"
  then Ok (mkAddress (displayName self) (uri self) true (mustQuote self), Some 1)
  else Address_parse_alternatives self value Address_syntax.

(** *** class Header

    A header object is its attribute dictionary [__dict__]: [name], [value]
    and whatever parameters the value carried. *)

Inductive hval : Type :=
| HNone
| HStr (s : string)
| HInt (z : Z)
| HAddr (a : Address)
| HURI (u : URI).

Definition Header : Type := dict hval.

(** [Header.parse_params]: the pairs the generator yields. An exception in
    its body ends the generator after the pairs yielded so far. [fuel] bounds
    the iterations of the [while] loop. *)
Definition yield (n v : string) (more : list (string * string))
  : list (string * string) :=
  if truthy n then (n, v) :: more else more.

Fixpoint parse_params_loop (fuel : nat) (rest delimiter : string)
  (length index : Z) : list (string * string) :=
  match fuel with
  | O => []
  | S fuel' =>
      if index <? length then
        let sep1 := find rest "=" index in
        let sep2 := find rest delimiter index in
        let sep2 := if sep2 <? 0 then length else sep2 in
        if (0 <=? sep1) && (sep1 <? sep2) then
          let n := strip (lower (slice rest index sep1)) in
          match char_at rest (sep1 + 1) with
          | Ok c =>
              let '(sep1, sep2) :=
                if Ascii.eqb c DQUOTE
                then (sep1 + 1, find rest QUOTE (sep1 + 1 + 1))
                else (sep1, sep2) in
              let '(v, index) :=
                if 0 <=? sep2
                then (strip (slice rest (sep1 + 1) sep2), sep2 + 1)
                else (strip (slice_from rest (sep1 + 1)), length) in
              yield n v (parse_params_loop fuel' rest delimiter length index)
          | Raise _ => []
          end
        else if (sep1 <? 0) || ((0 <=? sep1) && (sep2 <? sep1)) then
          let n := strip (lower (slice rest index sep2)) in
          yield n "" (parse_params_loop fuel' rest delimiter length (sep2 + 1))
        else []
      else []
  end.

Definition parse_params (rest delimiter : string) : list (string * string) :=
  parse_params_loop (S (String.length rest)) rest delimiter (len rest) 0.

(** [for k, v in ...: self.__dict__[k] = v] *)
Definition set_params (self : Header) (params : list (string * string))
  : Header :=
  fold_left (fun d kv => dict_set d (fst kv) (HStr (snd kv))) params self.

Definition name_in (name : option string) (l : list string) : bool :=
  match name with
  | Some n => list_mem n l
  | None => false
  end.

Definition as_str (v : hval) : result string :=
  match v with
  | HStr s => Ok s
  | _ => Raise AttributeError
  end.

(** [Header._parse]: the header after the call and the returned value. *)
Definition Header_parse (self : Header) (value : string) (name : option string)
  : result (Header * hval) :=
  st <- (if name_in name _address then
           let addr := mkAddress None None false true in
           r <- Address_parse addr value ;;
           let '(addr, count) := r in
           let rest := match count with
                       | Some c => slice_from value c
                       | None => value
                       end in
           Ok (if truthy rest then set_params self (parse_params rest ";")
               else self, HAddr addr)
         else if negb (name_in name _comma) && negb (name_in name _unstructured)
         then
           let '(value, sep, rest) := partition value ";" in
           Ok (if truthy rest then set_params self (parse_params rest ";")
               else self, HStr value)
         else Ok (self, HStr value)) ;;
  let '(self, value) := st in
  if name_in name _comma then
    v <- as_str value ;;
    let '(authMethod, sep, rest) := partition (strip v) " " in
    let self := dict_set self "authMethod" (HStr authMethod) in
    Ok (if truthy rest then set_params self (parse_params rest ",") else self,
        value)
  else if opt_is name "cseq" then
    v <- as_str value ;;
    let '(n, sep, method) := partition v " " in
    let n := strip n in
    let self := dict_set self "method" (HStr (strip method)) in
    number <- int n ;;
    let self := dict_set self "number" (HInt number) in
    Ok (self, HStr (n ++ " " ++ strip method))
  else Ok (self, value).

(** [x or None] for a string [x] *)
Definition or_None (x : string) : option string :=
  if truthy x then Some x else None.

Definition hval_of (o : option string) : hval :=
  match o with
  | Some s => HStr s
  | None => HNone
  end.

(** [Header.__init__] *)
Definition Header_init (value : string) (name : option string)
  : result Header :=
  name <- match name with
          | Some n => if truthy n then c <- _canon (strip n) ;; Ok (or_None c)
                      else Ok None
          | None => Ok None
          end ;;
  let self := dict_set [] "name" (hval_of name) in
  r <- Header_parse self (strip value)
         (match name with
          | Some n => or_None (lower n)
          | None => None
          end) ;;
  let '(self, value) := r in
  Ok (dict_set self "value" value).

(** [Header.__getitem__] and [Header.__contains__] *)
Definition Header_getitem (self : Header) (name : string) : hval :=
  match dict_get self (lower name) with
  | Some v => v
  | None => HNone
  end.

Definition Header_contains (self : Header) (name : string) : bool :=
  dict_mem self (lower name).

(** [Header.__setitem__] *)
Definition Header_setitem (self : Header) (name : string) (value : hval)
  : Header :=
  dict_set self (lower name) value.

(** [self.name], [self.value]: plain attribute reads. *)
Definition getattr (self : Header) (name : string) : result hval :=
  match dict_get self name with
  | Some v => Ok v
  | None => Raise AttributeError
  end.

Definition hval_eq_str (v : hval) (s : string) : bool :=
  match v with
  | HStr x => String.eqb x s
  | _ => false
  end.

(** [int(x)] on an attribute value *)
Definition int_of_hval (v : hval) : result Z :=
  match v with
  | HStr s => int s
  | HInt z => Ok z
  | _ => Raise TypeError
  end.

(** what [uri.host = x] stores: parameters hold strings. *)
Definition host_of_hval (v : hval) : option string :=
  match v with
  | HStr s => Some s
  | _ => None
  end.

Definition set_port (u : URI) (p : option Z) : URI :=
  mkURI (scheme u) (user u) (password u) (host u) p (param u) (header u).

Definition set_host (u : URI) (h : option string) : URI :=
  mkURI (scheme u) (user u) (password u) h (port u) (param u) (header u).

(** [Header.via_uri]: the header after the call, which caches the result in
    [_viaUri], and the URI returned. *)
Definition via_uri (self : Header) : result (Header * hval) :=
  if negb (dict_mem self "_viaUri") then
    name <- getattr self "name" ;;
    if negb (hval_eq_str name "Via")
    then Raise (ValueError "viaUri available only on Via header")
    else
      value <- getattr self "value" ;;
      value <- as_str value ;;
      pa <- match split value " " with
            | [proto; addr] => Ok (proto, addr)
            | _ => Raise (ValueError "unpack")
            end ;;
      let '(proto, addr) := pa in
      t <- list_at (split proto "/") 2 ;;
      let via_type := lower t in
      u <- URI_init ("sip:" ++ addr ++ ";transport=" ++ via_type) ;;
      let u := if is_none (port u) then set_port u (Some 5060) else u in
      let u := if Header_contains self "rport"
               then try_except
                      (p <- int_of_hval (Header_getitem self "rport") ;;
                       Ok (set_port u (Some p))) u
               else u in
      let u := if negb (list_mem via_type ["tcp"; "sctp"; "tls"]) then
                 if Header_contains self "maddr"
                 then set_host u (host_of_hval (Header_getitem self "maddr"))
                 else if Header_contains self "received"
                 then set_host u (host_of_hval (Header_getitem self "received"))
                 else u
               else u in
      Ok (dict_set self "_viaUri" (HURI u), HURI u)
  else
    v <- getattr self "_viaUri" ;;
    Ok (self, v).

(** *** class Message

    A message object is its attribute dictionary [__dict__]: attribute and
    item access both go through the lower-cased name, so the start-line
    fields, [_body] and the headers live in one dictionary. *)

#[local] Set Warnings "-register-all".

Inductive mval : Type :=
| MNone
| MStr (s : string)
| MInt (z : Z)
| MURI (u : URI)
| MHdr (h : Header)
| MList (l : list mval).

Definition Message : Type := dict mval.

Definition _single : list string :=
  ["call-id"; "content-disposition"; "content-length"; "content-type"; "cseq";
   "date"; "expires"; "event"; "max-forwards"; "organization"; "refer-to";
   "referred-by"; "server"; "session-expires"; "subject"; "timestamp"; "to";
   "user-agent"].

(** [Message.__init__] before any parsing *)
Definition Message_new : Message :=
  [("method", MNone); ("uri", MNone); ("response", MNone);
   ("responsetext", MNone); ("protocol", MNone); ("_body", MNone)].

(** [Message.__getitem__], [__setitem__], [__contains__] *)
Definition Message_getitem (self : Message) (name : string) : mval :=
  match dict_get self (lower name) with
  | Some v => v
  | None => MNone
  end.

Definition Message_setitem (self : Message) (name : string) (v : mval)
  : Message :=
  dict_set self (lower name) v.

Definition Message_contains (self : Message) (name : string) : bool :=
  dict_mem self (lower name).

(** the getter and the setter of the property [Message.body] *)
Definition body (self : Message) : mval := Message_getitem self "_body".

Definition mval_of (o : option string) : mval :=
  match o with
  | Some s => MStr s
  | None => MNone
  end.

(** [value and len(value) or 0] *)
Definition body_length (value : option string) : Z :=
  match value with
  | Some s => if truthy s then len s else 0
  | None => 0
  end.

Definition set_body (self : Message) (value : option string) : result Message :=
  let self := Message_setitem self "_body" (mval_of value) in
  h <- Header_init (str_of_int (body_length value)) (Some "Content-Length") ;;
  Ok (Message_setitem self "Content-Length" (MHdr h)).

(** [Header.create_headers]: the canonical name and the lazy [map] of the
    headers to build, one per value. *)
Definition create_headers (value : string)
  : result (string * list (result Header)) :=
  nv <- match map strip (splitn value ":" 1) with
        | [name; value] => Ok (name, value)
        | _ => Raise (ValueError "not enough values to unpack")
        end ;;
  let '(name, value) := nv in
  c <- _canon name ;;
  Ok (c, map (fun x => Header_init x (Some name))
           (if negb (list_mem (lower name) _comma) then split value ","
            else [value])).

(** [list(values)] on the lazy [map] *)
Fixpoint force {A : Type} (l : list (result A)) : result (list A) :=
  match l with
  | [] => Ok []
  | r :: l' => a <- r ;; t <- force l' ;; Ok (a :: t)
  end.

Definition is_list (v : mval) : bool :=
  match v with
  | MList _ => true
  | _ => false
  end.

(** the first loop of [Message._parse]: unfolding of continuation lines *)
Fixpoint append_to_last (l : list string) (h : string) : list string :=
  match l with
  | [] => []
  | [x] => [x ++ h]
  | x :: r => x :: append_to_last r h
  end.

Definition starts_blank (h : string) : bool :=
  match h with
  | String c _ => Ascii.eqb c " " || Ascii.eqb c TAB
  | EmptyString => false
  end.

Definition ends_with_CR (h : string) : bool :=
  match last_char h with
  | Ok c => Ascii.eqb c CR
  | Raise _ => false
  end.

Definition unfold_line (h_list : list string) (h : string) : list string :=
  let h := if truthy h && ends_with_CR h then drop_last h else h in
  if truthy h && starts_blank h then
    match h_list with
    | [] => h_list
    | _ => append_to_last h_list h
    end
  else h_list ++ [h].

(** the body of the second loop of [Message._parse]: one header line, inside
    [try: ... except Exception: continue]. *)
Definition store_header (self : Message) (h : string) : Message :=
  try_except
    (nv <- create_headers h ;;
     let '(name, values) := nv in
     values <- force values ;;
     if negb (Message_contains self name) then
       v <- match values with
            | [] => Raise IndexError
            | [x] => Ok (MHdr x)
            | _ => Ok (MList (map MHdr values))
            end ;;
       Ok (Message_setitem self name v)
     else if negb (list_mem name _single) then
       let self :=
         if negb (is_list (Message_getitem self name))
         then Message_setitem self name (MList [Message_getitem self name])
         else self in
       match Message_getitem self name with
       | MList l => Ok (Message_setitem self name (MList (l ++ map MHdr values)))
       | _ => Raise TypeError
       end
     else Ok self)
    self.

(** [int(self['Content-Length'].value)] *)
Definition content_length_value (v : mval) : result Z :=
  match v with
  | MHdr h => x <- getattr h "value" ;; int_of_hval x
  | _ => Raise AttributeError
  end.

Definition is_MNone (v : mval) : bool :=
  match v with
  | MNone => true
  | _ => false
  end.

(** the last loop of [Message._parse] *)
Fixpoint check_mandatory (self : Message) (names : list string)
  : result Message :=
  match names with
  | [] => Ok self
  | h :: rest =>
      if negb (Message_contains self h)
      then Raise (ValueError ("Mandatory header " ++ h ++ " missing"))
      else check_mandatory self rest
  end.

Definition mandatory : list string := ["To"; "From"; "CSeq"; "Call-ID"].

(** [Message._parse], in the order of the source: the split at the blank
    line, the start line, the header lines, the body and the validation. *)
Definition split_message (value : string) : string * string :=
  let index_crlfcrlf := find value (CRLF ++ CRLF) 0 in
  let index_lflf := find value (String LF (String LF EmptyString)) 0 in
  let '(index_crlfcrlf, index_lflf) :=
    if (0 <=? index_crlfcrlf) && (0 <=? index_lflf) then
      if index_crlfcrlf <? index_lflf then (index_crlfcrlf, -1)
      else (-1, index_lflf)
    else (index_crlfcrlf, index_lflf) in
  if 0 <=? index_crlfcrlf
  then (slice_to value index_crlfcrlf, slice_from value (index_crlfcrlf + 4))
  else if 0 <=? index_lflf
  then (slice_to value index_lflf, slice_from value (index_lflf + 2))
  else (value, EmptyString).

Definition parse_first_line (self : Message) (first_headers : string)
  : result (Message * string) :=
  fh <- match splitn first_headers LF 1 with
        | [first_line; headers] => Ok (first_line, headers)
        | _ => Raise (ValueError "No first line found")
        end ;;
  let '(first_line, headers) := fh in
  last <- last_char first_line ;;
  let first_line :=
    if Ascii.eqb last CR then drop_last first_line else first_line in
  abc <- match splitn first_line " " 2 with
         | [a; b; c] => Ok (a, b, c)
         | _ => Raise (ValueError "not enough values to unpack")
         end ;;
  let '(a, b, c) := abc in
  match int b with
  | Ok n =>
      Ok (dict_set (dict_set (dict_set self "response" (MInt n))
                      "responsetext" (MStr c)) "protocol" (MStr a), headers)
  | Raise (ValueError _) =>
      u <- URI_init b ;;
      Ok (dict_set (dict_set (dict_set self "method" (MStr a))
                      "uri" (MURI u)) "protocol" (MStr c), headers)
  | Raise e => Raise e
  end.

Definition parse_headers (self : Message) (headers : string) : Message :=
  let h_list := fold_left unfold_line (split headers LF) [] in
  fold_left store_header h_list self.

(** [body_len]: the declared length, read before the body is assigned *)
Definition body_len (self : Message) : result Z :=
  if Message_contains self "Content-Length"
  then content_length_value (Message_getitem self "Content-Length")
  else Ok 0.

Definition check_content_length (self : Message) (body_text : string)
  : result Message :=
  body_len <- body_len self ;;
  self <- (if truthy body_text then set_body self (Some body_text)
           else Ok self) ;;
  if negb (is_MNone (body self)) && negb (body_len =? len body_text)
  then Raise (ValueError ("Invalid content-length " ++ str_of_int body_len
                            ++ "!=" ++ str_of_int (len body_text)))
  else Ok self.

Definition validate (self : Message) (body_text : string) : result Message :=
  self <- check_content_length self body_text ;;
  check_mandatory self mandatory.

Definition Message_parse (self : Message) (value : string) : result Message :=
  let '(first_headers, body_text) := split_message value in
  r <- parse_first_line self first_headers ;;
  let '(self, headers) := r in
  validate (parse_headers self headers) body_text.

(** [Message.__init__] *)
Definition Message_init (value : option string) : result Message :=
  match value with
  | Some v => if truthy v then Message_parse Message_new v else Ok Message_new
  | None => Ok Message_new
  end.

(** *** The rest of class URI *)

(** [URI.dup] *)
Definition URI_dup (self : URI) : result URI := URI_init (URI_repr self).

(** [URI.host_port] *)
Definition host_port (self : URI) : option string * option Z :=
  (host self, port self).

Definition set_scheme (u : URI) (s : option string) : URI :=
  mkURI s (user u) (password u) (host u) (port u) (param u) (header u).

(** [URI._ssecure], the setter of the property [secure]; [value] is the
    truth value of what is assigned. *)
Definition _ssecure (self : URI) (value : bool) : URI :=
  match scheme self with
  | Some sch =>
      if value && list_mem sch ["sip"; "http"]
      then set_scheme self (Some (sch ++ "s")) else self
  | None => self
  end.

(** [URI._gsecure], the getter of the property [secure] *)
Definition _gsecure (self : URI) : bool := name_in (scheme self) ["sips"; "https"].

(** *** The rest of class Address *)

(** [Address.__init__] *)
Definition Address_init (value : option string) : result Address :=
  match value with
  | Some v =>
      if truthy v then r <- Address_parse Address_empty v ;; Ok (fst r)
      else Ok Address_empty
  | None => Ok Address_empty
  end.

(** [Address.__repr__] *)
Definition Address_repr (self : Address) : string :=
  let result := if opt_truthy (displayName self)
                then match displayName self with
                     | Some d => QUOTE ++ d ++ QUOTE
                     | None => EmptyString
                     end
                else EmptyString in
  match uri self with
  | Some u =>
      let text := URI_repr u in
      let text := if mustQuote self || opt_truthy (displayName self)
                  then "<" ++ text ++ ">" else text in
      result ++ " " ++ text
  | None => result
  end.

(** [Address.dup] *)
Definition Address_dup (self : Address) : result Address :=
  Address_init (Some (Address_repr self)).

(** [s[0:stop]], where a negative [stop] counts from the end *)
Definition slice_upto (s : string) (stop : Z) : string :=
  if stop <? 0 then substring 0 (Z.to_nat (len s + stop)) s
  else substring 0 (Z.to_nat stop) s.

(** [x or y] on two optional strings *)
Definition opt_or (x y : option string) : option string :=
  if opt_truthy x then x else y.

(** [Address.get_displayable] and [Address.displayable] *)
Definition get_displayable (self : Address) (limit : Z) : string :=
  let name :=
    match opt_or (displayName self)
            (opt_or (match uri self with Some u => user u | None => None end)
               (opt_or (match uri self with Some u => host u | None => None end)
                  (Some EmptyString))) with
    | Some n => n
    | None => EmptyString
    end in
  if len name <? limit then name else slice_upto name (limit - 3) ++ "...".

Definition displayable (self : Address) : string := get_displayable self 25.

(** *** The rest of class Header *)

(** [str(x)] and the truth value of an attribute value *)
Definition hval_str (v : hval) : string :=
  match v with
  | HNone => "None"
  | HStr s => s
  | HInt z => str_of_int z
  | HAddr a => Address_repr a
  | HURI u => URI_repr u
  end.

Definition hval_truthy (v : hval) : bool :=
  match v with
  | HNone => false
  | HStr s => truthy s
  | HInt z => negb (z =? 0)
  | HAddr _ | HURI _ => true
  end.

(** the pattern of [Header.__str__] for a value that needs no quotes *)
Definition token_chars (c : ascii) : bool :=
  is_alpha c || is_digit c || one_of "-_.=" c.

Definition token_syntax : regex := Seq (Star (Chars token_chars)) Eos.

(** [sorted(l)] on a list of strings *)
Fixpoint insert_string (x : string) (l : list string) : list string :=
  match l with
  | [] => [x]
  | y :: r => if (x <=? y)%string then x :: l else y :: insert_string x r
  end.

Definition sorted (l : list string) : list string :=
  fold_right insert_string [] l.

(** one entry of [tag_list] *)
Definition tag (x : string) (v : hval) : string :=
  match re_match token_syntax 0 (hval_str v) with
  | Some _ =>
      if negb (hval_truthy v) then x else lower x ++ "=" ++ hval_str v
  | None => lower x ++ "=" ++ QUOTE ++ hval_str v ++ QUOTE
  end.

Definition tag_list (self : Header) : list string :=
  map (fun kv => tag (fst kv) (snd kv))
    (filter (fun kv => negb (list_mem (fst kv) ["name"; "value"; "_viauri"]))
       self).

(** [Header.__str__] *)
Definition Header_str (self : Header) : result string :=
  n <- getattr self "name" ;;
  n <- as_str n ;;
  let name := lower n in
  let rest := if list_mem name _comma || list_mem name _unstructured
              then EmptyString
              else join ";" (sorted (tag_list self)) in
  value <- getattr self "value" ;;
  Ok (hval_str value ++ (if truthy rest then ";" ++ rest else EmptyString)).

(** [Header.__repr__] *)
Definition Header_repr (self : Header) : result string :=
  n <- getattr self "name" ;;
  match n with
  | HStr name => s <- Header_str self ;; Ok (name ++ ": " ++ s)
  | _ => Raise TypeError
  end.

(** [Header.dup] *)
Definition Header_dup (self : Header) : result Header :=
  s <- Header_str self ;;
  n <- getattr self "name" ;;
  match n with
  | HStr name => Header_init s (Some name)
  | HNone => Header_init s None
  | _ => Raise AttributeError
  end.

(** *** The rest of class Message *)

Definition _keywords : list string :=
  ["method"; "uri"; "response"; "responsetext"; "protocol"; "_body"; "body"].

(** [Message.__delitem__] *)
Fixpoint dict_del {V : Type} (d : dict V) (k : string) : result (dict V) :=
  match d with
  | [] => Raise KeyError
  | (k', v) :: r =>
      if String.eqb k' k then Ok r
      else r' <- dict_del r k ;; Ok ((k', v) :: r')
  end.

Definition Message_delitem (self : Message) (name : string) : result Message :=
  dict_del self (lower name).

Definition mval_truthy (v : mval) : bool :=
  match v with
  | MNone => false
  | MStr s => truthy s
  | MInt z => negb (z =? 0)
  | MURI _ | MHdr _ => true
  | MList l => negb (Nat.eqb (List.length l) 0)
  end.

(** the names [Message.__iter__] and [Message.all] take for header names *)
Definition is_header_name (x : string) : bool :=
  negb (startswith x "_") && negb (list_mem x _keywords).

(** [filter(lambda x: isinstance(x, Header), v if isinstance(v, list) else [v])] *)
Definition header_of (v : mval) : list Header :=
  match v with
  | MHdr h => [h]
  | _ => []
  end.

Definition headers_of (v : mval) : list Header :=
  match v with
  | MList l => flat_map header_of l
  | _ => header_of v
  end.

(** [Message.__iter__]: the list behind the iterator *)
Definition Message_iter (self : Message) : list Header :=
  flat_map (fun kv => headers_of (Message_getitem self (fst kv)))
    (filter (fun kv => is_header_name (fst kv)) self).

(** [Message.first] *)
Definition Message_first (self : Message) (name : string) : result mval :=
  let result := Message_getitem self name in
  match result with
  | MList l =>
      x <- list_at l 0 ;;
      Ok (if mval_truthy x then x else result)
  | _ => Ok result
  end.

(** [x in args] where [args] is the iterator that [map] returns: the
    iterator is consumed up to the first item equal to [x], or to its end. *)
Fixpoint iter_contains (x : string) (args : list string)
  : bool * list string :=
  match args with
  | [] => (false, [])
  | y :: r => if String.eqb y x then (true, r) else iter_contains x r
  end.

(** [Message.all]: the keys of the message are tested in order against what
    is left of the iterator [args]. *)
Fixpoint all_loop (self : Message) (keys args : list string) : list Header :=
  match keys with
  | [] => []
  | x :: keys' =>
      let '(found, args') := iter_contains x args in
      ((if found && is_header_name x
        then headers_of (Message_getitem self x) else []) ++
       all_loop self keys' args')%list
  end.

Definition Message_all (self : Message) (args : list string) : list Header :=
  all_loop self (map fst self) (map lower args).

(** [Message.insert]; [header] is [None] or a header. *)
Definition Message_insert (self : Message) (header : option Header)
  (append : bool) : result Message :=
  match header with
  | None => Ok self
  | Some h =>
      n <- getattr h "name" ;;
      if hval_truthy n then
        name <- as_str n ;;
        if negb (Message_contains self name)
        then Ok (Message_setitem self name (MHdr h))
        else
          match Message_getitem self name with
          | MHdr old =>
              Ok (Message_setitem self name
                    (MList (if append then [MHdr old; MHdr h]
                            else [MHdr h; MHdr old])))
          | MList l =>
              Ok (Message_setitem self name
                    (MList (if append then l ++ [MHdr h] else MHdr h :: l)%list))
          | _ => Raise AttributeError
          end
      else Ok self
  end.

(** [del h[position]] inside [try: ... except Exception: pass] *)
Fixpoint remove_nth {A : Type} (l : list A) (n : nat) : list A :=
  match l, n with
  | [], _ => []
  | _ :: r, O => r
  | x :: r, S n' => x :: remove_nth r n'
  end.

Definition list_del {A : Type} (l : list A) (position : Z) : list A :=
  let i := if position <? 0 then position + Z.of_nat (List.length l)
           else position in
  if i <? 0 then l else remove_nth l (Z.to_nat i).

(** [Message.delete] *)
Definition Message_delete (self : Message) (name : string)
  (position : option Z) : result Message :=
  match position with
  | None => Message_delitem self name
  | Some p =>
      let h := list_del (Message_all self [name]) p in
      match h with
      | [] => Message_delitem self name
      | [x] => Ok (Message_setitem self name (MHdr x))
      | _ => Ok (Message_setitem self name (MList (map MHdr h)))
      end
  end.

(** [Message._populate_message] *)
Fixpoint insert_all (m : Message) (headers : list Header) : result Message :=
  match headers with
  | [] => Ok m
  | h :: r => m <- Message_insert m (Some h) true ;; insert_all m r
  end.

Definition _populate_message (m : Message) (headers : list Header)
  (content : option string) : result Message :=
  m <- insert_all m headers ;;
  if opt_truthy content then set_body m content
  else
    h <- Header_init "0" (Some "Content-Length") ;;
    Ok (Message_setitem m "Content-Length" (MHdr h)).

(** [Message.create_request] *)
Definition create_request (method uri : string) (headers : list Header)
  (content : option string) : result Message :=
  u <- URI_init uri ;;
  let m := dict_set (dict_set (dict_set Message_new "method" (MStr method))
                       "uri" (MURI u)) "protocol" (MStr "SIP/2.0") in
  m <- _populate_message m headers content ;;
  match Message_getitem m "CSeq" with
  | MNone => Ok m
  | MHdr cseq =>
      cm <- getattr cseq "method" ;;
      if negb (hval_eq_str cm method) then
        number <- getattr cseq "number" ;;
        h <- Header_init (hval_str number ++ " " ++ method) (Some "CSeq") ;;
        Ok (dict_set m "cseq" (MHdr h))
      else Ok m
  | _ => Raise AttributeError
  end.

(** [Message.create_response]; [r] is [None] or the message answered. *)
Definition create_response (response : Z) (responsetext : string)
  (headers : list Header) (content : option string) (r : option Message)
  : result Message :=
  let m := dict_set (dict_set (dict_set Message_new "response" (MInt response))
                       "responsetext" (MStr responsetext))
             "protocol" (MStr "SIP/2.0") in
  let m :=
    match r with
    | Some r =>
        let m := dict_set m "to" (Message_getitem r "To") in
        let m := dict_set m "from" (Message_getitem r "From") in
        let m := dict_set m "cseq" (Message_getitem r "CSeq") in
        let m := Message_setitem m "Call-ID" (Message_getitem r "Call-ID") in
        let m := dict_set m "via" (Message_getitem r "Via") in
        if response =? 100
        then dict_set m "timestamp" (Message_getitem r "Timestamp") else m
    | None => m
    end in
  _populate_message m headers content.

End Sip.

(** ** [rtp.py]

    The objects of the module are their attribute dictionaries. The types
    below hold every value the parser stores: an [Originator] or a
    [Connection] holds strings and integers; a [Media] holds strings, its
    port, lists of strings, the attribute white list and, under [o] and [c],
    an [Originator] or a [Connection]; an [SDP] holds the same and, under [m],
    the list of its [Media]. *)

Module Rtp.

Import PyStr.

Inductive leaf : Type :=
| LStr (s : string)
| LInt (z : Z).

Definition Obj : Type := dict leaf.

Inductive fval : Type :=
| FNone
| FStr (s : string)
| FInt (z : Z)
| FSet (l : list string)
| FList (l : list string)
| FOrig (o : Obj)
| FConn (c : Obj).

Definition Media : Type := dict fval.

Inductive sval : Type :=
| SField (f : fval)
| SMedia (l : list Media).

Definition SDP : Type := dict sval.

(** [SDP.multiple] *)
Definition multiple : string := "tramb".

(** [k in s] for two strings: [k] occurs in [s]. *)
Definition occurs_in (k s : string) : bool :=
  match index 0 k s with
  | Some _ => true
  | None => false
  end.

Section Environment.

(** [socket.gethostname()], [socket.gethostbyname] and the two successive
    readings [int(time.time())] of the clock in [Originator.__init__]. *)
Variable gethostname : string.
Variable gethostbyname : string -> result string.
Variable time_1 time_2 : Z.

(** [Originator.__init__] *)
Definition Originator_init (value : string) : result Obj :=
  if truthy value then
    match split value " " with
    | [username; sessionid; version; nettype; addrtype; address] =>
        sessionid <- int sessionid ;;
        version <- int version ;;
        Ok [("username", LStr username); ("sessionid", LInt sessionid);
            ("version", LInt version); ("nettype", LStr nettype);
            ("addrtype", LStr addrtype); ("address", LStr address)]
    | _ => Raise (ValueError "unpack")
    end
  else
    let hostname := gethostname in
    address <- (if 0 <? find hostname "." 0 then Ok hostname
                else a <- gethostbyname hostname ;; Ok a) ;;
    Ok [("username", LStr "-"); ("sessionid", LInt time_1);
        ("version", LInt time_2); ("nettype", LStr "IN");
        ("addrtype", LStr "IP4"); ("address", LStr address)].

(** [Connection.__init__] with a value and no keyword *)
Definition Connection_init (value : string) : result Obj :=
  if truthy value then
    match split value " " with
    | [nettype; addrtype; rest] =>
        let self := [("nettype", LStr nettype); ("addrtype", LStr addrtype)] in
        match split rest "/" with
        | [address] => Ok (dict_set self "address" (LStr address))
        | [address; ttl] =>
            ttl <- int ttl ;;
            Ok (dict_set (dict_set self "address" (LStr address)) "ttl" (LInt ttl))
        | address :: ttl :: count :: _ =>
            ttl <- int ttl ;;
            count <- int count ;;
            Ok (dict_set (dict_set (dict_set self "address" (LStr address))
                            "ttl" (LInt ttl)) "count" (LInt count))
        | [] => Raise IndexError
        end
    | _ => Raise (ValueError "unpack")
    end
  else Ok [].

(** [Media.__init__] with a value and the keyword [media_attributes] *)
Definition Media_init (value : string) (media_attributes : fval)
  : result Media :=
  self <- (if truthy value then
             match splitn value " " 3 with
             | [media; port; proto; rest] =>
                 port <- int port ;;
                 Ok [("media", FStr media); ("port", FInt port);
                     ("proto", FStr proto); ("fmt", FList (split rest " "))]
             | _ => Raise (ValueError "unpack")
             end
           else Ok []) ;;
  Ok (dict_set self "_Media__attribute_list" media_attributes).

(** [_Attributes.__getitem__] on a [Media] and on an [SDP] *)
Definition Media_getitem (self : Media) (name : string) : fval :=
  match dict_get self name with
  | Some v => v
  | None => FNone
  end.

Definition SDP_getitem (self : SDP) (name : string) : sval :=
  match dict_get self name with
  | Some v => v
  | None => SField FNone
  end.

Definition fval_truthy (v : fval) : bool :=
  match v with
  | FNone => false
  | FStr s => truthy s
  | FInt z => negb (z =? 0)
  | FSet l | FList l => negb (Nat.eqb (List.length l) 0)
  | FOrig _ | FConn _ => true
  end.

Definition sval_truthy (v : sval) : bool :=
  match v with
  | SField f => fval_truthy f
  | SMedia l => negb (Nat.eqb (List.length l) 0)
  end.

(** the value of a line that is not an [m] line *)
Definition line_value (k v : string) : result fval :=
  if String.eqb k "o" then o <- Originator_init v ;; Ok (FOrig o)
  else if String.eqb k "c" then c <- Connection_init v ;; Ok (FConn c)
  else Ok (FStr v).

(** [(k in SDP.multiple and ((k in obj) and (obj[k] + [v]) or [v])) or v]:
    the new value of [obj[k]], given the old one. The lists of the model hold
    strings: an object is built for [o] and [c] only, which are not in
    [SDP.multiple]. *)
Definition attached (k : string) (old : option fval) (v : fval) : result fval :=
  if occurs_in k multiple then
    match v with
    | FStr s =>
        match old with
        | Some (FList l) => Ok (FList (l ++ [s]))
        | Some _ => Raise TypeError
        | None => Ok (FList [s])
        end
    | _ => Raise TypeError
    end
  else Ok v.

(** [obj[k] = ...] on a [Media] *)
Definition attach (obj : Media) (k : string) (v : fval) : result Media :=
  x <- attached k (dict_get obj k) v ;;
  Ok (dict_set obj k x).

(** [obj[k] = ...] on the [SDP] itself *)
Definition attach_top (self : SDP) (k : string) (v : fval) : result SDP :=
  old <- match dict_get self k with
         | Some (SField f) => Ok (Some f)
         | Some (SMedia _) => Raise TypeError
         | None => Ok None
         end ;;
  x <- attached k old v ;;
  Ok (dict_set self k (SField x)).

Fixpoint set_last {A : Type} (l : list A) (x : A) : list A :=
  match l with
  | [] => []
  | [_] => [x]
  | y :: r => y :: set_last r x
  end.

(** the body of the loop of [SDP._parse]: one line *)
Definition parse_line (self : SDP) (line : string) : result SDP :=
  let '(k, sep, v) := partition line "=" in
  if String.eqb k "m" then
    allowed_attributes <- match SDP_getitem self "_allowed_attributes" with
                          | SField f => Ok f
                          | SMedia _ => Raise TypeError
                          end ;;
    m <- Media_init v allowed_attributes ;;
    let self := if negb (sval_truthy (SDP_getitem self "m"))
                then dict_set self "m" (SMedia []) else self in
    match SDP_getitem self "m" with
    | SMedia l => Ok (dict_set self "m" (SMedia (l ++ [m])))
    | SField _ => Raise AttributeError
    end
  else
    v <- line_value k v ;;
    if sval_truthy (SDP_getitem self "m") then
      match SDP_getitem self "m" with
      | SMedia l =>
          obj <- list_at l (-1) ;;
          obj <- attach obj k v ;;
          Ok (dict_set self "m" (SMedia (set_last l obj)))
      | SField _ => Raise TypeError
      end
    else attach_top self k v.

(** [SDP._parse] *)
Fixpoint parse_lines (self : SDP) (lines : list string) : result SDP :=
  match lines with
  | [] => Ok self
  | line :: rest => self <- parse_line self line ;; parse_lines self rest
  end.

Definition SDP_parse (self : SDP) (text : string) : result SDP :=
  parse_lines self (split (replace_crlf text) LF).

(** [SDP.__init__] *)
Definition SDP_init (value : string) (allowed_attributes : fval) : result SDP :=
  let self := [("_allowed_attributes", SField allowed_attributes)] in
  if truthy value then SDP_parse self value else Ok self.

End Environment.

(** [str(x)] of what an [Originator] or a [Connection] holds; a missing
    attribute reads as [None]. *)
Definition leaf_str (v : option leaf) : string :=
  match v with
  | Some (LStr s) => s
  | Some (LInt z) => str_of_int z
  | None => "None"
  end.

(** [Originator.__repr__] *)
Definition Originator_repr (self : Obj) : string :=
  join " " (map (fun a => leaf_str (dict_get self a))
              ["username"; "sessionid"; "version"; "nettype"; "addrtype";
               "address"]).

Definition leaf_text (v : option leaf) : result string :=
  match v with
  | Some (LStr s) => Ok s
  | _ => Raise TypeError
  end.

Definition leaf_truthy (v : option leaf) : bool :=
  match v with
  | Some (LStr s) => truthy s
  | Some (LInt z) => negb (z =? 0)
  | None => false
  end.

(** [Connection.__repr__] *)
Definition Connection_repr (self : Obj) : result string :=
  nettype <- leaf_text (dict_get self "nettype") ;;
  addrtype <- leaf_text (dict_get self "addrtype") ;;
  address <- leaf_text (dict_get self "address") ;;
  Ok (nettype ++ " " ++ addrtype ++ " " ++ address
      ++ (if leaf_truthy (dict_get self "ttl")
          then "/" ++ leaf_str (dict_get self "ttl") else "")
      ++ (if leaf_truthy (dict_get self "count")
          then "/" ++ leaf_str (dict_get self "count") else "")).

(** [str(x)] of a field value. The parser stores no list and no set where
    the serializers apply [str]; their text is left out of the model. *)
Definition fval_str (v : fval) : result string :=
  match v with
  | FNone => Ok "None"
  | FStr s => Ok s
  | FInt z => Ok (str_of_int z)
  | FOrig o => Ok (Originator_repr o)
  | FConn c => Connection_repr c
  | FSet _ | FList _ => Raise TypeError
  end.

(** [x in whitelist] *)
Definition allowed (whitelist : fval) (x : string) : result bool :=
  match whitelist with
  | FSet l | FList l => Ok (list_mem x l)
  | FStr s => Ok (occurs_in x s)
  | _ => Raise TypeError
  end.

(** [v.split(':', 1)[0]] *)
Definition attribute_name (v : string) : result string :=
  list_at (splitn v ":" 1) 0.

(** [for v in x] where a list of strings is expected; a string iterates
    over its characters. *)
Fixpoint chars (s : string) : list string :=
  match s with
  | EmptyString => []
  | String c r => String c EmptyString :: chars r
  end.

Definition iter_strings (v : fval) : result (list string) :=
  match v with
  | FList l => Ok l
  | FStr s => Ok (chars s)
  | _ => Raise TypeError
  end.

Definition fval_text (v : fval) : result string :=
  match v with
  | FStr s => Ok s
  | _ => Raise TypeError
  end.

(** [result += f(x)] for each [x] of [l] *)
Fixpoint append_each {A : Type} (f : A -> result string) (l : list A)
  (acc : string) : result string :=
  match l with
  | [] => Ok acc
  | x :: r => t <- f x ;; append_each f r (acc ++ t)
  end.

(** [Media.__assemble_line] *)
Definition Media_assemble_line (self : Media) (k v : string) : result string :=
  let attribute_list := Media_getitem self "_Media__attribute_list" in
  if String.eqb k "a" && fval_truthy attribute_list then
    n <- attribute_name v ;;
    ok <- allowed attribute_list n ;;
    Ok (if ok then CRLF ++ k ++ "=" ++ v else "")
  else Ok (CRLF ++ k ++ "=" ++ v).

(** [Media.__repr__] *)
Definition Media_field (self : Media) (k : string) : result string :=
  if dict_mem self k then
    if negb (occurs_in k multiple) then
      v <- fval_str (Media_getitem self k) ;;
      Media_assemble_line self k v
    else
      vs <- iter_strings (Media_getitem self k) ;;
      append_each (Media_assemble_line self k) vs ""
  else Ok "".

Definition Media_repr (self : Media) : result string :=
  media <- fval_text (Media_getitem self "media") ;;
  port <- fval_str (Media_getitem self "port") ;;
  proto <- fval_text (Media_getitem self "proto") ;;
  fmt <- iter_strings (Media_getitem self "fmt") ;;
  append_each (Media_field self) (chars "icbka")
    (media ++ " " ++ port ++ " " ++ proto ++ " " ++ join " " fmt).

(** [SDP.__assemble_line] *)
Definition SDP_assemble_line (self : SDP) (k v : string) : result string :=
  match SDP_getitem self "_allowed_attributes" with
  | SField allowed_attributes =>
      if String.eqb k "a" && fval_truthy allowed_attributes then
        n <- attribute_name v ;;
        ok <- allowed allowed_attributes n ;;
        Ok (if ok then k ++ "=" ++ v ++ CRLF else "")
      else Ok (k ++ "=" ++ v ++ CRLF)
  | SMedia l =>
      if String.eqb k "a" && sval_truthy (SMedia l) then Raise TypeError
      else Ok (k ++ "=" ++ v ++ CRLF)
  end.

(** [SDP.__repr__] *)
Definition SDP_field (self : SDP) (k : string) : result string :=
  if dict_mem self k then
    if negb (occurs_in k multiple) then
      match SDP_getitem self k with
      | SField f => v <- fval_str f ;; SDP_assemble_line self k v
      | SMedia _ => Raise TypeError
      end
    else
      match SDP_getitem self k with
      | SField f =>
          vs <- iter_strings f ;;
          append_each (SDP_assemble_line self k) vs ""
      | SMedia l =>
          append_each (fun m => v <- Media_repr m ;; SDP_assemble_line self k v)
            l ""
      end
  else Ok "".

Definition SDP_repr (self : SDP) : result string :=
  append_each (SDP_field self) (chars "vosiuepcbtam") "".

End Rtp.

(** * Auxiliary predicates and the inputs of the examples *)

Import PyStr Re Sip Rtp.

(** A string without an upper-case letter. *)
Fixpoint no_upper (s : string) : bool :=
  match s with
  | EmptyString => true
  | String c r => negb (is_upper c) && no_upper r
  end.

(** The header [Via: SIP/2.0/UDP 192.0.2.1;rport=9999;received=192.0.2.5] *)
Definition via_example : result Header :=
  Header_init "SIP/2.0/UDP 192.0.2.1;rport=9999;received=192.0.2.5" (Some "Via").

(** The same header after one call of the accessor, then renamed through
    [Header.__setitem__]. *)
Definition renamed_via_example : result Header :=
  h <- via_example ;;
  r <- via_uri h ;;
  Ok (Header_setitem (fst r) "name" (HStr "Route")).

(** A string without white space and without [;]. *)
Fixpoint plain (s : string) : bool :=
  match s with
  | EmptyString => true
  | String c r => negb (is_space c) && negb (Ascii.eqb c ";") && plain r
  end.

(** An INVITE built from its header lines and its body. *)
Definition invite (headers : list string) (body_text : string) : string :=
  join CRLF (["INVITE sip:bob@biloxi.com SIP/2.0"] ++ headers
             ++ [""; body_text]).

Definition to_line : string := "To: Bob <sip:bob@biloxi.com>".
Definition from_line : string := "From: Alice <sip:alice@atlanta.com>;tag=1928301774".
Definition cseq_line : string := "CSeq: 314159 INVITE".
Definition call_id_line : string := "Call-ID: a84b4c76e66710".

Definition invite_length_10 : string :=
  invite [to_line; from_line; cseq_line; call_id_line; "Content-Length: 10"]
    "0123456789".

Definition invite_length_11 : string :=
  invite [to_line; from_line; cseq_line; call_id_line; "Content-Length: 11"]
    "0123456789".

Definition invite_no_call_id : string :=
  invite [to_line; from_line; cseq_line; "Content-Length: 10"] "0123456789".

Definition invite_no_call_id_length_11 : string :=
  invite [to_line; from_line; cseq_line; "Content-Length: 11"] "0123456789".

Definition invite_two_call_ids : string :=
  invite [to_line; from_line; cseq_line; call_id_line; "Call-ID: second";
          "Content-Length: 10"] "0123456789".

(** The first of [To], [From], [CSeq], [Call-ID], in that order, that a
    message lacks. *)
Definition first_missing (self : Message) : option string :=
  List.find (fun h => negb (Message_contains self h)) mandatory.

(** A string that does not start with a lower-case letter. *)
Definition head_not_lower (s : string) : bool :=
  match s with
  | EmptyString => true
  | String c _ => negb (is_lower c)
  end.

(** A session with two media sections; the [a] lines of each section are
    interleaved with its other lines. *)
Definition session_two_media : string :=
  join CRLF
    ["v=0"; "o=- 2890844526 2890842807 IN IP4 host.atlanta.com"; "s=-";
     "c=IN IP4 192.0.2.101"; "t=0 0";
     "m=audio 49170 RTP/AVP 0 8";
     "a=rtpmap:0 PCMU/8000"; "i=voice"; "a=rtpmap:8 PCMA/8000";
     "m=video 51372 RTP/AVP 31";
     "a=rtpmap:31 H261/90000"; "c=IN IP4 192.0.2.102"; "a=recvonly"; ""].

Definition session_two_media_serialized : string :=
  join CRLF
    ["v=0"; "o=- 2890844526 2890842807 IN IP4 host.atlanta.com"; "s=-";
     "c=IN IP4 192.0.2.101"; "t=0 0";
     "m=audio 49170 RTP/AVP 0 8";
     "i=voice"; "a=rtpmap:0 PCMU/8000"; "a=rtpmap:8 PCMA/8000";
     "m=video 51372 RTP/AVP 31";
     "c=IN IP4 192.0.2.102"; "a=rtpmap:31 H261/90000"; "a=recvonly"; ""].

(** A media section followed by two lines with the key [ra] and by a blank
    line. *)
Definition session_repeated_ra : string :=
  join CRLF ["v=0"; "m=audio 49170 RTP/AVP 0"; "ra=1"; "ra=2"; ""].

(** The loop of [Header.parse_params] once more, with a result that tells
    whether the iterations allowed were enough: [None] when they run out
    before the loop ends. *)
Fixpoint parse_params_run (fuel : nat) (rest delimiter : string)
  (length index : Z) : option (list (string * string)) :=
  match fuel with
  | O => None
  | S fuel' =>
      if index <? length then
        let sep1 := find rest "=" index in
        let sep2 := find rest delimiter index in
        let sep2 := if sep2 <? 0 then length else sep2 in
        if (0 <=? sep1) && (sep1 <? sep2) then
          let n := strip (lower (slice rest index sep1)) in
          match char_at rest (sep1 + 1) with
          | Ok c =>
              let '(sep1, sep2) :=
                if Ascii.eqb c DQUOTE
                then (sep1 + 1, find rest QUOTE (sep1 + 1 + 1))
                else (sep1, sep2) in
              let '(v, index) :=
                if 0 <=? sep2
                then (strip (slice rest (sep1 + 1) sep2), sep2 + 1)
                else (strip (slice_from rest (sep1 + 1)), length) in
              option_map (yield n v)
                (parse_params_run fuel' rest delimiter length index)
          | Raise _ => Some []
          end
        else if (sep1 <? 0) || ((0 <=? sep1) && (sep2 <? sep1)) then
          let n := strip (lower (slice rest index sep2)) in
          option_map (yield n EmptyString)
            (parse_params_run fuel' rest delimiter length (sep2 + 1))
        else Some []
      else Some []
  end.

(** the key a dictionary lists first *)
Definition first_key {V : Type} (d : dict V) : option string :=
  match d with
  | (k, _) :: _ => Some k
  | [] => None
  end.

(** the attribute values that are neither a header nor a list *)
Definition is_field (v : mval) : bool :=
  match v with
  | MHdr _ | MList _ => false
  | _ => true
  end.

(** an INVITE with two [Via] lines and no body *)
Definition invite_two_vias : string :=
  invite ["Via: SIP/2.0/UDP a.example.com"; "Via: SIP/2.0/UDP b.example.com";
          to_line; from_line; cseq_line; call_id_line] "".

(** the lines of a session description that open a media section, and the
    media sections a session holds *)
Definition is_m_line (line : string) : bool :=
  let '(k, sep, v) := partition line "=" in String.eqb k "m".

Definition media_of (self : SDP) : list Media :=
  match SDP_getitem self "m" with
  | SMedia l => l
  | SField _ => []
  end.

(** The length in bytes of a text in UTF-8, the encoding of SIP messages:
    one byte for a character below U+0080 and two for each other character of
    the model. This is the length the specification speaks of; the code
    never computes it. *)
Fixpoint utf8_length (s : string) : Z :=
  match s with
  | EmptyString => 0
  | String c r => (if (ord c <? 128)%nat then 1 else 2) + utf8_length r
  end.

(** the texts of ASCII characters *)
Fixpoint ascii_text (s : string) : bool :=
  match s with
  | EmptyString => true
  | String c r => (ord c <? 128)%nat && ascii_text r
  end.

(** A body of five characters, the second of them U+00E9, which takes two
    bytes in UTF-8; and an INVITE with that body that declares the number of
    its characters, and one that declares the number of its bytes. *)
Definition body_five_characters : string :=
  String "h" (String (chr 233) "llo").

Definition invite_five_characters_length_5 : string :=
  invite [to_line; from_line; cseq_line; call_id_line; "Content-Length: 5"]
    body_five_characters.

Definition invite_five_characters_length_6 : string :=
  invite [to_line; from_line; cseq_line; call_id_line; "Content-Length: 6"]
    body_five_characters.

(** * Properties *)

(** ** The string methods on small inputs *)

Example split_keeps_empty_pieces :
  split "a,b,,c" "," = ["a"; "b"; ""; "c"] /\ split "" "," = [""].
Proof. split; reflexivity. Qed.

Example splitn_stops_after_maxsplit :
  splitn "Subject: a: b" ":" 1 = ["Subject"; " a: b"] /\
  splitn "no colon" ":" 1 = ["no colon"] /\
  splitn "SIP/2.0 200 Not  Found" " " 2 = ["SIP/2.0"; "200"; "Not  Found"].
Proof. repeat split; reflexivity. Qed.

Example partition_at_first_separator :
  partition "1 INVITE x" " " = ("1", " ", "INVITE x") /\
  partition "text" ";" = ("text", "", "").
Proof. split; reflexivity. Qed.

Example strip_both_ends :
  strip (String TAB "  a b " ++ CRLF) = "a b" /\ strip "   " = "".
Proof. split; reflexivity. Qed.

Example find_and_slice :
  find "rport=9999;x" "=" 0 = 5 /\ find "rport=9999;x" ";" 6 = 10 /\
  find "rport" "=" 0 = -1 /\ slice "rport=9999;x" 6 10 = "9999" /\
  slice_from "rport=9999;x" 11 = "x".
Proof. repeat split; reflexivity. Qed.

Example int_of_text :
  int " 42 " = Ok 42 /\ int "-7" = Ok (-7) /\ int "1_000" = Ok 1000 /\
  int "" = Raise (ValueError "invalid literal for int() with base 10: ''") /\
  str_of_int 5060 = "5060" /\ str_of_int 0 = "0".
Proof. repeat split; reflexivity. Qed.

Example capitalize_and_lower :
  capitalize "cONTENT" = "Content" /\ lower "Call-ID" = "call-id".
Proof. split; reflexivity. Qed.

(** The three alternatives of the address grammar: a name before angle
    brackets, a quoted name, a bare URI up to the first [;]. *)
Example address_alternatives :
  re_match (nth 0 Address_syntax Eps) 2 "Bob <sip:bob@biloxi.com>;tag=1"
  = Some ([Some "Bob "; Some "sip:bob@biloxi.com"], 24) /\
  re_match (nth 1 Address_syntax Eps) 2
    (QUOTE ++ "B. B" ++ QUOTE ++ " <sip:bob@biloxi.com>")
  = Some ([Some "B. B"; Some "sip:bob@biloxi.com"], 27) /\
  re_match (nth 2 Address_syntax Eps) 2 "sip:bob@biloxi.com;tag=1"
  = Some ([Some ""; Some "sip:bob@biloxi.com"], 18) /\
  re_match (nth 0 Address_syntax Eps) 2 "sip:bob@biloxi.com" = None.
Proof. repeat split; vm_compute; reflexivity. Qed.

(** The URI grammar on the example of the full form. *)
Example full_uri :
  URI_init "sip:alice:pw@atlanta.com:5061;transport=tcp?Priority=urgent"
  = Ok (mkURI (Some "sip") (Some "alice") (Some "pw") (Some "atlanta.com")
          (Some 5061) [("transport", Some "tcp")] ["Priority=urgent"]) /\
  URI_init "urn:service:sos"
  = Ok (mkURI (Some "urn") None None (Some "service:sos") None [] []) /\
  URI_init "no scheme" = Raise (ValueError "Invalid URI(no scheme)").
Proof. repeat split; vm_compute; reflexivity. Qed.

(** ** Canonical header names *)

Lemma dict_item_mem {V : Type} (d : dict V) (k : string) :
  dict_mem d k = true -> exists v, dict_item d k = Ok v.
Proof.
  unfold dict_mem, dict_item.
  destruct (dict_get d k) as [v|]; [eauto | discriminate].
Qed.

Lemma lower_length (s : string) : String.length (lower s) = String.length s.
Proof.
  unfold lower.
  induction s as [|c r IH]; simpl; [reflexivity | now rewrite IH].
Qed.

(** A one-character name of [_short] is one of the twelve short forms, and
    the entry before it canonicalizes without a further nested call. *)
Lemma _canon_rec_short (n : nat) (s : string) :
  (len s =? 1) && list_mem s _short = true ->
  exists i long c,
    list_index _short s = Ok i /\ list_at _short (i - 1) = Ok long /\
    _canon_rec (S n) long = Ok c.
Proof.
  intros H. apply andb_prop in H as [Hlen Hmem].
  unfold list_mem in Hmem. apply existsb_exists in Hmem as [x [Hin Heq]].
  apply String.eqb_eq in Heq. subst x.
  simpl in Hin.
  repeat (destruct Hin as [Hin|Hin];
          [subst s; try discriminate Hlen;
           do 3 eexists; repeat split; reflexivity|]).
  contradiction.
Qed.

Lemma _canon_tail_total (t : string) :
  exists r,
    (exc <- (if dict_mem _exception t then dict_item _exception t
             else Ok EmptyString) ;;
     or_else exc (Ok (join "-" (map capitalize (split t "-"))))) = Ok r.
Proof.
  destruct (dict_mem _exception t) eqn:Hexc.
  - destruct (dict_item_mem _ _ Hexc) as [e He]. rewrite He. cbn [bind].
    unfold or_else. destruct (truthy e); eauto.
  - cbn [bind]. unfold or_else. cbn [truthy]. eauto.
Qed.

Lemma _canon_rec_total (n : nat) (s : string) :
  exists r, _canon_rec (S (S n)) s = Ok r.
Proof.
  cbn [_canon_rec]. set (t := lower s).
  destruct ((len t =? 1) && list_mem t _short) eqn:Hshort.
  - destruct (_canon_rec_short n t Hshort) as (i & long & c & Hi & Hl & Hc).
    rewrite Hi. cbn [bind]. rewrite Hl. cbn [bind].
    change (match n with
            | O => _canon_rec 1 long
            | S _ => _canon_rec (S n) long
            end) with (_canon_rec (S n) long) in *.
    cbn [_canon_rec] in Hc. rewrite Hc. cbn [bind].
    unfold or_else at 1. destruct (truthy c); [eauto|].
    apply _canon_tail_total.
  - cbn [bind]. unfold or_else at 1. cbn [truthy]. apply _canon_tail_total.
Qed.

Lemma _canon_total (s : string) : exists r, _canon s = Ok r.
Proof.
  unfold _canon, recursion_limit.
  change 1000%nat with (S (S 998)).
  apply _canon_rec_total.
Qed.

(** Any bound of two or more on the nesting gives the same name. *)
Lemma _canon_rec_depth (n m : nat) (s : string) :
  _canon_rec (S (S n)) s = _canon_rec (S (S m)) s.
Proof.
  cbn [_canon_rec]. set (t := lower s).
  destruct ((len t =? 1) && list_mem t _short) eqn:Hshort; [|reflexivity].
  destruct (_canon_rec_short 0 t Hshort) as (i & long & c & Hi & Hl & Hc).
  rewrite Hi. cbn [bind]. rewrite Hl. cbn [bind].
  apply andb_prop in Hshort as [Hlen Hmem].
  unfold list_mem in Hmem. apply existsb_exists in Hmem as [x [Hin Heq]].
  apply String.eqb_eq in Heq. subst x.
  simpl in Hin.
  repeat (destruct Hin as [Hin|Hin];
          [rewrite <- Hin in *; try discriminate Hlen;
           injection Hi as <-; injection Hl as <-;
           destruct n, m; reflexivity|]).
  contradiction.
Qed.

(** C4. [_canon] never fails: every string has a canonical name, the value of
    the function at that string; and ["Via"], ["via"], ["VIA"] and the short
    form ["v"] all canonicalize to ["Via"], and ["call-id"] to ["Call-ID"]. *)
Theorem canonicalize_total_and_case_insensitive :
  (forall s : string, exists r : string, _canon s = Ok r) /\
  _canon "Via" = Ok "Via" /\
  _canon "via" = Ok "Via" /\
  _canon "VIA" = Ok "Via" /\
  _canon "v" = Ok "Via" /\
  _canon "call-id" = Ok "Call-ID".
Proof.
  split; [exact _canon_total|].
  repeat split; vm_compute; reflexivity.
Qed.

(** ** The parameter tokenizer *)

(** C5. On [foo="a;b";bar] with the delimiter [;] the tokenizer yields the
    two pairs [foo] with the value [a;b] and [bar] with the empty string,
    which is how [parse_params] reports a name without a value ([v = '']):
    the [;] inside the quotes does not split, and [bar], which has no [=]
    before the end, is a bare flag. *)
Theorem parse_params_quoted_and_flag :
  parse_params ("foo=" ++ QUOTE ++ "a;b" ++ QUOTE ++ ";bar") ";"
  = [("foo", "a;b"); ("bar", "")].
Proof. vm_compute. reflexivity. Qed.

(** *** The loop of the tokenizer ends

    Each iteration moves [index] forward, so the iterations that
    [parse_params] allows are enough: more of them yield the same pairs. *)

Lemma index_ge (sub s : string) (n m : nat) :
  index n sub s = Some m -> (n <= m)%nat.
Proof.
  revert n m. induction s as [|c r IH]; intros n m; simpl.
  - destruct n; [|discriminate]. destruct sub; [|discriminate].
    intros [= <-]. lia.
  - destruct n as [|n]; [lia|].
    destruct (index n sub r) as [k|] eqn:Hk; [|discriminate].
    intros [= <-]. apply IH in Hk. lia.
Qed.

Lemma find_ge (s sub : string) (start : Z) :
  0 <= start -> find s sub start = -1 \/ start <= find s sub start.
Proof.
  intros Hs. unfold find.
  destruct (index (Z.to_nat start) sub s) as [m|] eqn:Hm; [|now left].
  right. apply index_ge in Hm. lia.
Qed.

Lemma parse_params_loop_fuel (rest delimiter : string) (length : Z)
  (fuel1 fuel2 : nat) (index : Z) :
  0 <= index ->
  length - index < Z.of_nat fuel1 ->
  length - index < Z.of_nat fuel2 ->
  parse_params_loop fuel1 rest delimiter length index
  = parse_params_loop fuel2 rest delimiter length index.
Proof.
  revert fuel2 index.
  induction fuel1 as [|fuel1 IH]; intros fuel2 index Hi H1 H2.
  - destruct fuel2 as [|fuel2]; [reflexivity|]. simpl.
    destruct (Z.ltb_spec index length); [lia | reflexivity].
  - destruct fuel2 as [|fuel2]; simpl.
    + destruct (Z.ltb_spec index length); [lia | reflexivity].
    + destruct (Z.ltb_spec index length) as [Hlt|]; [|reflexivity].
      pose proof (find_ge rest "=" index Hi) as Hsep1.
      pose proof (find_ge rest delimiter index Hi) as Hsep2.
      set (sep1 := find rest "=" index) in *.
      set (sep2 := find rest delimiter index) in *.
      assert (Hsep2' : index <= (if sep2 <? 0 then length else sep2)).
      { destruct (Z.ltb_spec sep2 0); lia. }
      set (sep2' := if sep2 <? 0 then length else sep2) in *.
      destruct ((0 <=? sep1) && (sep1 <? sep2')) eqn:Hb.
      * apply andb_prop in Hb as [Hb1 Hb2].
        apply Z.leb_le in Hb1. apply Z.ltb_lt in Hb2.
        destruct (char_at rest (sep1 + 1)) as [c|]; [|reflexivity].
        destruct (Ascii.eqb c DQUOTE).
        -- pose proof (find_ge rest QUOTE (sep1 + 1 + 1)) as Hq.
           destruct (Z.leb_spec 0 (find rest QUOTE (sep1 + 1 + 1)));
             unfold yield; rewrite (IH fuel2) by lia; reflexivity.
        -- destruct (Z.leb_spec 0 sep2'); [|lia].
           unfold yield; rewrite (IH fuel2) by lia; reflexivity.
      * destruct ((sep1 <? 0) || ((0 <=? sep1) && (sep2' <? sep1)));
          [|reflexivity].
        unfold yield; rewrite (IH fuel2) by lia; reflexivity.
Qed.

Lemma parse_params_fuel (rest delimiter : string) (fuel : nat) :
  (String.length rest < fuel)%nat ->
  parse_params_loop fuel rest delimiter (len rest) 0
  = parse_params rest delimiter.
Proof.
  intros H. unfold parse_params.
  apply parse_params_loop_fuel; unfold len; lia.
Qed.

(** ** URIs *)

(** C7. The grammar reads [tel:+1-212-555-0101] with the number in the host
    group and no user; [URI.__init__] moves it to [user] and clears [host];
    and [URI.__repr__] of the result is the input again. *)
Theorem tel_uri_round_trip :
  re_match URI_syntax 7 "tel:+1-212-555-0101"
  = Some ([Some "tel"; None; None; Some "+1-212-555-0101"; None; None; None],
          19) /\
  URI_init "tel:+1-212-555-0101"
  = Ok (mkURI (Some "tel") (Some "+1-212-555-0101") None None None [] []) /\
  (u <- URI_init "tel:+1-212-555-0101" ;; Ok (URI_repr u))
  = Ok "tel:+1-212-555-0101".
Proof. repeat split; vm_compute; reflexivity. Qed.

Lemma compare_refl (a : string) : String.compare a a = Eq.
Proof.
  induction a as [|c r IH]; simpl; [reflexivity|].
  unfold Ascii.compare. now rewrite N.compare_refl.
Qed.

Lemma ltb_irrefl (a : string) : (a <? a)%string = false.
Proof. unfold String.ltb. now rewrite compare_refl. Qed.

Lemma ltb_false_eq (a b : string) :
  (a <? b)%string = false -> (b <? a)%string = false -> a = b.
Proof.
  unfold String.ltb. intros Hab Hba.
  apply String.compare_eq_iff.
  rewrite (String.compare_antisym b a) in Hba.
  destruct (String.compare a b); simpl in *; congruence.
Qed.

Lemma URI_cmp_zero (u1 u2 : URI) :
  URI_cmp u1 u2 = 0 <-> lower (URI_repr u1) = lower (URI_repr u2).
Proof.
  unfold URI_cmp. split.
  - intros H.
    destruct (lower (URI_repr u2) <? lower (URI_repr u1))%string eqn:Hba;
      [discriminate|].
    destruct (lower (URI_repr u1) <? lower (URI_repr u2))%string eqn:Hab;
      [discriminate|].
    now apply ltb_false_eq.
  - intros ->. now rewrite ltb_irrefl.
Qed.

(** What [__cmp__] and [__hash__] compute: [__cmp__] returns 0 exactly
    when the serialized forms agree once lower-cased, and then the hashes
    agree. *)
Lemma URI_cmp_hash_over_lowercase (hash : string -> Z) (u1 u2 : URI) :
  (URI_cmp u1 u2 = 0 <-> lower (URI_repr u1) = lower (URI_repr u2)) /\
  (lower (URI_repr u1) = lower (URI_repr u2) ->
   URI_cmp u1 u2 = 0 /\ URI_hash hash u1 = URI_hash hash u2).
Proof.
  split; [apply URI_cmp_zero|].
  intros H. split; [now apply URI_cmp_zero|].
  unfold URI_hash. now rewrite H.
Qed.

Lemma URI_new_ref (value : string) (store store' : URI_store) (r : URI_ref) :
  URI_new value store = Ok (r, store') ->
  r = List.length store /\ List.length store' = S (List.length store) /\
  exists u, URI_init value = Ok u /\ URI_deref store' r = Some u.
Proof.
  unfold URI_new. destruct (URI_init value) as [u|]; [|discriminate].
  cbn [bind]. intros [= <- <-]. split; [reflexivity|]. split.
  - rewrite length_app. cbn [List.length]. lia.
  - exists u. split; [reflexivity|]. unfold URI_deref.
    rewrite nth_error_app2 by lia. now rewrite Nat.sub_diag.
Qed.

(** C6 does not hold of the code. The URI objects made from
    [sip:Alice@Example.COM] and from [sip:alice@example.com] have serialized
    forms that differ in letter case only, [__cmp__] called on them returns 0
    and their hashes agree; but [==] on the two objects is false, whatever
    objects were made before: it is the identity of [object], not
    [__cmp__]. *)
Theorem URI_objects_differing_in_case_are_not_equal (hash : string -> Z)
  (store : URI_store) :
  exists (a b : URI_ref) (store1 store2 : URI_store) (ua ub : URI),
    URI_new "sip:Alice@Example.COM" store = Ok (a, store1) /\
    URI_new "sip:alice@example.com" store1 = Ok (b, store2) /\
    URI_deref store2 a = Some ua /\ URI_deref store2 b = Some ub /\
    URI_repr ua = "sip:Alice@Example.COM" /\
    URI_repr ub = "sip:alice@example.com" /\
    lower (URI_repr ua) = lower (URI_repr ub) /\
    URI_cmp ua ub = 0 /\
    URI_hash hash ua = URI_hash hash ub /\
    URI_eq a b = false.
Proof.
  destruct (URI_init "sip:Alice@Example.COM") as [ua|] eqn:Ha;
    [|vm_compute in Ha; discriminate].
  destruct (URI_init "sip:alice@example.com") as [ub|] eqn:Hb;
    [|vm_compute in Hb; discriminate].
  exists (List.length store), (S (List.length store)),
    (store ++ [ua])%list, ((store ++ [ua]) ++ [ub])%list, ua, ub.
  assert (Hl : List.length (store ++ [ua]) = S (List.length store)).
  { rewrite length_app. cbn [List.length]. lia. }
  vm_compute in Ha, Hb. injection Ha as <-. injection Hb as <-.
  split.
  { unfold URI_new.
    change (URI_init "sip:Alice@Example.COM") with
      (Ok (mkURI (Some "sip") (Some "Alice") None (Some "Example.COM") None [] [])).
    reflexivity. }
  split.
  { unfold URI_new.
    change (URI_init "sip:alice@example.com") with
      (Ok (mkURI (Some "sip") (Some "alice") None (Some "example.com") None [] [])).
    cbn [bind]. now rewrite Hl. }
  split.
  { unfold URI_deref. rewrite nth_error_app1 by lia.
    rewrite nth_error_app2 by lia. now rewrite Nat.sub_diag. }
  split.
  { unfold URI_deref. rewrite nth_error_app2 by lia.
    rewrite Hl. now rewrite Nat.sub_diag. }
  repeat split; try reflexivity.
  unfold URI_eq. apply Nat.eqb_neq. lia.
Qed.

(** ** Headers

    The keys that [parse_params] yields are lower-cased, so none of them is
    the attribute [_viaUri], and a header as the constructor builds it
    holds no cached URI. *)

Lemma dict_get_set_same {V : Type} (d : dict V) (k : string) (v : V) :
  dict_get (dict_set d k v) k = Some v.
Proof.
  induction d as [|[k0 v0] r IH]; simpl.
  - now rewrite String.eqb_refl.
  - destruct (String.eqb_spec k0 k); simpl.
    + now rewrite String.eqb_refl.
    + destruct (String.eqb_spec k0 k); [contradiction | exact IH].
Qed.

Lemma dict_get_set_other {V : Type} (d : dict V) (k k' : string) (v : V) :
  k <> k' -> dict_get (dict_set d k v) k' = dict_get d k'.
Proof.
  intros Hne.
  induction d as [|[k0 v0] r IH]; simpl.
  - destruct (String.eqb_spec k k'); [contradiction | reflexivity].
  - destruct (String.eqb_spec k0 k) as [->|Hk]; simpl.
    + destruct (String.eqb_spec k k'); [contradiction | reflexivity].
    + destruct (String.eqb_spec k0 k'); [reflexivity | exact IH].
Qed.

Lemma lower_char_not_upper (c : ascii) : is_upper (lower_char c) = false.
Proof. destruct c as [[] [] [] [] [] [] [] []]; reflexivity. Qed.

Lemma lower_no_upper (s : string) : no_upper (lower s) = true.
Proof.
  unfold lower. induction s as [|c r IH]; simpl; [reflexivity|].
  now rewrite lower_char_not_upper, IH.
Qed.

Lemma lstrip_no_upper (s : string) :
  no_upper s = true -> no_upper (lstrip s) = true.
Proof.
  induction s as [|c r IH]; simpl; [reflexivity|].
  intros H. destruct (is_space c); [|exact H].
  apply andb_prop in H as [_ H]. now apply IH.
Qed.

Lemma rstrip_no_upper (s : string) :
  no_upper s = true -> no_upper (rstrip s) = true.
Proof.
  induction s as [|c r IH]; simpl; [reflexivity|].
  intros H. apply andb_prop in H as [Hc Hr]. specialize (IH Hr).
  destruct (rstrip r) as [|d r'].
  - destruct (is_space c); simpl; [reflexivity | now rewrite Hc].
  - simpl in *. now rewrite Hc, IH.
Qed.

Lemma substring_no_upper (s : string) (n m : nat) :
  no_upper s = true -> no_upper (substring n m s) = true.
Proof.
  revert n m. induction s as [|c r IH]; intros n m H.
  - destruct n, m; reflexivity.
  - simpl in H. apply andb_prop in H as [Hc Hr].
    destruct n as [|n].
    + destruct m as [|m]; simpl; [reflexivity|].
      now rewrite Hc, IH.
    + simpl. now apply IH.
Qed.

Lemma substring_lower (s : string) (n m : nat) :
  lower (substring n m s) = substring n m (lower s).
Proof.
  unfold lower. revert n m.
  induction s as [|c r IH]; intros n m.
  - destruct n, m; reflexivity.
  - destruct n as [|n].
    + destruct m as [|m]; simpl; [reflexivity | now rewrite IH].
    + simpl. apply IH.
Qed.

Lemma key_no_upper (rest : string) (a b : Z) :
  no_upper (strip (lower (slice rest a b))) = true.
Proof.
  unfold strip, slice. rewrite substring_lower.
  apply rstrip_no_upper, lstrip_no_upper, substring_no_upper, lower_no_upper.
Qed.

Lemma parse_params_loop_keys (fuel : nat) (rest delimiter : string)
  (length index : Z) :
  Forall (fun kv => no_upper (fst kv) = true)
    (parse_params_loop fuel rest delimiter length index).
Proof.
  revert index.
  induction fuel as [|fuel IH]; intros index; simpl; [constructor|].
  destruct (index <? length); [|constructor].
  destruct ((0 <=? find rest "=" index) && _).
  - destruct (char_at rest (find rest "=" index + 1)) as [c|]; [|constructor].
    destruct (Ascii.eqb c DQUOTE);
      match goal with
      | |- context [if ?b then (_, _) else (_, _)] => destruct b
      end;
      unfold yield;
      match goal with
      | |- context [if truthy ?n then _ else _] => destruct (truthy n)
      end;
      try apply IH; constructor; try apply IH; apply key_no_upper.
  - destruct ((find rest "=" index <? 0) || _); [|constructor].
    unfold yield.
    match goal with
    | |- context [if truthy ?n then _ else _] => destruct (truthy n)
    end;
    try apply IH; constructor; try apply IH; apply key_no_upper.
Qed.

Lemma set_params_get (params : list (string * string)) (self : Header)
  (k : string) :
  Forall (fun kv => fst kv <> k) params ->
  dict_get (set_params self params) k = dict_get self k.
Proof.
  unfold set_params. revert self.
  induction params as [|[n v] r IH]; intros self H; simpl; [reflexivity|].
  inversion H as [|? ? Hn Hr]; subst.
  rewrite IH by exact Hr. now apply dict_get_set_other.
Qed.

Lemma parse_params_get (rest delimiter : string) (self : Header) :
  dict_get (set_params self (parse_params rest delimiter)) "_viaUri"
  = dict_get self "_viaUri".
Proof.
  apply set_params_get.
  eapply Forall_impl; [|apply parse_params_loop_keys].
  intros [n v] H Heq. simpl in *. subst n. discriminate H.
Qed.

Lemma Header_parse_not_cached (self self' : Header) (value : string)
  (name : option string) (v : hval) :
  Header_parse self value name = Ok (self', v) ->
  dict_get self "_viaUri" = None -> dict_get self' "_viaUri" = None.
Proof.
  unfold Header_parse. intros H Hself.
  destruct (name_in name _address).
  - destruct (Address_parse _ value) as [[addr count]|]; [|discriminate].
    cbn [bind] in H.
    destruct (name_in name _comma).
    + discriminate.
    + destruct (opt_is name "cseq"); [discriminate|].
      injection H as <- _.
      destruct (truthy _); [now rewrite parse_params_get | exact Hself].
  - destruct (negb (name_in name _comma) && negb (name_in name _unstructured)).
    + destruct (partition value ";") as [[val sep] rest].
      cbn [bind] in H.
      destruct (name_in name _comma).
      * cbn [as_str bind] in H.
        destruct (partition (strip val) " ") as [[am sp] rs].
        injection H as <- _.
        destruct (truthy rs); [rewrite parse_params_get|];
          (destruct (truthy rest); [rewrite dict_get_set_other, parse_params_get by discriminate | rewrite dict_get_set_other by discriminate]; exact Hself).
      * destruct (opt_is name "cseq").
        -- cbn [as_str bind] in H.
           destruct (partition val " ") as [[n sp] method].
           destruct (int (strip n)); [|discriminate].
           cbn [bind] in H. injection H as <- _.
           rewrite !dict_get_set_other by discriminate.
           destruct (truthy rest); [now rewrite parse_params_get | exact Hself].
        -- injection H as <- _.
           destruct (truthy rest); [now rewrite parse_params_get | exact Hself].
    + cbn [bind] in H.
      destruct (name_in name _comma).
      * cbn [as_str bind] in H.
        destruct (partition (strip value) " ") as [[am sp] rs].
        injection H as <- _.
        destruct (truthy rs); [rewrite parse_params_get|];
          now rewrite dict_get_set_other by discriminate.
      * destruct (opt_is name "cseq").
        -- cbn [as_str bind] in H.
           destruct (partition value " ") as [[n sp] method].
           destruct (int (strip n)); [|discriminate].
           cbn [bind] in H. injection H as <- _.
           now rewrite !dict_get_set_other by discriminate.
        -- now injection H as <- _.
Qed.

(** A header as [Header.__init__] builds it holds no cached [_viaUri]. *)
Lemma Header_init_not_cached (value : string) (name : option string)
  (h : Header) :
  Header_init value name = Ok h -> dict_mem h "_viaUri" = false.
Proof.
  unfold Header_init. intros H.
  destruct (match name with Some n => _ | None => _ end) as [cname|];
    [|discriminate].
  cbn [bind] in H.
  destruct (Header_parse _ _ _) as [[self v]|] eqn:Hparse; [|discriminate].
  cbn [bind] in H. injection H as <-.
  apply Header_parse_not_cached in Hparse; [|reflexivity].
  unfold dict_mem. rewrite dict_get_set_other by discriminate.
  now rewrite Hparse.
Qed.

(** C8, as stated, fails on a header that holds a cached result: the
    accessor tests [hasattr(self, '_viaUri')] before it looks at the name, so
    on the renamed header, whose name is [Route], it returns the cached URI
    and raises nothing. *)
Lemma via_uri_cached_ignores_name :
  exists (h : Header) (u : URI),
    renamed_via_example = Ok h /\
    getattr h "name" = Ok (HStr "Route") /\
    via_uri h = Ok (h, HURI u) /\
    (forall e : exn, via_uri h <> Raise e).
Proof.
  do 2 eexists. split; [vm_compute; reflexivity|].
  split; [vm_compute; reflexivity|].
  split; [vm_compute; reflexivity|].
  intros e. vm_compute. discriminate.
Qed.

(** C8, amended. The header named [Via] with the value
    [SIP/2.0/UDP 192.0.2.1] and the parameters [rport=9999] and
    [received=192.0.2.5] has a [sip:] URI with host [192.0.2.5] and port
    [9999] as its derived URI; and on every header that holds no cached
    result and whose name is not [Via] the accessor raises: the
    [ValueError] of the source when the header has a name attribute. *)
Theorem via_uri_example_and_guard :
  (exists (h h' : Header) (u : URI),
     via_example = Ok h /\
     getattr h "name" = Ok (HStr "Via") /\
     getattr h "value" = Ok (HStr "SIP/2.0/UDP 192.0.2.1") /\
     Header_getitem h "rport" = HStr "9999" /\
     Header_getitem h "received" = HStr "192.0.2.5" /\
     via_uri h = Ok (h', HURI u) /\
     scheme u = Some "sip" /\ host u = Some "192.0.2.5" /\ port u = Some 9999) /\
  (forall h : Header,
     dict_mem h "_viaUri" = false ->
     dict_get h "name" <> Some (HStr "Via") ->
     via_uri h = match dict_get h "name" with
                 | Some _ => Raise (ValueError "viaUri available only on Via header")
                 | None => Raise AttributeError
                 end).
Proof.
  split.
  - do 3 eexists. split; [vm_compute; reflexivity|].
    repeat split; vm_compute; reflexivity.
  - intros h Hcache Hname. unfold via_uri, getattr.
    rewrite Hcache. cbn [negb].
    destruct (dict_get h "name") as [v|]; [|reflexivity].
    cbn [bind].
    destruct v as [|s|z|a|u]; try reflexivity.
    unfold hval_eq_str.
    destruct (String.eqb_spec s "Via") as [->|]; [congruence | reflexivity].
Qed.

Lemma via_uri_example_and_guard_witness :
  exists h : Header,
    Header_init "application/sdp" (Some "Content-Type") = Ok h /\
    dict_mem h "_viaUri" = false /\
    dict_get h "name" <> Some (HStr "Via") /\
    via_uri h = Raise (ValueError "viaUri available only on Via header").
Proof.
  eexists. split; [vm_compute; reflexivity|].
  split; [reflexivity|].
  split; [discriminate|].
  refine (proj2 via_uri_example_and_guard _ _ _);
    [reflexivity | discriminate].
Defined.

(** Every header that the constructor builds under another name is such a
    header. *)
Lemma via_uri_fresh_header (value : string) (name : option string) (h : Header) :
  Header_init value name = Ok h ->
  dict_get h "name" <> Some (HStr "Via") ->
  exists e : exn, via_uri h = Raise e.
Proof.
  intros Hinit Hname.
  assert (Hc := Header_init_not_cached _ _ _ Hinit).
  unfold via_uri, getattr. rewrite Hc. cbn [negb].
  destruct (dict_get h "name") as [v|]; cbn [bind]; [|eauto].
  destruct v as [|s|z|a|u]; cbn [hval_eq_str negb]; eauto.
  destruct (String.eqb_spec s "Via") as [->|]; [congruence | cbn; eauto].
Qed.

(** ** Messages

    The decimal text of an integer has no white space and no [;], so
    [Header.__init__] keeps it whole as the value of [Content-Length]. *)

Lemma plain_uint (d : Decimal.uint) : plain (NilEmpty.string_of_uint d) = true.
Proof.
  induction d as [|d IH|d IH|d IH|d IH|d IH|d IH|d IH|d IH|d IH|d IH];
    [reflexivity|..];
    cbn [NilEmpty.string_of_uint plain]; rewrite IH; reflexivity.
Qed.

Lemma plain_int (z : Z) : plain (str_of_int z) = true.
Proof.
  unfold str_of_int, NilEmpty.string_of_int.
  destruct (Z.to_int z) as [d|d]; [apply plain_uint|].
  cbn [plain]. rewrite plain_uint. reflexivity.
Qed.

Lemma lstrip_plain (s : string) : plain s = true -> lstrip s = s.
Proof.
  destruct s as [|c r]; simpl; [reflexivity|].
  destruct (is_space c); [discriminate | reflexivity].
Qed.

Lemma rstrip_plain (s : string) : plain s = true -> rstrip s = s.
Proof.
  induction s as [|c r IH]; simpl; [reflexivity|].
  destruct (is_space c) eqn:Hc; [discriminate|]. simpl.
  destruct (Ascii.eqb c ";"); [discriminate|]. simpl.
  intros H. rewrite (IH H). now destruct r.
Qed.

Lemma strip_plain (s : string) : plain s = true -> strip s = s.
Proof.
  intros H. unfold strip. rewrite (lstrip_plain s H). now apply rstrip_plain.
Qed.

Lemma partition_plain (s : string) :
  plain s = true -> partition s ";" = (s, EmptyString, EmptyString).
Proof.
  induction s as [|c r IH]; simpl; [reflexivity|].
  destruct (is_space c); [discriminate|]. simpl.
  destruct (Ascii.eqb c ";"); [discriminate|]. simpl.
  intros H. now rewrite (IH H).
Qed.

(** The decimal text of an integer reads back through [int]. *)

Lemma int_space_is_space (c : ascii) :
  is_int_space c = true -> is_space c = true.
Proof. unfold is_int_space. now intros [H _]%andb_prop. Qed.

Lemma lstrip_int_plain (s : string) : plain s = true -> lstrip_int s = s.
Proof.
  destruct s as [|c r]; cbn [plain lstrip_int]; [reflexivity|].
  destruct (is_int_space c) eqn:Hc; [|reflexivity].
  now rewrite (int_space_is_space c Hc).
Qed.

Lemma rstrip_int_plain (s : string) : plain s = true -> rstrip_int s = s.
Proof.
  induction s as [|c r IH]; cbn [plain rstrip_int]; [reflexivity|].
  intros H. apply andb_prop in H as [H Hr]. apply andb_prop in H as [Hs _].
  rewrite (IH Hr).
  destruct (is_int_space c) eqn:Hc;
    [now rewrite (int_space_is_space c Hc) in Hs|].
  now destruct r.
Qed.

Lemma int_strip_plain (s : string) :
  plain s = true -> rstrip_int (lstrip_int s) = s.
Proof.
  intros H. rewrite (lstrip_int_plain s H). now apply rstrip_int_plain.
Qed.

Lemma int_digits_acc (d : Decimal.uint) (acc : positive) (b : bool) :
  d <> Decimal.Nil \/ b = true ->
  int_digits (NilEmpty.string_of_uint d) (Z.pos acc) b
  = Some (Z.pos (Pos.of_uint_acc d acc)).
Proof.
  revert acc b.
  induction d as [|d IH|d IH|d IH|d IH|d IH|d IH|d IH|d IH|d IH|d IH];
    intros acc b Hb;
    [destruct Hb as [Hb | ->]; [congruence | reflexivity] |..];
    cbn [NilEmpty.string_of_uint int_digits Pos.of_uint_acc];
    match goal with
    | |- (if is_digit ?c then _ else _) = _ =>
        change (is_digit c) with true; cbv iota
    end;
    match goal with
    | |- int_digits _ (10 * Z.pos acc + digit_val ?c) true
         = Some (Z.pos (Pos.of_uint_acc _ ?p)) =>
        let k := eval vm_compute in (digit_val c) in
        change (digit_val c) with k;
        replace (10 * Z.pos acc + k) with (Z.pos p) by lia
    end;
    apply IH; now right.
Qed.

Lemma int_digits_uint (d : Decimal.uint) (b : bool) :
  d <> Decimal.Nil \/ b = true ->
  int_digits (NilEmpty.string_of_uint d) 0 b = Some (Z.of_N (Pos.of_uint d)).
Proof.
  revert b.
  induction d as [|d IH|d IH|d IH|d IH|d IH|d IH|d IH|d IH|d IH|d IH];
    intros b Hb;
    [destruct Hb as [Hb | ->]; [congruence | reflexivity] |..];
    cbn [NilEmpty.string_of_uint int_digits Pos.of_uint];
    match goal with
    | |- (if is_digit ?c then _ else _) = _ =>
        change (is_digit c) with true; cbv iota
    end;
    [ change (10 * 0 + digit_val "0") with 0; apply IH; now right |..];
    match goal with
    | |- int_digits _ ?z true = Some (Z.of_N (N.pos (Pos.of_uint_acc _ ?p))) =>
        change z with (Z.pos p)
    end;
    apply int_digits_acc; now right.
Qed.

Lemma int_literal_uint (d : Decimal.uint) :
  d <> Decimal.Nil ->
  int_literal (NilEmpty.string_of_uint d) = Some (Z.of_N (Pos.of_uint d)).
Proof.
  intros Hd. unfold int_literal.
  rewrite (int_strip_plain _ (plain_uint d)).
  rewrite <- (int_digits_uint d false) by now left.
  destruct d; [congruence|..]; reflexivity.
Qed.

Lemma int_str_of_int (z : Z) : int (str_of_int z) = Ok z.
Proof.
  unfold int, str_of_int.
  destruct z as [|p|p]; cbn [Z.to_int NilEmpty.string_of_int].
  - reflexivity.
  - rewrite int_literal_uint by apply Unsigned.to_uint_nonnil.
    now rewrite DecimalPos.Unsigned.of_to.
  - unfold int_literal.
    pose proof (plain_int (Z.neg p)) as Hp.
    unfold str_of_int in Hp. cbn [Z.to_int NilEmpty.string_of_int] in Hp.
    rewrite (int_strip_plain _ Hp).
    change (Ascii.eqb "-" (chr 43)) with false.
    change (Ascii.eqb "-" (chr 45)) with true. cbv iota.
    rewrite int_digits_uint by (left; apply Unsigned.to_uint_nonnil).
    now rewrite DecimalPos.Unsigned.of_to.
Qed.

Lemma _canon_Content_Length :
  _canon (strip "Content-Length") = Ok "Content-Length".
Proof. vm_compute. reflexivity. Qed.

Lemma Header_init_Content_Length (z : Z) :
  Header_init (str_of_int z) (Some "Content-Length")
  = Ok [("name", HStr "Content-Length"); ("value", HStr (str_of_int z))].
Proof.
  unfold Header_init. cbn [truthy].
  rewrite _canon_Content_Length. cbn [bind or_None truthy hval_of].
  change (or_None (lower "Content-Length")) with (Some "content-length").
  unfold Header_parse.
  change (name_in (Some "content-length") _address) with false.
  change (name_in (Some "content-length") _comma) with false.
  change (name_in (Some "content-length") _unstructured) with false.
  change (opt_is (Some "content-length") "cseq") with false.
  cbn [negb andb].
  rewrite (strip_plain _ (plain_int z)), (partition_plain _ (plain_int z)).
  reflexivity.
Qed.

Lemma set_body_eq (self : Message) (value : option string) :
  set_body self value
  = Ok (dict_set (dict_set self "_body" (mval_of value)) "content-length"
          (MHdr [("name", HStr "Content-Length");
                 ("value", HStr (str_of_int (body_length value)))])).
Proof.
  unfold set_body. now rewrite Header_init_Content_Length.
Qed.

Lemma check_mandatory_ok (self m : Message) (names : list string) :
  check_mandatory self names = Ok m -> m = self.
Proof.
  induction names as [|h r IH]; simpl.
  - now intros [= <-].
  - destruct (negb (Message_contains self h)); [discriminate | exact IH].
Qed.

(** What the Content-Length check leaves behind: with a body, the message as
    the body setter left it; without one, the message untouched. *)
Lemma check_content_length_ok (self m : Message) (body_text : string) :
  check_content_length self body_text = Ok m ->
  m = if truthy body_text
      then dict_set (dict_set self "_body" (MStr body_text)) "content-length"
             (MHdr [("name", HStr "Content-Length");
                    ("value", HStr (str_of_int (len body_text)))])
      else self.
Proof.
  unfold check_content_length.
  destruct (body_len self) as [n|]; [|discriminate]. cbn [bind].
  destruct (truthy body_text) eqn:Hb.
  - rewrite set_body_eq. cbn [bind mval_of body_length]. rewrite Hb.
    destruct (_ && _); [discriminate|]. now intros [= <-].
  - cbn [bind]. destruct (_ && _); [discriminate|]. now intros [= <-].
Qed.

(** C10, as stated, fails: the header follows the body through the setter
    only. After [m.body = 'hello'] the header reads 5; an assignment to
    [m['Content-Length']], an [insert] of another [Content-Length] header or
    a [delete] of the header then changes or removes it and leaves the body
    as it was. *)
Lemma content_length_changed_without_the_body :
  exists (m m1 m2 m3 : Message) (h : Header),
    set_body Message_new (Some "hello") = Ok m /\
    body m = MStr "hello" /\ body_len m = Ok 5 /\
    Header_init "99" (Some "Content-Length") = Ok h /\
    m1 = Message_setitem m "Content-Length" (MHdr h) /\
    body m1 = MStr "hello" /\ body_len m1 = Ok 99 /\
    Message_insert m (Some h) true = Ok m2 /\
    body m2 = MStr "hello" /\
    Message_getitem m2 "Content-Length"
    = MList [Message_getitem m "Content-Length"; MHdr h] /\
    body_len m2 = Raise AttributeError /\
    Message_delete m "Content-Length" None = Ok m3 /\
    body m3 = MStr "hello" /\
    Message_contains m3 "Content-Length" = false.
Proof.
  do 5 eexists.
  split; [vm_compute; reflexivity|]. split; [vm_compute; reflexivity|].
  split; [vm_compute; reflexivity|]. split; [vm_compute; reflexivity|].
  split; [reflexivity|]. split; [vm_compute; reflexivity|].
  split; [vm_compute; reflexivity|]. split; [vm_compute; reflexivity|].
  split; [vm_compute; reflexivity|]. split; [vm_compute; reflexivity|].
  split; [vm_compute; reflexivity|]. split; [vm_compute; reflexivity|].
  split; vm_compute; reflexivity.
Qed.

(** C10, amended. The body setter stores the new body and, with it, a
    [Content-Length] header whose value is the decimal text of the number of
    characters of the new body, of [0] when the body is empty or [None]: a
    text that [int] reads back as that number. The parser assigns a body
    that is not empty through the same setter. So the header matches the
    body right after every assignment to the body. *)
Theorem body_setter_sets_content_length :
  (forall (self : Message) (value : option string),
     exists (self' : Message) (text : string),
       set_body self value = Ok self' /\
       body self' = mval_of value /\
       Message_getitem self' "Content-Length"
       = MHdr [("name", HStr "Content-Length"); ("value", HStr text)] /\
       text = str_of_int (match value with Some s => len s | None => 0 end) /\
       int text = Ok (match value with Some s => len s | None => 0 end)) /\
  (forall (self m : Message) (value : string),
     Message_parse self value = Ok m ->
     truthy (snd (split_message value)) = true ->
     exists text : string,
       body m = MStr (snd (split_message value)) /\
       Message_getitem m "Content-Length"
       = MHdr [("name", HStr "Content-Length"); ("value", HStr text)] /\
       text = str_of_int (len (snd (split_message value))) /\
       int text = Ok (len (snd (split_message value)))).
Proof.
  split.
  - intros self value. do 2 eexists. split; [apply set_body_eq|].
    unfold body, Message_getitem.
    change (lower "_body") with "_body".
    change (lower "Content-Length") with "content-length".
    rewrite dict_get_set_other by discriminate.
    rewrite !dict_get_set_same. split; [reflexivity|].
    split; [reflexivity|].
    assert (Hl : body_length value
                 = match value with Some s => len s | None => 0 end)
      by (destruct value as [[|c r]|]; reflexivity).
    rewrite Hl. split; [reflexivity | apply int_str_of_int].
  - intros self m value. unfold Message_parse.
    destruct (split_message value) as [first_headers body_text]. cbn [snd].
    destruct (parse_first_line self first_headers) as [[self' headers]|];
      [|discriminate].
    cbn [bind]. unfold validate.
    destruct (check_content_length _ body_text) as [m'|] eqn:Hcl;
      [|discriminate].
    cbn [bind]. intros Hm Hb.
    apply check_mandatory_ok in Hm. subst m'.
    apply check_content_length_ok in Hcl. rewrite Hb in Hcl. subst m.
    eexists. unfold body, Message_getitem.
    change (lower "_body") with "_body".
    change (lower "Content-Length") with "content-length".
    rewrite dict_get_set_other by discriminate.
    rewrite !dict_get_set_same.
    split; [reflexivity|]. split; [reflexivity|].
    split; [reflexivity | apply int_str_of_int].
Qed.

Lemma body_setter_sets_content_length_witness :
  exists m : Message,
    Message_parse Message_new invite_length_10 = Ok m /\
    truthy (snd (split_message invite_length_10)) = true /\
    body m = MStr "0123456789" /\
    Message_getitem m "Content-Length"
    = MHdr [("name", HStr "Content-Length"); ("value", HStr "10")] /\
    int "10" = Ok 10.
Proof.
  match goal with
  | |- exists m, ?i = Ok m /\ _ =>
      let v := eval vm_compute in i in
      match v with
      | Ok ?x => assert (H : i = Ok x) by (vm_compute; reflexivity)
      end
  end.
  assert (Hb : truthy (snd (split_message invite_length_10)) = true)
    by (vm_compute; reflexivity).
  eexists. split; [exact H|]. split; [exact Hb|].
  destruct (proj2 body_setter_sets_content_length _ _ _ H Hb)
    as (text & H1 & H2 & H3 & H4).
  assert (Ht : text = "10") by (rewrite H3; vm_compute; reflexivity).
  split; [vm_compute; reflexivity|].
  rewrite Ht in H2, H4. split; [exact H2|].
  rewrite H4. vm_compute. reflexivity.
Defined.

Lemma body_len_absent (self : Message) :
  Message_contains self "Content-Length" = false -> body_len self = Ok 0.
Proof. unfold body_len. now intros ->. Qed.

(** C2, as stated, fails: the length that the parser compares is [len] of the
    body, its number of characters, and not its length in bytes. A body of
    five characters that takes six bytes is accepted when the message
    declares 5, which is not its length in bytes, and refused when the
    message declares 6, which is. *)
Lemma body_accepted_with_another_byte_length :
  len body_five_characters = 5 /\
  utf8_length body_five_characters = 6 /\
  (exists (self' m : Message) (headers : string),
     parse_first_line Message_new
       (fst (split_message invite_five_characters_length_5))
     = Ok (self', headers) /\
     snd (split_message invite_five_characters_length_5)
     = body_five_characters /\
     body_len (parse_headers self' headers) = Ok 5 /\
     5 <> utf8_length body_five_characters /\
     Message_init (Some invite_five_characters_length_5) = Ok m /\
     body m = MStr body_five_characters) /\
  Message_init (Some invite_five_characters_length_6)
  = Raise (ValueError "Invalid content-length 6!=5").
Proof.
  split; [reflexivity|]. split; [reflexivity|]. split.
  - do 3 eexists. split; [vm_compute; reflexivity|].
    split; [vm_compute; reflexivity|].
    split; [vm_compute; reflexivity|].
    split; [discriminate|].
    split; vm_compute; reflexivity.
  - vm_compute. reflexivity.
Qed.

(** C2, amended. Once the start line is read and the headers are stored, a
    message with a body whose declared length [body_len] (the integer value
    of its [Content-Length] header, [0] without the header) is not the number
    of characters of the body fails to parse with the content-length
    error. *)
Theorem content_length_mismatch_fails (self self' : Message)
  (value headers : string) (n : Z) :
  parse_first_line self (fst (split_message value)) = Ok (self', headers) ->
  body_len (parse_headers self' headers) = Ok n ->
  truthy (snd (split_message value)) = true ->
  n <> len (snd (split_message value)) ->
  Message_parse self value
  = Raise (ValueError ("Invalid content-length " ++ str_of_int n ++ "!="
                         ++ str_of_int (len (snd (split_message value))))).
Proof.
  unfold Message_parse.
  destruct (split_message value) as [first_headers body_text]. cbn [fst snd].
  intros -> Hn Hb Hne. cbn [bind]. unfold validate, check_content_length.
  rewrite Hn, Hb. cbn [bind]. rewrite set_body_eq. cbn [bind].
  unfold body, Message_getitem.
  change (lower "_body") with "_body".
  rewrite dict_get_set_other by discriminate.
  rewrite dict_get_set_same. cbn [mval_of is_MNone negb andb].
  destruct (Z.eqb_spec n (len body_text)); [contradiction | reflexivity].
Qed.

Lemma content_length_mismatch_fails_witness :
  exists (self' : Message) (headers : string),
    parse_first_line Message_new (fst (split_message invite_length_11))
    = Ok (self', headers) /\
    body_len (parse_headers self' headers) = Ok 11 /\
    len (snd (split_message invite_length_11)) = 10 /\
    Message_init (Some invite_length_11)
    = Raise (ValueError "Invalid content-length 11!=10").
Proof.
  do 2 eexists. split; [vm_compute; reflexivity|].
  split; [vm_compute; reflexivity|].
  split; [vm_compute; reflexivity|].
  change (Message_init (Some invite_length_11))
    with (Message_parse Message_new invite_length_11).
  refine (content_length_mismatch_fails Message_new _ invite_length_11 _ 11 _ _ _ _);
    [vm_compute; reflexivity | vm_compute; reflexivity | vm_compute; reflexivity
    | vm_compute; discriminate].
Defined.

Lemma check_content_length_contains (self m : Message) (body_text h : string) :
  check_content_length self body_text = Ok m ->
  lower h <> "_body" -> lower h <> "content-length" ->
  Message_contains m h = Message_contains self h.
Proof.
  intros Hcl H1 H2. apply check_content_length_ok in Hcl. subst m.
  destruct (truthy body_text); [|reflexivity].
  unfold Message_contains, dict_mem.
  now rewrite !dict_get_set_other by congruence.
Qed.

Lemma check_mandatory_first_missing (self : Message) (h : string) :
  first_missing self = Some h ->
  check_mandatory self mandatory
  = Raise (ValueError ("Mandatory header " ++ h ++ " missing")).
Proof.
  unfold first_missing. generalize mandatory as names.
  induction names as [|x r IH]; simpl; [discriminate|].
  destruct (negb (Message_contains self x)); [now intros [= ->] | exact IH].
Qed.

(** C3, as stated, fails on a message that lacks [Call-ID] and also declares
    a wrong [Content-Length]: the length is checked first, and the parse
    fails with the content-length error, not with the missing-header one. *)
Lemma missing_call_id_but_length_error :
  exists (self' : Message) (headers : string),
    parse_first_line Message_new (fst (split_message invite_no_call_id_length_11))
    = Ok (self', headers) /\
    first_missing (parse_headers self' headers) = Some "Call-ID" /\
    Message_init (Some invite_no_call_id_length_11)
    = Raise (ValueError "Invalid content-length 11!=10") /\
    Message_init (Some invite_no_call_id_length_11)
    <> Raise (ValueError "Mandatory header Call-ID missing").
Proof.
  do 2 eexists. split; [vm_compute; reflexivity|].
  split; [vm_compute; reflexivity|].
  split; [vm_compute; reflexivity|].
  vm_compute. discriminate.
Qed.

(** C3, amended. Once the start line is read, the headers are stored and the
    Content-Length check has passed, a message that lacks one of [To],
    [From], [CSeq], [Call-ID] fails to parse with the missing-header error
    that names the first of them, in that order, that it lacks. *)
Theorem missing_mandatory_header_fails (self self' m : Message)
  (value headers h : string) :
  parse_first_line self (fst (split_message value)) = Ok (self', headers) ->
  check_content_length (parse_headers self' headers) (snd (split_message value))
  = Ok m ->
  first_missing (parse_headers self' headers) = Some h ->
  Message_parse self value
  = Raise (ValueError ("Mandatory header " ++ h ++ " missing")).
Proof.
  unfold Message_parse.
  destruct (split_message value) as [first_headers body_text]. cbn [fst snd].
  intros -> Hcl Hmiss. cbn [bind]. unfold validate. rewrite Hcl. cbn [bind].
  apply check_mandatory_first_missing.
  unfold first_missing, mandatory in *. cbn [List.find] in *.
  rewrite !(check_content_length_contains _ _ _ _ Hcl) by (vm_compute; discriminate).
  exact Hmiss.
Qed.

Lemma missing_mandatory_header_fails_witness :
  exists (self' m : Message) (headers : string),
    parse_first_line Message_new (fst (split_message invite_no_call_id))
    = Ok (self', headers) /\
    check_content_length (parse_headers self' headers)
      (snd (split_message invite_no_call_id)) = Ok m /\
    first_missing (parse_headers self' headers) = Some "Call-ID" /\
    Message_init (Some invite_no_call_id)
    = Raise (ValueError "Mandatory header Call-ID missing").
Proof.
  do 3 eexists. split; [vm_compute; reflexivity|].
  split; [vm_compute; reflexivity|].
  split; [vm_compute; reflexivity|].
  change (Message_init (Some invite_no_call_id))
    with (Message_parse Message_new invite_no_call_id).
  refine (missing_mandatory_header_fails Message_new _ _ invite_no_call_id _
            "Call-ID" _ _ _);
    [vm_compute; reflexivity | vm_compute; reflexivity | vm_compute; reflexivity].
Defined.

(** *** Singleton headers

    [Message._parse] tests the canonical name, which starts with a capital
    or with no letter at all, against [Message._single], whose names are in
    lower case: the test never finds the name. *)

Lemma upper_char_not_lower (c : ascii) : is_lower (upper_char c) = false.
Proof. destruct c as [[] [] [] [] [] [] [] []]; reflexivity. Qed.

Lemma capitalize_head (p rest : string) :
  head_not_lower (capitalize p ++ "-" ++ rest) = true.
Proof.
  destruct p as [|c r]; simpl; [reflexivity|].
  now rewrite upper_char_not_lower.
Qed.

Lemma split_cons (s : string) (sep : ascii) :
  exists p ps, split s sep = p :: ps.
Proof.
  destruct s as [|c r]; simpl; [eauto|].
  destruct (Ascii.eqb c sep); [eauto|].
  destruct (split r sep); simpl; eauto.
Qed.

Lemma capitalized_head (s : string) :
  head_not_lower (join "-" (map capitalize (split s "-"))) = true.
Proof.
  destruct (split_cons s "-") as (p & ps & ->).
  unfold join. destruct ps as [|q qs].
  - simpl. destruct p as [|c r]; simpl; [reflexivity|].
    now rewrite upper_char_not_lower.
  - cbn [map String.concat]. apply capitalize_head.
Qed.

Lemma _exception_head (s e : string) :
  dict_item _exception s = Ok e -> head_not_lower e = true.
Proof.
  unfold dict_item, _exception. cbn [dict_get].
  repeat match goal with
         | |- context [String.eqb ?a s] => destruct (String.eqb a s)
         end; intros [= <-]; reflexivity.
Qed.

Lemma _canon_rec_short_head (n : nat) (s : string) :
  (len s =? 1) && list_mem s _short = true ->
  exists i long c,
    list_index _short s = Ok i /\ list_at _short (i - 1) = Ok long /\
    _canon_rec (S n) long = Ok c /\ head_not_lower c = true.
Proof.
  intros H. apply andb_prop in H as [Hlen Hmem].
  unfold list_mem in Hmem. apply existsb_exists in Hmem as [x [Hin Heq]].
  apply String.eqb_eq in Heq. subst x.
  simpl in Hin.
  repeat (destruct Hin as [Hin|Hin];
          [subst s; try discriminate Hlen;
           do 3 eexists; repeat split; reflexivity|]).
  contradiction.
Qed.

Lemma _canon_tail_head (t r : string) :
  (exc <- (if dict_mem _exception t then dict_item _exception t
           else Ok EmptyString) ;;
   or_else exc (Ok (join "-" (map capitalize (split t "-"))))) = Ok r ->
  head_not_lower r = true.
Proof.
  destruct (dict_mem _exception t).
  - destruct (dict_item _exception t) as [e|] eqn:He; [|discriminate].
    cbn [bind]. unfold or_else. destruct (truthy e).
    + intros [= <-]. now apply _exception_head in He.
    + intros [= <-]. apply capitalized_head.
  - cbn [bind]. unfold or_else. cbn [truthy].
    intros [= <-]. apply capitalized_head.
Qed.

Lemma _canon_rec_head (n : nat) (s r : string) :
  _canon_rec (S (S n)) s = Ok r -> head_not_lower r = true.
Proof.
  cbn [_canon_rec]. set (t := lower s).
  destruct ((len t =? 1) && list_mem t _short) eqn:Hshort.
  - destruct (_canon_rec_short_head n t Hshort)
      as (i & long & c & Hi & Hl & Hc & Hh).
    rewrite Hi. cbn [bind]. rewrite Hl. cbn [bind].
    change (match n with
            | O => _canon_rec 1 long
            | S _ => _canon_rec (S n) long
            end) with (_canon_rec (S n) long) in *.
    cbn [_canon_rec] in Hc. rewrite Hc. cbn [bind].
    unfold or_else at 1. destruct (truthy c);
      [now intros [= <-] | apply _canon_tail_head].
  - cbn [bind]. unfold or_else at 1. cbn [truthy]. apply _canon_tail_head.
Qed.

Lemma head_not_lower_not_single (r : string) :
  head_not_lower r = true -> list_mem r _single = false.
Proof.
  intros H. destruct (list_mem r _single) eqn:Hmem; [|reflexivity].
  unfold list_mem in Hmem. apply existsb_exists in Hmem as [x [Hin Heq]].
  apply String.eqb_eq in Heq. subst x. simpl in Hin.
  repeat (destruct Hin as [Hin|Hin]; [subst r; discriminate H|]).
  contradiction.
Qed.

(** The test [name not in Message._single] holds of every canonical name. *)
Lemma _canon_not_single (s r : string) :
  _canon s = Ok r -> list_mem r _single = false.
Proof.
  unfold _canon, recursion_limit. change 1000%nat with (S (S 998)).
  intros H. now apply head_not_lower_not_single, (_canon_rec_head 998 s).
Qed.

(** C1 does not hold of the code. Of the two [Call-ID] lines of this message
    the parser keeps both: the second header is appended to the first under
    the canonical name, although [call-id] is in [Message._single]. *)
Theorem duplicate_singleton_header_is_kept :
  list_mem "call-id" _single = true /\
  exists m : Message,
    Message_init (Some invite_two_call_ids) = Ok m /\
    Message_getitem m "Call-ID"
    = MList [MHdr [("name", HStr "Call-ID"); ("value", HStr "a84b4c76e66710")];
             MHdr [("name", HStr "Call-ID"); ("value", HStr "second")]].
Proof.
  split; [reflexivity|].
  eexists. split; [vm_compute; reflexivity | vm_compute; reflexivity].
Qed.

Lemma dict_set_set {V : Type} (d : dict V) (k : string) (v v' : V) :
  dict_set (dict_set d k v) k v' = dict_set d k v'.
Proof.
  induction d as [|[k0 v0] r IH]; simpl.
  - now rewrite String.eqb_refl.
  - destruct (String.eqb_spec k0 k) as [->|Hk]; simpl.
    + now rewrite String.eqb_refl.
    + destruct (String.eqb_spec k0 k); [contradiction | now rewrite IH].
Qed.

Lemma create_headers_canonical (h name : string)
  (values : list (result Header)) :
  create_headers h = Ok (name, values) -> exists raw, _canon raw = Ok name.
Proof.
  unfold create_headers.
  destruct (map strip (splitn h ":" 1)) as [|n [|v [|x l]]];
    cbn [bind]; [discriminate | discriminate | | discriminate].
  destruct (_canon n) as [c|] eqn:Hc; cbn [bind]; [|discriminate].
  intros [= <- _]. eauto.
Qed.

(** Whatever its name, a header line whose name the message already holds is
    appended to what is stored under that name. *)
Lemma store_header_present (self : Message) (h name : string)
  (values : list (result Header)) (vs : list Header) :
  create_headers h = Ok (name, values) ->
  force values = Ok vs ->
  Message_contains self name = true ->
  store_header self h
  = Message_setitem self name
      (MList ((match Message_getitem self name with
               | MList l => l
               | v => [v]
               end) ++ map MHdr vs)).
Proof.
  intros Hc Hf Hin. unfold store_header.
  destruct (create_headers_canonical _ _ _ Hc) as [raw Hraw].
  rewrite Hc. cbn [bind]. rewrite Hf. cbn [bind]. rewrite Hin. cbn [negb].
  rewrite (_canon_not_single _ _ Hraw). cbn [negb].
  destruct (Message_getitem self name) as [|s|z|u|hd|l] eqn:Hget;
    cbn [is_list negb]; try (rewrite Hget; reflexivity);
    unfold Message_getitem, Message_setitem;
    rewrite dict_get_set_same; cbn [try_except];
    now rewrite dict_set_set.
Qed.

(** ** Session descriptions *)

Lemma list_at_last {A : Type} (l : list A) (x : A) :
  list_at (l ++ [x])%list (-1) = Ok x.
Proof.
  unfold list_at. cbn [Z.ltb Z.compare].
  rewrite length_app. cbn [List.length].
  destruct (Z.ltb_spec (-1 + Z.of_nat (List.length l + 1)) 0); [lia|].
  replace (Z.to_nat (-1 + Z.of_nat (List.length l + 1))) with (List.length l)
    by lia.
  rewrite nth_error_app2 by lia. now rewrite Nat.sub_diag.
Qed.

Lemma set_last_app {A : Type} (l : list A) (x y : A) :
  set_last (l ++ [x])%list y = (l ++ [y])%list.
Proof.
  induction l as [|a r IH]; [reflexivity|].
  cbn [app set_last]. rewrite IH. now destruct r.
Qed.

(** For a key of one letter, [k in SDP.multiple] is membership in
    [t, r, a, m, b]. *)
Lemma one_letter_multiple (c : ascii) :
  occurs_in (String c EmptyString) multiple = one_of "tramb" c.
Proof. destruct c as [[] [] [] [] [] [] [] []]; reflexivity. Qed.

Section Sessions.

Variable gethostname : string.
Variable gethostbyname : string -> result string.
Variable time_1 time_2 : Z.

(** A line that is not an [m] line and follows an [m] line changes the last
    [Media] of the list, and nothing else. *)
Lemma parse_line_attaches_to_last (self : SDP) (medias : list Media)
  (last : Media) (line k sep v : string) (x : fval) :
  SDP_getitem self "m" = SMedia (medias ++ [last])%list ->
  partition line "=" = (k, sep, v) ->
  k <> "m" ->
  line_value gethostname gethostbyname time_1 time_2 k v = Ok x ->
  parse_line gethostname gethostbyname time_1 time_2 self line
  = (obj <- attach last k x ;;
     Ok (dict_set self "m" (SMedia (medias ++ [obj])%list))).
Proof.
  intros Hm Hp Hk Hv. unfold parse_line.
  rewrite Hp. destruct (String.eqb_spec k "m"); [contradiction|].
  rewrite Hv. cbn [bind]. rewrite Hm.
  assert (Ht : sval_truthy (SMedia (medias ++ [last])%list) = true).
  { cbn [sval_truthy]. rewrite length_app. cbn [List.length].
    now rewrite Nat.add_1_r. }
  rewrite Ht, list_at_last. cbn [bind].
  destruct (attach last k x) as [obj|]; [|reflexivity].
  cbn [bind]. now rewrite set_last_app.
Qed.

End Sessions.

(** What [attach] stores: under a key of [t, r, a, m, b] the values
    accumulate in order; under any other key of one letter the new value
    replaces the old one. *)
Lemma attach_repeatable (obj : Media) (k v : string) :
  list_mem k ["t"; "r"; "a"; "m"; "b"] = true ->
  attach obj k (FStr v)
  = match dict_get obj k with
    | None => Ok (dict_set obj k (FList [v]))
    | Some (FList l) => Ok (dict_set obj k (FList (l ++ [v])))
    | Some _ => Raise TypeError
    end.
Proof.
  intros H. unfold attach, attached.
  assert (Hk : occurs_in k multiple = true).
  { unfold list_mem in H. apply existsb_exists in H as [x [Hin Heq]].
    apply String.eqb_eq in Heq. subst x. simpl in Hin.
    repeat (destruct Hin as [<-|Hin]; [reflexivity|]). contradiction. }
  rewrite Hk. destruct (dict_get obj k) as [[]|]; reflexivity.
Qed.

Lemma attach_other_letter (obj : Media) (c : ascii) (x : fval) :
  one_of "tramb" c = false ->
  attach obj (String c EmptyString) x
  = Ok (dict_set obj (String c EmptyString) x).
Proof.
  intros H. unfold attach, attached.
  now rewrite one_letter_multiple, H.
Qed.

Section SessionExamples.

Variable gethostname : string.
Variable gethostbyname : string -> result string.
Variable time_1 time_2 : Z.

(** Each [a] line of the session is stored with the media section it
    follows, and the session serializes with the lines of each section in
    the order [i, c, b, k, a]. *)
Lemma session_two_media_round_trip :
  exists (sdp : SDP) (audio video : Media),
    SDP_init gethostname gethostbyname time_1 time_2 session_two_media FNone = Ok sdp /\
    SDP_getitem sdp "m" = SMedia [audio; video] /\
    Media_getitem audio "a" = FList ["rtpmap:0 PCMU/8000"; "rtpmap:8 PCMA/8000"] /\
    Media_getitem video "a" = FList ["rtpmap:31 H261/90000"; "recvonly"] /\
    SDP_repr sdp = Ok session_two_media_serialized.
Proof.
  do 3 eexists. split; [vm_compute; reflexivity|].
  split; [vm_compute; reflexivity|].
  split; [vm_compute; reflexivity|].
  split; [vm_compute; reflexivity|].
  vm_compute. reflexivity.
Qed.

(** C9 does not hold of the code. The key [ra] is not one of [t, r, a, m, b],
    and neither is the empty key of a blank line; the values of two [ra]
    lines after an [m] line accumulate all the same, and so does the value
    of the blank line, because [k in SDP.multiple] tests whether [k] occurs in
    the string [tramb]. *)
Theorem key_outside_repeatable_set_accumulates :
  list_mem "ra" ["t"; "r"; "a"; "m"; "b"] = false /\
  list_mem "" ["t"; "r"; "a"; "m"; "b"] = false /\
  exists (sdp : SDP) (media : Media),
    SDP_init gethostname gethostbyname time_1 time_2 session_repeated_ra
      FNone = Ok sdp /\
    SDP_getitem sdp "m" = SMedia [media] /\
    Media_getitem media "ra" = FList ["1"; "2"] /\
    Media_getitem media "" = FList [""].
Proof.
  split; [reflexivity|]. split; [reflexivity|].
  do 2 eexists. split; [vm_compute; reflexivity|].
  split; [vm_compute; reflexivity|].
  split; vm_compute; reflexivity.
Qed.

End SessionExamples.

(** * Further properties of [sip.py] *)

(** ** ASCII text

    On ASCII text the case mappings, [strip] and the slices yield ASCII
    text. *)

Lemma ascii_lower_char (c : ascii) :
  (ord c <? 128)%nat = true -> (ord (lower_char c) <? 128)%nat = true.
Proof.
  destruct c as [[] [] [] [] [] [] [] []]; vm_compute; intros H;
    first [exact H | reflexivity].
Qed.

Lemma ascii_upper_char (c : ascii) :
  (ord c <? 128)%nat = true -> (ord (upper_char c) <? 128)%nat = true.
Proof.
  destruct c as [[] [] [] [] [] [] [] []]; vm_compute; intros H;
    first [exact H | reflexivity].
Qed.

Lemma ascii_text_lower (s : string) :
  ascii_text s = true -> ascii_text (lower s) = true.
Proof.
  unfold lower. induction s as [|c r IH]; cbn [smap ascii_text];
    [reflexivity|].
  intros [Hc Hr]%andb_prop. now rewrite (ascii_lower_char c Hc), IH.
Qed.

Lemma ascii_text_capitalize (s : string) :
  ascii_text s = true -> ascii_text (capitalize s) = true.
Proof.
  destruct s as [|c r]; cbn [capitalize ascii_text]; [reflexivity|].
  intros [Hc Hr]%andb_prop.
  now rewrite (ascii_upper_char c Hc), ascii_text_lower.
Qed.

Lemma ascii_text_app (a b : string) :
  ascii_text (a ++ b) = ascii_text a && ascii_text b.
Proof.
  induction a as [|c r IH]; cbn [append ascii_text]; [reflexivity|].
  now rewrite IH, andb_assoc.
Qed.

Lemma ascii_text_split (s : string) (sep : ascii) :
  ascii_text s = true ->
  Forall (fun p => ascii_text p = true) (split s sep).
Proof.
  induction s as [|c r IH]; cbn [split ascii_text].
  - intros _. now repeat constructor.
  - intros [Hc Hr]%andb_prop. specialize (IH Hr).
    destruct (Ascii.eqb c sep); [now constructor|].
    destruct (split r sep) as [|p ps]; cbn [cons_head].
    + repeat constructor. cbn [ascii_text]. now rewrite Hc.
    + inversion IH as [|? ? Hp Hps]; subst.
      constructor; [|exact Hps]. cbn [ascii_text]. now rewrite Hc, Hp.
Qed.

Lemma ascii_text_join (sep : string) (l : list string) :
  ascii_text sep = true ->
  Forall (fun p => ascii_text p = true) l ->
  ascii_text (join sep l) = true.
Proof.
  intros Hsep H. unfold join. induction H as [|p l Hp H IH]; [reflexivity|].
  destruct l as [|q r]; [exact Hp|].
  change (String.concat sep (p :: q :: r))
    with (p ++ sep ++ String.concat sep (q :: r)).
  now rewrite !ascii_text_app, Hp, Hsep, IH.
Qed.

Lemma ascii_text_substring (s : string) (n m : nat) :
  ascii_text s = true -> ascii_text (substring n m s) = true.
Proof.
  revert n m. induction s as [|c r IH]; intros n m H.
  - destruct n, m; reflexivity.
  - cbn [ascii_text] in H. apply andb_prop in H as [Hc Hr].
    destruct n as [|n].
    + destruct m as [|m]; cbn [substring ascii_text]; [reflexivity|].
      now rewrite Hc, IH.
    + cbn [substring]. now apply IH.
Qed.

Lemma ascii_text_lstrip (s : string) :
  ascii_text s = true -> ascii_text (lstrip s) = true.
Proof.
  induction s as [|c r IH]; cbn [lstrip]; [reflexivity|].
  intros H. destruct (is_space c); [|exact H].
  cbn [ascii_text] in H. apply andb_prop in H as [_ Hr]. now apply IH.
Qed.

Lemma ascii_text_rstrip (s : string) :
  ascii_text s = true -> ascii_text (rstrip s) = true.
Proof.
  induction s as [|c r IH]; cbn [rstrip ascii_text]; [reflexivity|].
  intros [Hc Hr]%andb_prop. specialize (IH Hr).
  destruct (rstrip r) as [|d r'].
  - destruct (is_space c); cbn [ascii_text]; [reflexivity | now rewrite Hc].
  - cbn [ascii_text] in *. now rewrite Hc, IH.
Qed.

Lemma ascii_text_strip (s : string) :
  ascii_text s = true -> ascii_text (strip s) = true.
Proof. intros H. now apply ascii_text_rstrip, ascii_text_lstrip. Qed.

(** ** Canonical names are fixed points *)

Lemma lower_char_upper_char (c : ascii) :
  lower_char (upper_char c) = lower_char c.
Proof. destruct c as [[] [] [] [] [] [] [] []]; reflexivity. Qed.

Lemma lower_char_idem (c : ascii) : lower_char (lower_char c) = lower_char c.
Proof. destruct c as [[] [] [] [] [] [] [] []]; reflexivity. Qed.

Lemma lower_idem (s : string) : lower (lower s) = lower s.
Proof.
  unfold lower. induction s as [|c r IH]; simpl; [reflexivity|].
  now rewrite lower_char_idem, IH.
Qed.

Lemma lower_app (a b : string) : lower (a ++ b) = lower a ++ lower b.
Proof.
  unfold lower. induction a as [|c r IH]; simpl; [reflexivity|].
  now rewrite IH.
Qed.

Lemma lower_capitalize (p : string) : lower (capitalize p) = lower p.
Proof.
  destruct p as [|c r]; [reflexivity|].
  unfold capitalize, lower. simpl. fold (lower r).
  rewrite lower_char_upper_char. f_equal. apply lower_idem.
Qed.

Lemma lower_join_capitalize (l : list string) :
  lower (join "-" (map capitalize l)) = lower (join "-" l).
Proof.
  unfold join. induction l as [|p [|q r] IH].
  - reflexivity.
  - simpl. apply lower_capitalize.
  - change (lower (capitalize p ++ "-" ++ String.concat "-" (map capitalize (q :: r)))
            = lower (p ++ "-" ++ String.concat "-" (q :: r))).
    rewrite !lower_app, lower_capitalize. now rewrite IH.
Qed.

Lemma concat_cons_head (sep : string) (c : ascii) (p : string)
  (ps : list string) :
  String.concat sep (cons_head c (p :: ps))
  = String c (String.concat sep (p :: ps)).
Proof. destruct ps; reflexivity. Qed.

Lemma join_split (s : string) (sep : ascii) :
  join (String sep EmptyString) (split s sep) = s.
Proof.
  unfold join. induction s as [|c r IH]; [reflexivity|].
  cbn [split]. destruct (split_cons r sep) as (p & ps & Hp).
  rewrite Hp in *. destruct (Ascii.eqb c sep) eqn:Hc.
  - apply Ascii.eqb_eq in Hc. subst c.
    change (String.concat (String sep "") ("" :: p :: ps))
      with (String sep (String.concat (String sep "") (p :: ps))).
    now rewrite IH.
  - rewrite concat_cons_head. now rewrite IH.
Qed.

(** The name that [_canon] returns lower-cases to the lower-cased input,
    except for a short form, which becomes the long name. *)
Lemma _canon_rec_short_fixed (n : nat) (s : string) :
  (len s =? 1) && list_mem s _short = true ->
  exists i long c,
    list_index _short s = Ok i /\ list_at _short (i - 1) = Ok long /\
    _canon_rec (S n) long = Ok c /\ truthy c = true /\
    forall m, _canon_rec (S (S m)) c = Ok c.
Proof.
  intros H. apply andb_prop in H as [Hlen Hmem].
  unfold list_mem in Hmem. apply existsb_exists in Hmem as [x [Hin Heq]].
  apply String.eqb_eq in Heq. subst x.
  simpl in Hin.
  repeat (destruct Hin as [Hin|Hin];
          [subst s; vm_compute in Hlen;
           first [ discriminate Hlen
                 | do 3 eexists;
                   split; [vm_compute; reflexivity|];
                   split; [vm_compute; reflexivity|];
                   split; [cbn [_canon_rec]; vm_compute; reflexivity|];
                   split; [reflexivity|];
                   intros m; vm_compute; reflexivity ]|]).
  contradiction.
Qed.

Lemma _exception_fixed (s e : string) :
  dict_item _exception s = Ok e ->
  truthy e = true /\ forall m, _canon_rec (S (S m)) e = Ok e.
Proof.
  unfold dict_item, _exception. cbn [dict_get].
  repeat match goal with
         | |- context [String.eqb ?a s] => destruct (String.eqb a s)
         end; intros [= <-]; split; try reflexivity; intros m; reflexivity.
Qed.

Lemma _canon_rec_lower (n : nat) (s : string) :
  _canon_rec (S n) (lower s) = _canon_rec (S n) s.
Proof. cbn [_canon_rec]. now rewrite lower_idem. Qed.

Lemma _canon_rec_fixed (n : nat) (s r : string) :
  _canon_rec (S (S n)) s = Ok r -> _canon_rec (S (S n)) r = Ok r.
Proof.
  intros H. pose proof H as H0. revert H.
  cbn [_canon_rec]. set (t := lower s).
  assert (Htail :
    (exc <- (if dict_mem _exception t then dict_item _exception t
             else Ok EmptyString) ;;
     or_else exc (Ok (join "-" (map capitalize (split t "-"))))) = Ok r ->
    (len t =? 1) && list_mem t _short = false ->
    _canon_rec (S (S n)) r = Ok r).
  { intros Hr Hshort.
    destruct (dict_mem _exception t) eqn:Hexc.
    - destruct (dict_item _exception t) as [e|] eqn:He; [|discriminate].
      cbn [bind] in Hr. destruct (_exception_fixed _ _ He) as [Htr Hfix].
      unfold or_else in Hr. rewrite Htr in Hr. injection Hr as <-. apply Hfix.
    - cbn [bind] in Hr. unfold or_else in Hr. cbn [truthy] in Hr.
      injection Hr as Hr.
      assert (Hl : lower r = t).
      { rewrite <- Hr, lower_join_capitalize.
        change "-" with (String "-"%char EmptyString) at 1.
        rewrite join_split. apply lower_idem. }
      cbn [_canon_rec]. rewrite Hl, Hshort. cbn [bind].
      unfold or_else at 1. cbn [truthy]. rewrite Hexc. cbn [bind].
      unfold or_else. cbn [truthy]. now rewrite Hr. }
  destruct ((len t =? 1) && list_mem t _short) eqn:Hshort.
  - destruct (_canon_rec_short_fixed n t Hshort)
      as (i & long & c & Hi & Hl & Hc & Htr & Hfix).
    rewrite Hi. cbn [bind]. rewrite Hl. cbn [bind].
    change (match n with
            | O => _canon_rec 1 long
            | S _ => _canon_rec (S n) long
            end) with (_canon_rec (S n) long) in *.
    cbn [_canon_rec] in Hc. rewrite Hc. cbn [bind].
    unfold or_else at 1. rewrite Htr. intros [= <-]. apply Hfix.
  - cbn [bind]. unfold or_else at 1. cbn [truthy].
    intros Hr. now apply Htail.
Qed.

Lemma _canon_rec_short_ascii (n : nat) (s : string) :
  (len s =? 1) && list_mem s _short = true ->
  exists i long c,
    list_index _short s = Ok i /\ list_at _short (i - 1) = Ok long /\
    _canon_rec (S n) long = Ok c /\ ascii_text c = true.
Proof.
  intros H. apply andb_prop in H as [Hlen Hmem].
  unfold list_mem in Hmem. apply existsb_exists in Hmem as [x [Hin Heq]].
  apply String.eqb_eq in Heq. subst x.
  simpl in Hin.
  repeat (destruct Hin as [Hin|Hin];
          [subst s; try discriminate Hlen;
           do 3 eexists; repeat split; reflexivity|]).
  contradiction.
Qed.

Lemma _exception_ascii (s e : string) :
  dict_item _exception s = Ok e -> ascii_text e = true.
Proof.
  unfold dict_item, _exception. cbn [dict_get].
  repeat match goal with
         | |- context [String.eqb ?a s] => destruct (String.eqb a s)
         end; intros [= <-]; reflexivity.
Qed.

Lemma _canon_tail_ascii (t r : string) :
  ascii_text t = true ->
  (exc <- (if dict_mem _exception t then dict_item _exception t
           else Ok EmptyString) ;;
   or_else exc (Ok (join "-" (map capitalize (split t "-"))))) = Ok r ->
  ascii_text r = true.
Proof.
  intros Ht.
  assert (Hcap : ascii_text (join "-" (map capitalize (split t "-"))) = true).
  { apply ascii_text_join; [reflexivity|].
    apply Forall_map. eapply Forall_impl; [|apply ascii_text_split, Ht].
    intros p. apply ascii_text_capitalize. }
  destruct (dict_mem _exception t).
  - destruct (dict_item _exception t) as [e|] eqn:He; [|discriminate].
    cbn [bind]. unfold or_else. destruct (truthy e).
    + intros [= <-]. now apply _exception_ascii in He.
    + now intros [= <-].
  - cbn [bind]. unfold or_else. cbn [truthy]. now intros [= <-].
Qed.

Lemma _canon_rec_ascii (n : nat) (s r : string) :
  ascii_text s = true ->
  _canon_rec (S (S n)) s = Ok r -> ascii_text r = true.
Proof.
  intros Hs. apply ascii_text_lower in Hs.
  cbn [_canon_rec]. set (t := lower s) in *.
  destruct ((len t =? 1) && list_mem t _short) eqn:Hshort.
  - destruct (_canon_rec_short_ascii n t Hshort)
      as (i & long & c & Hi & Hl & Hc & Hh).
    rewrite Hi. cbn [bind]. rewrite Hl. cbn [bind].
    change (match n with
            | O => _canon_rec 1 long
            | S _ => _canon_rec (S n) long
            end) with (_canon_rec (S n) long) in *.
    cbn [_canon_rec] in Hc. rewrite Hc. cbn [bind].
    unfold or_else at 1. destruct (truthy c);
      [now intros [= <-] | now apply _canon_tail_ascii].
  - cbn [bind]. unfold or_else at 1. cbn [truthy].
    now apply _canon_tail_ascii.
Qed.

(** X1. On ASCII text, the alphabet of header names, [_canon] looks at its
    argument through [lower] only, the name it returns is ASCII text, and
    that name is a fixed point: canonicalizing a canonical name changes
    nothing. *)
Theorem _canon_fixed_point (s r : string) :
  ascii_text s = true ->
  _canon s = Ok r ->
  ascii_text r = true /\ _canon (lower s) = Ok r /\ _canon r = Ok r.
Proof.
  intros Hs. unfold _canon, recursion_limit. change 1000%nat with (S (S 998)).
  intros H. split; [|split].
  - exact (_canon_rec_ascii 998 s r Hs H).
  - now rewrite _canon_rec_lower.
  - now apply (_canon_rec_fixed 998 s).
Qed.

Lemma _canon_fixed_point_witness :
  ascii_text "cONTENT-type" = true /\
  _canon "cONTENT-type" = Ok "Content-Type" /\
  ascii_text "Content-Type" = true /\
  _canon (lower "cONTENT-type") = Ok "Content-Type" /\
  _canon "Content-Type" = Ok "Content-Type".
Proof.
  assert (Hs : ascii_text "cONTENT-type" = true) by reflexivity.
  assert (H : _canon "cONTENT-type" = Ok "Content-Type")
    by (vm_compute; reflexivity).
  split; [exact Hs|]. split; [exact H|].
  exact (_canon_fixed_point "cONTENT-type" "Content-Type" Hs H).
Defined.

(** ** The tokenizer *)

Lemma parse_params_run_enough (rest delimiter : string) (length : Z)
  (fuel : nat) (index : Z) :
  0 <= index ->
  Z.max 0 (length - index) < Z.of_nat fuel ->
  parse_params_run fuel rest delimiter length index
  = Some (parse_params_loop fuel rest delimiter length index).
Proof.
  revert index.
  induction fuel as [|fuel IH]; intros index Hi Hf.
  - simpl in *. lia.
  - simpl.
    destruct (Z.ltb_spec index length) as [Hlt|]; [|reflexivity].
    pose proof (find_ge rest "=" index Hi) as Hsep1.
    pose proof (find_ge rest delimiter index Hi) as Hsep2.
    set (sep1 := find rest "=" index) in *.
    set (sep2 := find rest delimiter index) in *.
    assert (Hsep2' : index <= (if sep2 <? 0 then length else sep2)).
    { destruct (Z.ltb_spec sep2 0); lia. }
    set (sep2' := if sep2 <? 0 then length else sep2) in *.
    destruct ((0 <=? sep1) && (sep1 <? sep2')) eqn:Hb.
    + apply andb_prop in Hb as [Hb1 Hb2].
      apply Z.leb_le in Hb1. apply Z.ltb_lt in Hb2.
      destruct (char_at rest (sep1 + 1)) as [c|]; [|reflexivity].
      destruct (Ascii.eqb c DQUOTE).
      * pose proof (find_ge rest QUOTE (sep1 + 1 + 1)) as Hq.
        destruct (Z.leb_spec 0 (find rest QUOTE (sep1 + 1 + 1)));
          rewrite IH by lia; reflexivity.
      * destruct (Z.leb_spec 0 sep2'); [|lia].
        rewrite IH by lia; reflexivity.
    + destruct ((sep1 <? 0) || ((0 <=? sep1) && (sep2' <? sep1)));
        [|reflexivity].
      rewrite IH by lia; reflexivity.
Qed.

(** X2. The loop of [parse_params] ends: every iteration moves [index]
    forward, so on every input one more iteration than the input has
    characters is enough, and the pairs are those of [parse_params]. *)
Theorem parse_params_terminates (rest delimiter : string) :
  parse_params_run (S (String.length rest)) rest delimiter (len rest) 0
  = Some (parse_params rest delimiter).
Proof.
  unfold parse_params. apply parse_params_run_enough; unfold len; lia.
Qed.

Lemma lstrip_head (s : string) :
  match lstrip s with
  | EmptyString => True
  | String c _ => is_space c = false
  end.
Proof.
  induction s as [|c r IH]; simpl; [exact I|].
  destruct (is_space c) eqn:Hc; [exact IH | exact Hc].
Qed.

Lemma rstrip_head (s : string) :
  match s with
  | EmptyString => True
  | String c _ => is_space c = false
  end ->
  match rstrip s with
  | EmptyString => s = EmptyString
  | String c _ => is_space c = false
  end.
Proof.
  destruct s as [|c r]; simpl; [reflexivity|].
  intros Hc. destruct (rstrip r); [rewrite Hc|]; exact Hc.
Qed.

Lemma rstrip_idem (s : string) : rstrip (rstrip s) = rstrip s.
Proof.
  induction s as [|c r IH]; simpl; [reflexivity|].
  destruct (rstrip r) as [|d r'] eqn:Hr.
  - destruct (is_space c) eqn:Hc; simpl; [reflexivity | now rewrite Hc].
  - cbn [rstrip] in *. fold rstrip in *.
    change (rstrip (String c (String d r')))
      with (match rstrip (String d r') with
            | EmptyString => if is_space c then EmptyString
                             else String c EmptyString
            | x => String c x
            end).
    now rewrite IH.
Qed.

Lemma strip_idem (s : string) : strip (strip s) = strip s.
Proof.
  unfold strip.
  pose proof (rstrip_head (lstrip s) (lstrip_head s)) as H.
  destruct (rstrip (lstrip s)) as [|c r] eqn:Hr; [reflexivity|].
  cbn [lstrip]. rewrite H. rewrite <- Hr. apply rstrip_idem.
Qed.

Lemma parse_params_loop_pairs (fuel : nat) (rest delimiter : string)
  (length index : Z) :
  Forall (fun kv => truthy (fst kv) = true /\ no_upper (fst kv) = true /\
                    strip (fst kv) = fst kv /\ strip (snd kv) = snd kv)
    (parse_params_loop fuel rest delimiter length index).
Proof.
  revert index.
  induction fuel as [|fuel IH]; intros index; simpl; [constructor|].
  destruct (index <? length); [|constructor].
  destruct ((0 <=? find rest "=" index) && _).
  - destruct (char_at rest (find rest "=" index + 1)) as [c|]; [|constructor].
    destruct (Ascii.eqb c DQUOTE);
      match goal with
      | |- context [if ?b then (_, _) else (_, _)] => destruct b
      end;
      unfold yield;
      match goal with
      | |- context [if truthy ?n then _ else _] => destruct (truthy n) eqn:Hn
      end;
      try apply IH; constructor; try apply IH; cbn [fst snd];
      (split; [exact Hn|]; split; [apply key_no_upper|];
       split; apply strip_idem).
  - destruct ((find rest "=" index <? 0) || _); [|constructor].
    unfold yield.
    match goal with
    | |- context [if truthy ?n then _ else _] => destruct (truthy n) eqn:Hn
    end;
    try apply IH; constructor; try apply IH; cbn [fst snd].
    split; [exact Hn|]. split; [apply key_no_upper|].
    split; [apply strip_idem | reflexivity].
Qed.

Lemma ascii_text_key (rest : string) (a b : Z) :
  ascii_text rest = true ->
  ascii_text (strip (lower (slice rest a b))) = true.
Proof.
  intros H. unfold slice.
  now apply ascii_text_strip, ascii_text_lower, ascii_text_substring.
Qed.

Lemma ascii_text_value (rest : string) (a b : Z) :
  ascii_text rest = true -> ascii_text (strip (slice rest a b)) = true.
Proof.
  intros H. unfold slice. now apply ascii_text_strip, ascii_text_substring.
Qed.

Lemma ascii_text_value_from (rest : string) (a : Z) :
  ascii_text rest = true -> ascii_text (strip (slice_from rest a)) = true.
Proof.
  intros H. unfold slice_from.
  now apply ascii_text_strip, ascii_text_substring.
Qed.

Lemma parse_params_loop_ascii (fuel : nat) (rest delimiter : string)
  (length index : Z) :
  ascii_text rest = true ->
  Forall (fun kv => ascii_text (fst kv) = true /\ ascii_text (snd kv) = true)
    (parse_params_loop fuel rest delimiter length index).
Proof.
  intros Hr. revert index.
  induction fuel as [|fuel IH]; intros index; simpl; [constructor|].
  destruct (index <? length); [|constructor].
  destruct ((0 <=? find rest "=" index) && _).
  - destruct (char_at rest (find rest "=" index + 1)) as [c|]; [|constructor].
    destruct (Ascii.eqb c DQUOTE);
      match goal with
      | |- context [if ?b then (_, _) else (_, _)] => destruct b
      end;
      unfold yield;
      match goal with
      | |- context [if truthy ?n then _ else _] => destruct (truthy n) eqn:Hn
      end;
      try apply IH; constructor; try apply IH; cbn [fst snd];
      (split;
       [now apply ascii_text_key
       | first [now apply ascii_text_value
               | now apply ascii_text_value_from]]).
  - destruct ((find rest "=" index <? 0) || _); [|constructor].
    unfold yield.
    match goal with
    | |- context [if truthy ?n then _ else _] => destruct (truthy n) eqn:Hn
    end;
    try apply IH; constructor; try apply IH; cbn [fst snd].
    split; [now apply ascii_text_key | reflexivity].
Qed.

(** X3. On ASCII text, every pair that [parse_params] yields has a name that
    is not empty, has no upper-case letter and no white space at either end,
    and a value without white space at either end; the name and the value
    are ASCII text. *)
Theorem parse_params_pairs (rest delimiter n v : string) :
  ascii_text rest = true ->
  In (n, v) (parse_params rest delimiter) ->
  n <> EmptyString /\ no_upper n = true /\ strip n = n /\ strip v = v /\
  ascii_text n = true /\ ascii_text v = true.
Proof.
  intros Hr H. unfold parse_params in H.
  pose proof (parse_params_loop_pairs (S (String.length rest)) rest delimiter
                (len rest) 0) as HF.
  pose proof (parse_params_loop_ascii (S (String.length rest)) rest delimiter
                (len rest) 0 Hr) as HA.
  rewrite Forall_forall in HF, HA.
  specialize (HF _ H). specialize (HA _ H). cbn [fst snd] in HF, HA.
  destruct HF as (Hn & Hu & Hs & Hv). destruct HA as (Han & Hav).
  repeat split; try assumption. intros ->. discriminate Hn.
Qed.

Lemma parse_params_pairs_witness :
  ascii_text " Branch = z9hG4bK ;lr" = true /\
  In ("branch", "z9hG4bK") (parse_params " Branch = z9hG4bK ;lr" ";") /\
  "branch" <> EmptyString /\ no_upper "branch" = true /\
  strip "branch" = "branch" /\ strip "z9hG4bK" = "z9hG4bK" /\
  ascii_text "branch" = true /\ ascii_text "z9hG4bK" = true.
Proof.
  assert (Hr : ascii_text " Branch = z9hG4bK ;lr" = true) by reflexivity.
  assert (H : In ("branch", "z9hG4bK") (parse_params " Branch = z9hG4bK ;lr" ";"))
    by (vm_compute; left; reflexivity).
  split; [exact Hr|]. split; [exact H|].
  exact (parse_params_pairs _ _ _ _ Hr H).
Defined.

(** ** URIs *)

Lemma dict_set_values {V : Type} (Q : V -> Prop) (d : dict V) (k : string)
  (v : V) :
  Forall (fun kv => Q (snd kv)) d -> Q v ->
  Forall (fun kv => Q (snd kv)) (dict_set d k v).
Proof.
  intros Hd Hv. induction d as [|[k0 v0] r IH]; simpl.
  - constructor; [exact Hv | constructor].
  - inversion Hd as [|? ? H0 Hr]; subst.
    destruct (String.eqb k0 k); constructor; auto.
Qed.

Lemma dict_of_values {V : Type} (Q : V -> Prop) (l : list (string * V)) :
  Forall (fun kv => Q (snd kv)) l ->
  Forall (fun kv => Q (snd kv)) (dict_of l).
Proof.
  unfold dict_of.
  assert (H : forall acc, Forall (fun kv => Q (snd kv)) acc ->
                          Forall (fun kv => Q (snd kv)) l ->
                          Forall (fun kv => Q (snd kv))
                            (fold_left (fun d kv => dict_set d (fst kv) (snd kv))
                               l acc)).
  { induction l as [|[k v] r IH]; intros acc Ha Hl; simpl; [exact Ha|].
    inversion Hl as [|? ? Hv Hr]; subst.
    apply IH; [|exact Hr]. now apply dict_set_values. }
  intros Hl. apply H; [constructor | exact Hl].
Qed.

Lemma URI_port_group (po : option string) (p : option Z) :
  match po with
  | Some s => if truthy s
              then n <- int s ;; Ok (if n =? 0 then None else Some n)
              else Ok None
  | None => Ok None
  end = Ok p ->
  p <> Some 0.
Proof.
  destruct po as [t|]; [|now intros [= <-]].
  destruct (truthy t); [|now intros [= <-]].
  destruct (int t) as [n|]; [|discriminate]. cbn [bind].
  intros [= <-]. destruct (Z.eqb_spec n 0); congruence.
Qed.

Lemma URI_params_group (ps : option string) :
  Forall (fun kv : string * option string => snd kv <> Some EmptyString)
    match ps with
    | Some t =>
        if truthy t
        then dict_of
               (map (fun k => let '(n, _, v) := k in
                              (n, if truthy v then Some v else None))
                  (map (fun n => partition n "=") (split t ";")))
        else []
    | None => []
    end.
Proof.
  destruct ps as [t|]; [|constructor].
  destruct (truthy t); [|constructor].
  apply (dict_of_values (fun v => v <> Some EmptyString)).
  apply Forall_forall. intros kv Hin.
  apply in_map_iff in Hin as [[[n m] v] [<- _]]. cbn [snd].
  destruct v; cbn [truthy]; discriminate.
Qed.

(** X4. A URI as [URI.__init__] builds it never has the port [0] (a port
    written [0] is dropped) and never has a parameter whose value is the
    empty string (a parameter without a value, or with an empty one, holds
    [None]). *)
Theorem URI_init_port_and_params (value : string) (u : URI) :
  URI_init value = Ok u ->
  port u <> Some 0 /\ Forall (fun kv => snd kv <> Some EmptyString) (param u).
Proof.
  unfold URI_init. destruct (truthy value).
  - destruct (match re_match URI_syntax 7 value with
              | Some _ => _
              | None => _
              end) as [[[[[[[sch us] pw] ho] po] ps] hs]|]; [|discriminate].
    cbn [bind].
    destruct (opt_is sch "tel" && is_none us);
      (destruct (match po with Some _ => _ | None => _ end) as [p|] eqn:Hp;
       [|discriminate]);
      cbn [bind]; intros [= <-]; cbn [port param];
      (split; [exact (URI_port_group _ _ Hp) | apply URI_params_group]).
  - intros [= <-]. split; [discriminate | constructor].
Qed.

Lemma URI_init_port_and_params_witness :
  URI_init "sip:bob@biloxi.com:0;lr;ttl=" =
  Ok (mkURI (Some "sip") (Some "bob") None (Some "biloxi.com") None
        [("lr", None); ("ttl", None)] []) /\
  None <> Some 0 /\
  Forall (fun kv : string * option string => snd kv <> Some EmptyString)
    [("lr", None); ("ttl", None)].
Proof.
  assert (H : URI_init "sip:bob@biloxi.com:0;lr;ttl=" =
              Ok (mkURI (Some "sip") (Some "bob") None (Some "biloxi.com") None
                    [("lr", None); ("ttl", None)] []))
    by (vm_compute; reflexivity).
  split; [exact H|].
  exact (URI_init_port_and_params _ _ H).
Defined.

Lemma ltb_antisym (a b : string) :
  (a <? b)%string = true -> (b <? a)%string = false.
Proof.
  unfold String.ltb. rewrite (String.compare_antisym b a).
  destruct (String.compare a b); simpl; congruence.
Qed.

(** X5. [URI.__cmp__] is a three-way comparison: a URI compares equal to
    itself, swapping the arguments negates the result, and URIs that
    compare equal have equal hashes and compare alike with any third. *)
Theorem URI_cmp_laws (hash : string -> Z) (a b c : URI) :
  URI_cmp a a = 0 /\
  URI_cmp b a = - URI_cmp a b /\
  (URI_cmp a b = 0 ->
   URI_hash hash a = URI_hash hash b /\ URI_cmp a c = URI_cmp b c).
Proof.
  split; [apply URI_cmp_zero; reflexivity|]. split.
  - unfold URI_cmp.
    destruct (lower (URI_repr a) <? lower (URI_repr b))%string eqn:Hab.
    + now rewrite (ltb_antisym _ _ Hab).
    + destruct (lower (URI_repr b) <? lower (URI_repr a))%string; reflexivity.
  - intros H. apply URI_cmp_zero in H. unfold URI_hash, URI_cmp.
    now rewrite H.
Qed.

Lemma URI_cmp_laws_witness :
  let a := mkURI (Some "sip") (Some "Bob") None (Some "Biloxi.com") None [] [] in
  let b := mkURI (Some "SIP") (Some "bob") None (Some "biloxi.COM") None [] [] in
  let c := mkURI (Some "sip") (Some "carol") None (Some "chicago.com") None [] [] in
  URI_cmp a b = 0 /\
  URI_hash (fun s => Z.of_nat (String.length s)) a
  = URI_hash (fun s => Z.of_nat (String.length s)) b /\
  URI_cmp a c = URI_cmp b c.
Proof.
  intros a b c.
  assert (H : URI_cmp a b = 0) by reflexivity.
  split; [exact H|].
  exact (proj2 (proj2 (URI_cmp_laws (fun s => Z.of_nat (String.length s)) a b c)) H).
Defined.

(** the part of a URI that [__repr__] prints as the host *)
Lemma URI_repr_empty_iff (u : URI) :
  URI_repr u = EmptyString <->
  opt_truthy (scheme u)
  && opt_truthy (if opt_is (scheme u) "tel" then user u else host u) = false.
Proof.
  unfold URI_repr.
  destruct (opt_is (scheme u) "tel") eqn:Htel; cbn [negb];
    destruct (scheme u) as [[|c r]|]; cbn [opt_truthy truthy andb];
    try (split; [reflexivity | reflexivity]);
    match goal with
    | |- context [match ?h with Some _ => _ | None => _ end] =>
        destruct h as [[|d r']|]; cbn [opt_truthy truthy andb];
        split; try reflexivity; try discriminate
    end.
Qed.

(** X6. A URI serializes to the empty string exactly when it has no scheme
    or nothing to print as its host (the user of a [tel] URI, the host of any
    other), whatever its other fields hold; and the duplicate of such a URI
    is the empty URI. *)
Theorem URI_without_host_is_empty (u : URI) :
  (URI_repr u = EmptyString <->
   opt_truthy (scheme u)
   && opt_truthy (if opt_is (scheme u) "tel" then user u else host u) = false)
  /\
  (URI_repr u = EmptyString -> URI_dup u = Ok URI_empty).
Proof.
  split; [apply URI_repr_empty_iff|].
  intros H. unfold URI_dup. now rewrite H.
Qed.

Lemma URI_without_host_is_empty_witness :
  let u := mkURI (Some "sip") (Some "alice") (Some "pw") None (Some 5060)
             [("transport", Some "tcp")] ["Priority=urgent"] in
  URI_repr u = EmptyString /\ URI_dup u = Ok URI_empty.
Proof.
  intros u.
  assert (H : URI_repr u = EmptyString) by reflexivity.
  split; [exact H|].
  exact (proj2 (URI_without_host_is_empty u) H).
Defined.

(** X7. The property [secure] can only be switched on: assigning a false
    value changes nothing, a secure URI stays as it is whatever is assigned,
    and assigning a true value to a [sip] or [http] URI makes it secure and
    leaves every other field alone. *)
Theorem secure_is_one_way (u : URI) (value : bool) :
  _ssecure u false = u /\
  (_gsecure u = true -> _ssecure u value = u) /\
  (name_in (scheme u) ["sip"; "http"] = true ->
   _gsecure (_ssecure u true) = true /\
   user (_ssecure u true) = user u /\ password (_ssecure u true) = password u /\
   host (_ssecure u true) = host u /\ port (_ssecure u true) = port u /\
   param (_ssecure u true) = param u /\ header (_ssecure u true) = header u).
Proof.
  unfold _ssecure, _gsecure, name_in.
  destruct (scheme u) as [sch|] eqn:Hs.
  - split; [reflexivity|]. split.
    + intros H. unfold list_mem in *. simpl in *.
      destruct (String.eqb_spec sch "sips") as [->|];
        [now rewrite andb_false_r|].
      destruct (String.eqb_spec sch "https") as [->|];
        [now rewrite andb_false_r | discriminate].
    + intros H. cbn [andb]. rewrite H.
      unfold list_mem in H. simpl in H.
      destruct (String.eqb_spec sch "sip") as [->|];
        [repeat split; reflexivity|].
      destruct (String.eqb_spec sch "http") as [->|];
        [repeat split; reflexivity | discriminate].
  - split; [reflexivity|]. split; [reflexivity | discriminate].
Qed.

Lemma secure_is_one_way_witness :
  let u := mkURI (Some "sip") (Some "bob") None (Some "biloxi.com") None [] [] in
  name_in (scheme u) ["sip"; "http"] = true /\
  scheme (_ssecure u true) = Some "sips" /\
  _gsecure (_ssecure u true) = true /\
  _ssecure (_ssecure u true) false = _ssecure u true.
Proof.
  intros u.
  assert (H : name_in (scheme u) ["sip"; "http"] = true) by reflexivity.
  split; [exact H|]. split; [reflexivity|].
  split; [exact (proj1 (proj2 (proj2 (secure_is_one_way u true)) H))|].
  exact (proj1 (secure_is_one_way (_ssecure u true) false)).
Defined.

(** ** Headers *)

Lemma set_host_port (u : URI) (h : option string) :
  port (set_host u h) = port u.
Proof. reflexivity. Qed.

(** X8. [via_uri] computes the URI once: a call that succeeds leaves the
    URI it returns in [_viaUri], and a second call returns the same URI and
    leaves the header as the first call left it. A URI computed on a header
    without a cache always has a port. *)
Theorem via_uri_is_cached (h h' : Header) (v : hval) :
  via_uri h = Ok (h', v) ->
  dict_get h' "_viaUri" = Some v /\
  via_uri h' = Ok (h', v) /\
  (dict_mem h "_viaUri" = false ->
   exists u : URI, v = HURI u /\ port u <> None).
Proof.
  unfold via_uri at 1. destruct (dict_mem h "_viaUri") eqn:Hc; cbn [negb].
  - unfold getattr, dict_mem in *.
    destruct (dict_get h "_viaUri") as [x|] eqn:Hx; [|discriminate].
    cbn [bind]. intros [= <- <-].
    split; [exact Hx|]. split; [|discriminate].
    unfold via_uri, dict_mem, getattr. now rewrite Hx.
  - destruct (getattr h "name") as [n|]; [|discriminate]. cbn [bind].
    destruct (negb (hval_eq_str n "Via")); [discriminate|].
    destruct (getattr h "value") as [val|]; [|discriminate]. cbn [bind].
    destruct (as_str val) as [text|]; [|discriminate]. cbn [bind].
    destruct (match split text " " with
              | [proto; addr] => Ok (proto, addr)
              | _ => Raise (ValueError "unpack")
              end) as [[proto addr]|]; [|discriminate].
    cbn [bind].
    destruct (list_at (split proto "/") 2) as [t|]; [|discriminate].
    cbn [bind].
    destruct (URI_init _) as [u|]; [|discriminate]. cbn [bind].
    intros [= <- <-].
    split; [apply dict_get_set_same|]. split.
    + unfold via_uri, dict_mem, getattr. rewrite dict_get_set_same.
      reflexivity.
    + intros _. eexists. split; [reflexivity|].
      assert (H0 : port (if is_none (port u) then set_port u (Some 5060) else u)
                   <> None).
      { destruct (port u) eqn:Hp; cbn [is_none]; [now rewrite Hp | discriminate]. }
      set (u1 := if is_none (port u) then set_port u (Some 5060) else u) in *.
      assert (H1 : port (if Header_contains h "rport"
                         then try_except
                                (p <- int_of_hval (Header_getitem h "rport") ;;
                                 Ok (set_port u1 (Some p))) u1
                         else u1) <> None).
      { destruct (Header_contains h "rport"); [|exact H0].
        destruct (int_of_hval (Header_getitem h "rport"));
          cbn [bind try_except]; [discriminate | exact H0]. }
      set (u2 := if Header_contains h "rport" then _ else u1) in *.
      match goal with
      | |- port (if ?b then _ else _) <> None => destruct b; [|exact H1]
      end.
      destruct (Header_contains h "maddr"); [exact H1|].
      destruct (Header_contains h "received"); exact H1.
Qed.

Lemma via_uri_is_cached_witness :
  exists (h h' : Header) (u : URI),
    Header_init "SIP/2.0/TCP pc33.atlanta.com;maddr=192.0.2.9" (Some "v") = Ok h /\
    via_uri h = Ok (h', HURI u) /\
    host u = Some "pc33.atlanta.com" /\ port u = Some 5060 /\
    dict_get h' "_viaUri" = Some (HURI u) /\
    via_uri h' = Ok (h', HURI u).
Proof.
  do 3 eexists. split; [vm_compute; reflexivity|].
  assert (H : via_uri
                [("name", HStr "Via"); ("maddr", HStr "192.0.2.9");
                 ("value", HStr "SIP/2.0/TCP pc33.atlanta.com")]
              = Ok ([("name", HStr "Via"); ("maddr", HStr "192.0.2.9");
                     ("value", HStr "SIP/2.0/TCP pc33.atlanta.com");
                     ("_viaUri",
                      HURI (mkURI (Some "sip") None None
                              (Some "pc33.atlanta.com") (Some 5060)
                              [("transport", Some "tcp")] []))],
                    HURI (mkURI (Some "sip") None None
                            (Some "pc33.atlanta.com") (Some 5060)
                            [("transport", Some "tcp")] [])))
    by (vm_compute; reflexivity).
  split; [exact H|]. split; [reflexivity|]. split; [reflexivity|].
  split; [exact (proj1 (via_uri_is_cached _ _ _ H))|].
  exact (proj1 (proj2 (via_uri_is_cached _ _ _ H))).
Defined.

(** X9. A header as [Header.__init__] builds it never holds a cached URI,
    whatever parameters its value carries; so on such a header the accessor
    raises unless the name the header ends with is [Via]. *)
Theorem fresh_header_has_no_cache (value : string) (name : option string)
  (h : Header) :
  Header_init value name = Ok h ->
  dict_mem h "_viaUri" = false /\
  (dict_get h "name" <> Some (HStr "Via") -> exists e : exn, via_uri h = Raise e).
Proof.
  intros H. split; [now apply (Header_init_not_cached value name)|].
  now apply (via_uri_fresh_header value name).
Qed.

Lemma fresh_header_has_no_cache_witness :
  exists h : Header,
    Header_init "<sip:bob@biloxi.com>;_VIAURI=x;lr" (Some "Route") = Ok h /\
    dict_mem h "_viaUri" = false /\ dict_mem h "_viauri" = true /\
    exists e : exn, via_uri h = Raise e.
Proof.
  eexists.
  assert (H : Header_init "<sip:bob@biloxi.com>;_VIAURI=x;lr" (Some "Route")
              = Ok [("name", HStr "Route"); ("_viauri", HStr "x");
                    ("lr", HStr "");
                    ("value",
                     HAddr (mkAddress (Some "")
                              (Some (mkURI (Some "sip") (Some "bob") None
                                       (Some "biloxi.com") None [] []))
                              false true))])
    by (vm_compute; reflexivity).
  split; [exact H|].
  split; [exact (proj1 (fresh_header_has_no_cache _ _ _ H))|].
  split; [reflexivity|].
  apply (proj2 (fresh_header_has_no_cache _ _ _ H)). discriminate.
Defined.

(** ** Addresses *)

(** X10. An address text that starts with [*] is the wildcard, whatever
    follows the star: parsing consumes one character and reads no display
    name and no URI; the wildcard serializes to the empty string, so its
    duplicate is the empty address and is no wildcard any more. *)
Theorem wildcard_address (value : string) :
  startswith value "*" = true ->
  Address_parse Address_empty value
  = Ok (mkAddress None None true false, Some 1) /\
  Address_init (Some value) = Ok (mkAddress None None true false) /\
  Address_repr (mkAddress None None true false) = EmptyString /\
  Address_dup (mkAddress None None true false) = Ok Address_empty /\
  wildcard Address_empty = false.
Proof.
  intros H. unfold Address_init, Address_parse. rewrite H.
  split; [reflexivity|]. split.
  - destruct value as [|c r]; [discriminate H | reflexivity].
  - repeat split; reflexivity.
Qed.

Lemma wildcard_address_witness :
  startswith "*;expires=0" "*" = true /\
  Address_parse Address_empty "*;expires=0"
  = Ok (mkAddress None None true false, Some 1).
Proof.
  assert (H : startswith "*;expires=0" "*" = true) by reflexivity.
  split; [exact H|].
  exact (proj1 (wildcard_address "*;expires=0" H)).
Defined.

Lemma substring_0_length (s : string) (m : nat) :
  (String.length (substring 0 m s) <= m)%nat.
Proof.
  revert m. induction s as [|c r IH]; intros [|m]; simpl; try lia.
  specialize (IH m). lia.
Qed.

Lemma append_length (a b : string) :
  String.length (a ++ b) = (String.length a + String.length b)%nat.
Proof. induction a as [|c r IH]; simpl; [reflexivity | now rewrite IH]. Qed.

(** X11. For a limit of three or more, what [get_displayable] returns is
    never longer than the limit: a name shorter than the limit is returned
    whole, a longer one is cut and ends with three dots. In particular
    [displayable] has at most 25 characters. *)
Theorem get_displayable_is_bounded (self : Address) (limit : Z) :
  3 <= limit ->
  len (get_displayable self limit) <= limit.
Proof.
  intros Hl. unfold get_displayable.
  match goal with
  | |- context [if len ?n <? limit then _ else _] => set (name := n)
  end.
  destruct (Z.ltb_spec (len name) limit) as [Hlt|Hge]; [lia|].
  unfold slice_upto. destruct (Z.ltb_spec (limit - 3) 0); [lia|].
  unfold len. rewrite append_length. cbn [String.length].
  pose proof (substring_0_length name (Z.to_nat (limit - 3))). lia.
Qed.

Lemma get_displayable_is_bounded_witness :
  3 <= 25 /\
  displayable (mkAddress (Some "The Quick Brown Fox Jumps Over") None false false)
  = "The Quick Brown Fox Ju..." /\
  len (get_displayable
         (mkAddress (Some "The Quick Brown Fox Jumps Over") None false false) 25)
  <= 25.
Proof.
  assert (H : 3 <= 25) by lia.
  split; [exact H|]. split; [reflexivity|].
  exact (get_displayable_is_bounded _ 25 H).
Defined.

Lemma append_empty_r (s : string) : s ++ "" = s.
Proof. induction s as [|c r IH]; simpl; [reflexivity | now rewrite IH]. Qed.

(** the canonical names of the unstructured headers other than [CSeq] *)
Lemma unstructured_canonical (c : string) :
  _canon c = Ok c ->
  list_mem (lower c) _unstructured = true ->
  lower c <> "cseq" ->
  In c ["Call-ID"; "Date"; "Expires"; "Max-Forwards"; "Organization"; "Server";
        "Subject"; "Timestamp"; "User-Agent"].
Proof.
  intros Hfix Hu Hn.
  assert (Hlow : _canon (lower c) = Ok c).
  { revert Hfix. unfold _canon, recursion_limit.
    change 1000%nat with (S 999). now rewrite _canon_rec_lower. }
  unfold list_mem in Hu. apply existsb_exists in Hu as (x & Hin & Hx).
  apply String.eqb_eq in Hx. subst x.
  cbn [In _unstructured] in Hin.
  repeat destruct Hin as [Hin|Hin];
    try contradiction;
    try (symmetry in Hin; contradiction);
    rewrite <- Hin in Hlow; vm_compute in Hlow;
    injection Hlow as <-; cbn [In]; tauto.
Qed.

Lemma Header_init_unstructured (value name c : string) :
  _canon (strip name) = Ok c ->
  In c ["Call-ID"; "Date"; "Expires"; "Max-Forwards"; "Organization"; "Server";
        "Subject"; "Timestamp"; "User-Agent"] ->
  Header_init value (Some name)
  = Ok [("name", HStr c); ("value", HStr (strip value))].
Proof.
  intros Hc Hin. unfold Header_init.
  destruct name as [|ch r].
  - vm_compute in Hc. injection Hc as <-. cbn [In] in Hin.
    repeat destruct Hin as [Hin|Hin]; try discriminate; contradiction.
  - cbn [truthy]. rewrite Hc. cbn [bind].
    generalize (strip value). intros v.
    cbn [In] in Hin.
    repeat destruct Hin as [Hin|Hin]; try contradiction; subst c;
      reflexivity.
Qed.

(** X12. A header whose name is one of the unstructured ones other than
    [CSeq] keeps its text whole: whatever the value holds, the constructor
    stores the stripped text and no parameter, [str] gives that text back,
    [repr] puts the canonical name before it, and [dup] builds an equal
    header. *)
Theorem unstructured_header_round_trip (value name c : string) :
  _canon (strip name) = Ok c ->
  list_mem (lower c) _unstructured = true ->
  lower c <> "cseq" ->
  exists h : Header,
    Header_init value (Some name) = Ok h /\
    h = [("name", HStr c); ("value", HStr (strip value))] /\
    Header_str h = Ok (strip value) /\
    Header_repr h = Ok (c ++ ": " ++ strip value) /\
    Header_dup h = Ok h.
Proof.
  intros Hc Hu Hn.
  assert (Hfix : _canon c = Ok c).
  { revert Hc. unfold _canon, recursion_limit.
    change 1000%nat with (S (S 998)). apply _canon_rec_fixed. }
  pose proof (unstructured_canonical c Hfix Hu Hn) as Hin.
  eexists. split; [exact (Header_init_unstructured value name c Hc Hin)|].
  split; [reflexivity|].
  assert (Hs : Header_str [("name", HStr c); ("value", HStr (strip value))]
               = Ok (strip value)).
  { unfold Header_str, getattr. cbn [dict_get String.eqb Ascii.eqb Bool.eqb].
    cbn [bind as_str]. rewrite Hu, orb_true_r. cbn [truthy hval_str].
    now rewrite append_empty_r. }
  split; [exact Hs|]. split.
  - unfold Header_repr, getattr. cbn [dict_get String.eqb Ascii.eqb Bool.eqb].
    cbn [bind]. now rewrite Hs.
  - unfold Header_dup, getattr. rewrite Hs.
    cbn [dict_get String.eqb Ascii.eqb Bool.eqb]. cbn [bind].
    rewrite (Header_init_unstructured (strip value) c c).
    + now rewrite strip_idem.
    + cbn [In] in Hin.
      repeat destruct Hin as [Hin|Hin]; try contradiction; subst c;
        vm_compute; reflexivity.
    + exact Hin.
Qed.

Lemma unstructured_header_round_trip_witness :
  exists h : Header,
    Header_init " Fri, 13 Nov 2026 08:00:00 GMT;x=1 " (Some "date") = Ok h /\
    h = [("name", HStr "Date");
         ("value", HStr "Fri, 13 Nov 2026 08:00:00 GMT;x=1")] /\
    Header_repr h = Ok "Date: Fri, 13 Nov 2026 08:00:00 GMT;x=1" /\
    Header_dup h = Ok h.
Proof.
  destruct (unstructured_header_round_trip
              " Fri, 13 Nov 2026 08:00:00 GMT;x=1 " "date" "Date")
    as (h & H1 & H2 & _ & H4 & H5);
    [vm_compute; reflexivity | reflexivity | discriminate |].
  exists h. repeat split; assumption.
Defined.

(** ** Messages *)

Lemma dict_set_first_key {V : Type} (d : dict V) (k k0 : string) (v : V) :
  first_key d = Some k0 -> first_key (dict_set d k v) = Some k0.
Proof.
  destruct d as [|[k' v'] r]; simpl; [discriminate|].
  intros [= ->]. destruct (String.eqb_spec k0 k) as [->|]; reflexivity.
Qed.

Lemma store_header_first_key (self : Message) (h k0 : string) :
  first_key self = Some k0 -> first_key (store_header self h) = Some k0.
Proof.
  intros Hk. unfold store_header.
  destruct (create_headers h) as [[name values]|]; [|exact Hk].
  cbn [bind]. destruct (force values) as [vs|]; [|exact Hk]. cbn [bind].
  destruct (negb (Message_contains self name)).
  - destruct vs as [|x [|y r]]; cbn [bind try_except];
      [exact Hk | |]; now apply dict_set_first_key.
  - destruct (negb (list_mem name _single)); [|exact Hk].
    destruct (negb (is_list (Message_getitem self name))).
    + destruct (Message_getitem (Message_setitem self name _) name);
        cbn [try_except]; try exact Hk.
      now apply dict_set_first_key, dict_set_first_key.
    + destruct (Message_getitem self name); cbn [try_except]; try exact Hk.
      now apply dict_set_first_key.
Qed.

Lemma parse_headers_first_key (self : Message) (headers k0 : string) :
  first_key self = Some k0 ->
  first_key (parse_headers self headers) = Some k0.
Proof.
  unfold parse_headers. generalize (fold_left unfold_line (split headers LF) []).
  intros l. revert self. induction l as [|h r IH]; intros self Hk; simpl.
  - exact Hk.
  - now apply IH, store_header_first_key.
Qed.

Lemma parse_first_line_first_key (self m : Message) (first_headers headers k0
  : string) :
  first_key self = Some k0 ->
  parse_first_line self first_headers = Ok (m, headers) ->
  first_key m = Some k0.
Proof.
  intros Hk. unfold parse_first_line.
  destruct (match splitn first_headers LF 1 with
            | [first_line; headers] => Ok (first_line, headers)
            | _ => Raise (ValueError "No first line found")
            end) as [[first_line hs]|]; [|discriminate].
  cbn [bind]. destruct (last_char first_line) as [lc|]; [|discriminate].
  cbn [bind].
  destruct (match splitn _ " " 2 with
            | [a; b; c] => Ok (a, b, c)
            | _ => Raise (ValueError "not enough values to unpack")
            end) as [[[a b] c]|]; [|discriminate].
  cbn [bind]. destruct (int b) as [n|[]]; try discriminate.
  - intros [= <- _]. now do 3 apply dict_set_first_key.
  - destruct (URI_init b) as [u|]; [|discriminate]. cbn [bind].
    intros [= <- _]. now do 3 apply dict_set_first_key.
Qed.

Lemma Message_parse_first_key (self m : Message) (value k0 : string) :
  first_key self = Some k0 ->
  Message_parse self value = Ok m ->
  first_key m = Some k0.
Proof.
  intros Hk. unfold Message_parse.
  destruct (split_message value) as [first_headers body_text].
  destruct (parse_first_line self first_headers) as [[self' headers]|] eqn:Hf;
    [|discriminate].
  cbn [bind]. unfold validate.
  destruct (check_content_length _ body_text) as [m'|] eqn:Hcl;
    [|discriminate].
  cbn [bind]. intros Hm. apply check_mandatory_ok in Hm. subst m'.
  apply check_content_length_ok in Hcl. subst m.
  pose proof (parse_headers_first_key self' headers k0
                (parse_first_line_first_key _ _ _ _ _ Hk Hf)) as H.
  destruct (truthy body_text); [|exact H].
  now do 2 apply dict_set_first_key.
Qed.

Lemma Message_init_first_key (value : option string) (m : Message) :
  Message_init value = Ok m -> first_key m = Some "method".
Proof.
  unfold Message_init. destruct value as [v|]; [|now intros [= <-]].
  destruct (truthy v); [|now intros [= <-]].
  now apply Message_parse_first_key.
Qed.

Lemma all_loop_exhausted (self : Message) (keys : list string) :
  all_loop self keys [] = [].
Proof. induction keys as [|x r IH]; simpl; [reflexivity | exact IH]. Qed.

Lemma iter_contains_absent (x : string) (args : list string) :
  ~ In x args -> iter_contains x args = (false, []).
Proof.
  induction args as [|y r IH]; simpl; [reflexivity|].
  intros H. destruct (String.eqb_spec y x) as [->|]; [tauto|].
  apply IH. tauto.
Qed.

Lemma Message_all_first_key (self : Message) (args : list string)
  (k0 : string) :
  first_key self = Some k0 -> ~ In k0 (map lower args) ->
  Message_all self args = [].
Proof.
  destruct self as [|[k v] r]; simpl; [discriminate|].
  intros [= ->] Hn. unfold Message_all. cbn [map fst all_loop].
  rewrite (iter_contains_absent _ _ Hn). cbn [andb app].
  apply all_loop_exhausted.
Qed.

Lemma list_del_nil {A : Type} (position : Z) : list_del (@nil A) position = [].
Proof.
  unfold list_del. destruct (_ <? 0); [reflexivity|].
  now destruct (Z.to_nat _).
Qed.

(** X13. [Message.all] tests the names of the message against the iterator
    that [map] returns, and the first test that fails uses the iterator up.
    The first name of a message that the constructor built is [method]: so
    [all] returns no header unless [method] is among the names asked for,
    whatever the message holds; and [delete] with a position, which removes
    from what [all] returns, does what [delete] without a position does. *)
Theorem all_returns_no_header (value : option string) (m : Message)
  (args : list string) :
  Message_init value = Ok m ->
  ~ In "method" (map lower args) ->
  Message_all m args = [] /\
  forall (name : string) (position : Z),
    In name args ->
    Message_delete m name (Some position) = Message_delete m name None.
Proof.
  intros Hm Hn. apply Message_init_first_key in Hm. split.
  - now apply (Message_all_first_key m args "method").
  - intros name position Hin. unfold Message_delete.
    rewrite (Message_all_first_key m [name] "method" Hm);
      [now rewrite list_del_nil|].
    cbn [map In]. intros [H|[]]. apply Hn. rewrite <- H.
    now apply in_map.
Qed.

Lemma all_returns_no_header_witness :
  exists (m m' : Message) (a b : Header),
    Message_init (Some invite_two_vias) = Ok m /\
    Message_getitem m "Via" = MList [MHdr a; MHdr b] /\
    Message_all m ["Via"] = [] /\
    Message_delete m "Via" (Some 0) = Ok m' /\
    Message_contains m' "Via" = false.
Proof.
  let v := eval vm_compute in (Message_init (Some invite_two_vias)) in
  match v with
  | Ok ?m =>
      assert (H : Message_init (Some invite_two_vias) = Ok m)
        by (vm_compute; reflexivity)
  end.
  do 4 eexists.
  assert (Hn : ~ In "method" (map lower ["Via"]))
    by (cbn; intros [H0|[]]; discriminate H0).
  split; [exact H|].
  split; [vm_compute; reflexivity|].
  split; [exact (proj1 (all_returns_no_header _ _ ["Via"] H Hn))|].
  split.
  - rewrite (proj2 (all_returns_no_header _ _ ["Via"] H Hn) "Via" 0
               (or_introl eq_refl)).
    vm_compute. reflexivity.
  - vm_compute. reflexivity.
Defined.

Lemma Message_getitem_setitem (self : Message) (name : string) (v : mval) :
  Message_getitem (Message_setitem self name v) name = v.
Proof.
  unfold Message_getitem, Message_setitem. now rewrite dict_get_set_same.
Qed.

(** X14. [Message.insert] with a header that has a name loses no header
    already stored under that name: the headers under the name are the
    earlier ones, in their order, with the new one last when [append] is
    set and first when it is not; in the second case [first] returns the
    new header. *)
Theorem insert_keeps_earlier_headers (self m : Message) (h : Header)
  (n : string) (append : bool) :
  dict_get h "name" = Some (HStr n) ->
  truthy n = true ->
  Message_insert self (Some h) append = Ok m ->
  headers_of (Message_getitem m n)
  = (if append then headers_of (Message_getitem self n) ++ [h]
     else h :: headers_of (Message_getitem self n))%list /\
  (append = false -> Message_first m n = Ok (MHdr h)).
Proof.
  intros Hname Hn. unfold Message_insert, getattr. rewrite Hname.
  cbn [bind hval_truthy as_str]. rewrite Hn.
  destruct (negb (Message_contains self n)) eqn:Hc.
  - intros [= <-]. rewrite Message_getitem_setitem.
    assert (H0 : Message_getitem self n = MNone).
    { unfold Message_contains, dict_mem in Hc. unfold Message_getitem.
      destruct (dict_get self (lower n)); [discriminate | reflexivity]. }
    rewrite H0. cbn [headers_of header_of app].
    split; [now destruct append|].
    intros _. unfold Message_first. now rewrite Message_getitem_setitem.
  - destruct (Message_getitem self n) as [| | | |old|l] eqn:Hg;
      try discriminate; intros [= <-]; rewrite Message_getitem_setitem.
    + split; [now destruct append|].
      intros ->. unfold Message_first. now rewrite Message_getitem_setitem.
    + split.
      * destruct append; cbn [headers_of flat_map header_of app];
          [|reflexivity].
        rewrite flat_map_app. cbn [flat_map header_of app].
        reflexivity.
      * intros ->. unfold Message_first. now rewrite Message_getitem_setitem.
Qed.

Lemma insert_keeps_earlier_headers_witness :
  exists (m m' : Message) (a b : Header),
    Message_init (Some invite_two_vias) = Ok m /\
    headers_of (Message_getitem m "Via") = [a; b] /\
    Message_insert m
      (Some [("name", HStr "Via"); ("value", HStr "SIP/2.0/UDP c.example.com")])
      false = Ok m' /\
    headers_of (Message_getitem m' "Via")
    = [[("name", HStr "Via"); ("value", HStr "SIP/2.0/UDP c.example.com")];
       a; b] /\
    Message_first m' "Via"
    = Ok (MHdr [("name", HStr "Via");
                ("value", HStr "SIP/2.0/UDP c.example.com")]).
Proof.
  do 4 eexists.
  split; [vm_compute; reflexivity|].
  split; [vm_compute; reflexivity|].
  match goal with
  | |- ?i = Ok _ /\ _ =>
      let v := eval vm_compute in i in
      match v with
      | Ok ?x => assert (H : i = Ok x) by (vm_compute; reflexivity)
      end
  end.
  split; [exact H|].
  match type of H with
  | Message_insert ?m (Some ?h) _ = Ok ?m' =>
      pose proof (insert_keeps_earlier_headers m m' h "Via" false
                    eq_refl eq_refl H) as [H1 H2]
  end.
  split; [exact H1 | exact (H2 eq_refl)].
Defined.

Lemma Message_insert_keeps_field (self m : Message) (h : option Header)
  (append : bool) (k : string) (v : mval) :
  Message_insert self h append = Ok m ->
  dict_get self k = Some v -> is_field v = true ->
  dict_get m k = Some v.
Proof.
  unfold Message_insert. destruct h as [h|]; [|now intros [= <-]].
  destruct (getattr h "name") as [n|]; [|discriminate]. cbn [bind].
  destruct (hval_truthy n); [|now intros [= <-]].
  destruct (as_str n) as [name|]; [|discriminate]. cbn [bind].
  destruct (negb (Message_contains self name)) eqn:Hc.
  - intros [= <-] Hk Hf. unfold Message_setitem.
    destruct (String.eqb_spec (lower name) k) as [<-|Hne].
    + unfold Message_contains, dict_mem in Hc. rewrite Hk in Hc. discriminate.
    + now rewrite dict_get_set_other.
  - destruct (Message_getitem self name) eqn:Hg; try discriminate;
      intros [= <-] Hk Hf; unfold Message_setitem;
      (destruct (String.eqb_spec (lower name) k) as [<-|Hne];
       [ unfold Message_getitem in Hg; rewrite Hk in Hg; subst v;
         discriminate Hf
       | now rewrite dict_get_set_other ]).
Qed.

Lemma insert_all_keeps_field (headers : list Header) (self m : Message)
  (k : string) (v : mval) :
  insert_all self headers = Ok m ->
  dict_get self k = Some v -> is_field v = true ->
  dict_get m k = Some v.
Proof.
  revert self. induction headers as [|h r IH]; intros self; cbn [insert_all].
  - now intros [= <-].
  - destruct (Message_insert self (Some h) true) as [m1|] eqn:Hi;
      [|discriminate].
    cbn [bind]. intros Hr Hk Hf.
    apply (IH m1 Hr); [|exact Hf].
    now apply (Message_insert_keeps_field self m1 (Some h) true).
Qed.

Lemma _populate_message_ok (m0 m1 : Message) (headers : list Header)
  (content : option string) :
  _populate_message m0 headers content = Ok m1 ->
  exists m2 : Message,
    insert_all m0 headers = Ok m2 /\
    m1 = dict_set (if opt_truthy content
                   then dict_set m2 "_body" (mval_of content) else m2)
           "content-length"
           (MHdr [("name", HStr "Content-Length");
                  ("value", HStr (str_of_int (body_length content)))]).
Proof.
  unfold _populate_message.
  destruct (insert_all m0 headers) as [m2|]; [|discriminate]. cbn [bind].
  intros H. exists m2. split; [reflexivity|].
  destruct (opt_truthy content) eqn:Hc.
  - rewrite set_body_eq in H. now injection H as <-.
  - change "0" with (str_of_int 0) in H.
    rewrite Header_init_Content_Length in H. cbn [bind] in H.
    injection H as <-.
    replace (body_length content) with 0; [reflexivity|].
    destruct content as [[|c r]|]; [reflexivity | discriminate | reflexivity].
Qed.

(** X15. A request that [create_request] builds holds the method it was
    given, the URI parsed from the text it was given and the protocol
    [SIP/2.0]: no header of the list can take their place. Its body is the
    content, or [None] for an empty content, and its [Content-Length] is the
    length of the content, whatever [Content-Length] the list of headers
    brought. *)
Theorem create_request_fields (method uri : string) (headers : list Header)
  (content : option string) (m : Message) :
  create_request method uri headers content = Ok m ->
  Message_getitem m "method" = MStr method /\
  (exists u : URI, URI_init uri = Ok u /\ Message_getitem m "uri" = MURI u) /\
  Message_getitem m "protocol" = MStr "SIP/2.0" /\
  body m = (if opt_truthy content then mval_of content else MNone) /\
  Message_getitem m "Content-Length"
  = MHdr [("name", HStr "Content-Length");
          ("value", HStr (str_of_int (body_length content)))].
Proof.
  unfold create_request.
  destruct (URI_init uri) as [u|]; [|discriminate]. cbn [bind].
  destruct (_populate_message _ headers content) as [m1|] eqn:Hp;
    [|discriminate].
  cbn [bind]. intros Hm.
  apply _populate_message_ok in Hp as (m2 & Hi & Hm1).
  assert (Hcs : m = m1 \/ exists h : Header, m = dict_set m1 "cseq" (MHdr h)).
  { destruct (Message_getitem m1 "CSeq") as [| | | |cseq|];
      try discriminate; [left; now injection Hm|].
    destruct (getattr cseq "method") as [cm|]; [|discriminate].
    cbn [bind] in Hm.
    destruct (negb (hval_eq_str cm method)); [|left; now injection Hm].
    destruct (getattr cseq "number") as [number|]; [|discriminate].
    cbn [bind] in Hm.
    destruct (Header_init _ (Some "CSeq")) as [h|]; [|discriminate].
    cbn [bind] in Hm. right. exists h. now injection Hm. }
  assert (Hget : forall k : string,
            k <> "cseq" -> dict_get m k = dict_get m1 k).
  { intros k Hk. destruct Hcs as [->|[h ->]]; [reflexivity|].
    apply dict_get_set_other. congruence. }
  assert (Hold : forall (k : string) (v : mval),
            k <> "content-length" -> k <> "_body" ->
            dict_get
              (dict_set (dict_set (dict_set Message_new "method" (MStr method))
                           "uri" (MURI u)) "protocol" (MStr "SIP/2.0")) k
            = Some v ->
            is_field v = true -> dict_get m1 k = Some v).
  { intros k v H1 H2 Hk Hf. rewrite Hm1.
    rewrite dict_get_set_other by congruence.
    destruct (opt_truthy content);
      [rewrite dict_get_set_other by congruence|];
      exact (insert_all_keeps_field headers _ m2 k v Hi Hk Hf). }
  unfold body, Message_getitem.
  change (lower "method") with "method". change (lower "uri") with "uri".
  change (lower "protocol") with "protocol".
  change (lower "_body") with "_body".
  change (lower "Content-Length") with "content-length".
  rewrite !Hget by discriminate.
  rewrite (Hold "method" (MStr method)); try discriminate; try reflexivity.
  rewrite (Hold "uri" (MURI u)); try discriminate; try reflexivity.
  rewrite (Hold "protocol" (MStr "SIP/2.0")); try discriminate;
    try reflexivity.
  split; [reflexivity|]. split; [now exists u|]. split; [reflexivity|].
  rewrite Hm1. rewrite dict_get_set_same.
  rewrite dict_get_set_other by discriminate.
  split; [|reflexivity].
  destruct (opt_truthy content).
  - now rewrite dict_get_set_same.
  - now rewrite (insert_all_keeps_field headers _ m2 "_body" MNone Hi).
Qed.

Lemma create_request_fields_witness :
  exists m : Message,
    create_request "OPTIONS" "sip:bob@biloxi.com"
      [[("name", HStr "Content-Length"); ("value", HStr "99")];
       [("name", HStr "CSeq"); ("method", HStr "INVITE");
        ("number", HInt 7); ("value", HStr "7 INVITE")]]
      (Some "hello") = Ok m /\
    Message_getitem m "method" = MStr "OPTIONS" /\
    body m = MStr "hello" /\
    Message_getitem m "Content-Length"
    = MHdr [("name", HStr "Content-Length"); ("value", HStr "5")].
Proof.
  match goal with
  | |- exists m, ?i = Ok m /\ _ =>
      let v := eval vm_compute in i in
      match v with
      | Ok ?x => assert (H : i = Ok x) by (vm_compute; reflexivity)
      end
  end.
  eexists. split; [exact H|].
  destruct (create_request_fields _ _ _ _ _ H) as (H1 & _ & _ & H4 & H5).
  split; [exact H1|]. split; [exact H4 | exact H5].
Defined.

(** ** The length that a message declares *)

(** X16. What the body setter writes, the parser's reading of
    [Content-Length] gives back: after [m.body = value] the integer value of
    the header is the length of the body, [0] for an empty body or [None];
    and a message parsed with a body declares the length of that body. *)
Theorem content_length_reads_back :
  (forall (self : Message) (value : option string),
     exists m : Message,
       set_body self value = Ok m /\ body_len m = Ok (body_length value)) /\
  (forall (self m : Message) (value : string),
     Message_parse self value = Ok m ->
     truthy (snd (split_message value)) = true ->
     body_len m = Ok (len (snd (split_message value)))).
Proof.
  assert (H : forall (d : Message) (z : Z),
            body_len (dict_set d "content-length"
                        (MHdr [("name", HStr "Content-Length");
                               ("value", HStr (str_of_int z))])) = Ok z).
  { intros d z. unfold body_len, Message_contains, Message_getitem, dict_mem.
    change (lower "Content-Length") with "content-length".
    rewrite dict_get_set_same. unfold content_length_value, getattr.
    cbn [dict_get String.eqb Ascii.eqb Bool.eqb]. cbn [bind int_of_hval].
    apply int_str_of_int. }
  split.
  - intros self value. eexists. split; [apply set_body_eq | apply H].
  - intros self m value. unfold Message_parse.
    destruct (split_message value) as [first_headers body_text]. cbn [snd].
    destruct (parse_first_line self first_headers) as [[self' headers]|];
      [|discriminate].
    cbn [bind]. unfold validate.
    destruct (check_content_length _ body_text) as [m'|] eqn:Hcl;
      [|discriminate].
    cbn [bind]. intros Hm Hb.
    apply check_mandatory_ok in Hm. subst m'.
    apply check_content_length_ok in Hcl. rewrite Hb in Hcl. subst m.
    apply H.
Qed.

Lemma content_length_reads_back_witness :
  exists m : Message,
    Message_parse Message_new invite_length_10 = Ok m /\
    truthy (snd (split_message invite_length_10)) = true /\
    body_len m = Ok 10.
Proof.
  match goal with
  | |- exists m, ?i = Ok m /\ _ =>
      let v := eval vm_compute in i in
      match v with
      | Ok ?x => assert (H : i = Ok x) by (vm_compute; reflexivity)
      end
  end.
  assert (Hb : truthy (snd (split_message invite_length_10)) = true)
    by (vm_compute; reflexivity).
  eexists. split; [exact H|]. split; [exact Hb|].
  exact (proj2 content_length_reads_back _ _ _ H Hb).
Defined.

(** ** The split of a message at the blank line *)

Lemma substring_nil (n m : nat) : substring n m "" = "".
Proof. destruct n, m; reflexivity. Qed.

Lemma substring_all (s : string) : substring 0 (String.length s) s = s.
Proof. induction s as [|c r IH]; simpl; [reflexivity | now rewrite IH]. Qed.

Lemma substring_head (s : string) (n : nat) :
  substring 0 n s ++ substring n (String.length s - n) s = s.
Proof.
  revert n. induction s as [|c r IH]; intros n.
  - now rewrite !substring_nil.
  - destruct n as [|n]; simpl.
    + now rewrite substring_all.
    + now rewrite IH.
Qed.

Lemma substring_cut (s : string) (i n : nat) :
  substring 0 i s ++ substring i n s
    ++ substring (i + n) (String.length s - (i + n)) s = s.
Proof.
  revert i. induction s as [|c r IH]; intros i.
  - now rewrite !substring_nil.
  - destruct i as [|i].
    + change (substring 0 0 (String c r)) with "".
      cbn [append Nat.add]. apply substring_head.
    + simpl. now rewrite IH.
Qed.

Lemma find_cut (value sep : string) (i : Z) :
  find value sep 0 = i -> 0 <= i ->
  value = slice_to value i ++ sep ++ slice_from value (i + len sep).
Proof.
  unfold find. destruct (index (Z.to_nat 0) sep value) as [n|] eqn:Hi; [|lia].
  intros <- _. apply index_correct1 in Hi.
  unfold slice_to, slice_from, len.
  rewrite Nat2Z.id.
  replace (Z.to_nat (Z.of_nat n + Z.of_nat (String.length sep)))
    with (n + String.length sep)%nat by lia.
  pose proof (substring_cut value n (String.length sep)) as H.
  rewrite Hi in H. now symmetry.
Qed.

Lemma substring_starts (s : string) (n m : nat) (c : ascii) (r : string) :
  substring n m s = String c r -> (n < String.length s)%nat.
Proof.
  revert n. induction s as [|c' r' IH]; intros n H.
  - rewrite substring_nil in H. discriminate H.
  - destruct n as [|n]; cbn [String.length]; [lia|].
    cbn [substring] in H. specialize (IH n H). lia.
Qed.

Lemma substring_0_length_eq (s : string) (n : nat) :
  (n <= String.length s)%nat -> String.length (substring 0 n s) = n.
Proof.
  revert n. induction s as [|c r IH]; intros n H.
  - cbn [String.length] in H. now replace n with 0%nat by lia.
  - destruct n as [|n]; [reflexivity|].
    cbn [substring String.length] in *. rewrite IH; lia.
Qed.

Lemma find_cut_at (value sep : string) (c : ascii) (r : string) (i : Z) :
  sep = String c r ->
  find value sep 0 = i -> 0 <= i ->
  value = slice_to value i ++ sep ++ slice_from value (i + len sep) /\
  len (slice_to value i) = i.
Proof.
  intros Hsep Hf Hi. split; [now apply find_cut|].
  revert Hf. unfold find.
  destruct (index (Z.to_nat 0) sep value) as [n|] eqn:Hn; [|lia].
  intros <-. apply index_correct1 in Hn. rewrite Hsep in Hn at 2.
  apply substring_starts in Hn.
  unfold slice_to, len. rewrite Nat2Z.id.
  rewrite substring_0_length_eq; [reflexivity | lia].
Qed.

(** X17. The parser splits a message at its first blank line and loses no
    character. With [a] and [b] the places where [find] meets the first
    blank line made of two carriage returns and line feeds and the first
    made of two line feeds ([-1] for none): a text without a blank line is
    all head, with an empty body; otherwise the head is the text before the
    blank line that comes first, the body is the text after it, and the text
    is the head, that blank line and the body. *)
Theorem split_message_at_first_blank_line (value : string) :
  let a := find value (CRLF ++ CRLF) 0 in
  let b := find value (String LF (String LF EmptyString)) 0 in
  let head := fst (split_message value) in
  let body_text := snd (split_message value) in
  (a < 0 -> b < 0 -> head = value /\ body_text = EmptyString) /\
  (0 <= a -> b < 0 \/ a < b ->
   value = head ++ (CRLF ++ CRLF) ++ body_text /\ len head = a) /\
  (0 <= b -> a < 0 \/ b <= a ->
   value = head ++ String LF (String LF EmptyString) ++ body_text /\
   len head = b).
Proof.
  cbv zeta. unfold split_message.
  pose proof (find_cut_at value (CRLF ++ CRLF) _ _ _ eq_refl eq_refl) as Ha.
  change (len (CRLF ++ CRLF)) with 4 in Ha.
  pose proof (find_cut_at value (String LF (String LF EmptyString)) _ _ _
                eq_refl eq_refl) as Hb.
  change (len (String LF (String LF EmptyString))) with 2 in Hb.
  set (a := find value (CRLF ++ CRLF) 0) in *.
  set (b := find value (String LF (String LF EmptyString)) 0) in *.
  destruct (Z.leb_spec 0 a) as [Hpa|Hna], (Z.leb_spec 0 b) as [Hpb|Hnb];
    cbn [andb].
  - destruct (Z.ltb_spec a b) as [Hlt|Hge].
    + destruct (Z.leb_spec 0 a); [|lia]. cbn [fst snd].
      split; [lia|]. split; [intros _ _; now apply Ha | lia].
    + change (0 <=? -1) with false. cbv iota.
      destruct (Z.leb_spec 0 b); [|lia]. cbn [fst snd].
      split; [lia|]. split; [lia | intros _ _; now apply Hb].
  - destruct (Z.leb_spec 0 a); [|lia]. cbn [fst snd].
    split; [lia|]. split; [intros _ _; now apply Ha | lia].
  - destruct (Z.leb_spec 0 a); [lia|].
    destruct (Z.leb_spec 0 b); [|lia]. cbn [fst snd].
    split; [lia|]. split; [lia | intros _ _; now apply Hb].
  - destruct (Z.leb_spec 0 a); [lia|].
    destruct (Z.leb_spec 0 b); [lia|]. cbn [fst snd].
    split; [now intros _ _|]. split; lia.
Qed.

Lemma split_message_at_first_blank_line_witness :
  find invite_length_10 (CRLF ++ CRLF) 0 = 181 /\
  find invite_length_10 (String LF (String LF EmptyString)) 0 = -1 /\
  snd (split_message invite_length_10) = "0123456789" /\
  invite_length_10
  = fst (split_message invite_length_10) ++ (CRLF ++ CRLF)
      ++ snd (split_message invite_length_10) /\
  len (fst (split_message invite_length_10)) = 181.
Proof.
  assert (Ha : find invite_length_10 (CRLF ++ CRLF) 0 = 181)
    by (vm_compute; reflexivity).
  assert (Hb : find invite_length_10 (String LF (String LF EmptyString)) 0
               = -1) by (vm_compute; reflexivity).
  split; [exact Ha|]. split; [exact Hb|].
  split; [vm_compute; reflexivity|].
  destruct (proj1 (proj2 (split_message_at_first_blank_line invite_length_10)))
    as [H1 H2].
  - rewrite Ha. lia.
  - left. rewrite Hb. lia.
  - split; [exact H1|]. rewrite <- Ha. exact H2.
Defined.

Lemma no_line_feed (s : string) :
  index 0 (String LF EmptyString) s = None ->
  splitn s LF 1 = [s] /\
  index 0 (String LF (String LF EmptyString)) s = None /\
  index 0 (CRLF ++ CRLF) s = None.
Proof.
  induction s as [|c r IH]; [now repeat split|].
  intros H. cbn [index prefix] in H.
  destruct (ascii_dec LF c) as [e|ne]; [destruct r; discriminate H|].
  destruct (index 0 (String LF EmptyString) r) eqn:Hr; [discriminate|].
  destruct (IH eq_refl) as (H1 & H2 & H3). clear IH H.
  split; [|split].
  - cbn [splitn]. destruct (Ascii.eqb_spec c LF); [congruence|].
    now rewrite H1.
  - cbn [index prefix]. destruct (ascii_dec LF c); [contradiction|].
    now rewrite H2.
  - change (CRLF ++ CRLF)
      with (String CR (String LF (String CR (String LF EmptyString)))) in *.
    cbn [index]. rewrite H3.
    cbn [prefix]. destruct (ascii_dec CR c); [|reflexivity].
    destruct r as [|d r']; [reflexivity|]. cbn [prefix].
    destruct (ascii_dec LF d) as [e'|]; [|reflexivity].
    exfalso. cbn [index prefix] in Hr.
    destruct (ascii_dec LF d); [|contradiction].
    destruct r'; discriminate Hr.
Qed.

(** X18. A text without a line feed is no message: the constructor raises
    the error of the missing first line, whatever the text holds; the empty
    text alone is not parsed and gives the empty message. *)
Theorem message_without_line_feed (value : string) :
  find value (String LF EmptyString) 0 = -1 ->
  Message_init (Some value)
  = if truthy value then Raise (ValueError "No first line found")
    else Ok Message_new.
Proof.
  unfold find. change (Z.to_nat 0) with 0%nat.
  destruct (index 0 (String LF EmptyString) value) eqn:H; [lia|]. intros _.
  apply no_line_feed in H as (H1 & H2 & H3).
  unfold Message_init. destruct (truthy value); [|reflexivity].
  assert (Hs : split_message value = (value, EmptyString)).
  { unfold split_message, find. change (Z.to_nat 0) with 0%nat.
    now rewrite H2, H3. }
  unfold Message_parse. rewrite Hs. unfold parse_first_line.
  now rewrite H1.
Qed.

Lemma message_without_line_feed_witness :
  find "INVITE sip:bob@biloxi.com SIP/2.0" (String LF EmptyString) 0 = -1 /\
  Message_init (Some "INVITE sip:bob@biloxi.com SIP/2.0")
  = Raise (ValueError "No first line found").
Proof.
  assert (H : find "INVITE sip:bob@biloxi.com SIP/2.0" (String LF EmptyString) 0
              = -1) by (vm_compute; reflexivity).
  split; [exact H|].
  exact (message_without_line_feed "INVITE sip:bob@biloxi.com SIP/2.0" H).
Defined.

(** ** What [insert] and the parser refuse *)

Lemma Message_insert_raises (self : Message) (h : option Header)
  (append : bool) (e : exn) :
  Message_insert self h append = Raise e -> e = AttributeError.
Proof.
  unfold Message_insert, getattr. destruct h as [h|]; [|discriminate].
  destruct (dict_get h "name") as [n|]; cbn [bind]; [|now intros [= <-]].
  destruct (hval_truthy n); [|discriminate].
  destruct n; cbn [as_str bind]; try now intros [= <-].
  destruct (negb (Message_contains self s)); [discriminate|].
  destruct (Message_getitem self s); try discriminate; now intros [= <-].
Qed.

Lemma Message_insert_over_field (self : Message) (h : Header) (n : string)
  (v : mval) (append : bool) :
  dict_get h "name" = Some (HStr n) -> truthy n = true ->
  dict_get self (lower n) = Some v -> is_field v = true ->
  Message_insert self (Some h) append = Raise AttributeError.
Proof.
  intros Hname Hn Hk Hf. unfold Message_insert, getattr. rewrite Hname.
  cbn [bind hval_truthy as_str]. rewrite Hn.
  unfold Message_contains, dict_mem, Message_getitem. rewrite Hk.
  cbn [negb]. destruct v; try reflexivity; discriminate Hf.
Qed.

Lemma insert_all_over_field (headers : list Header) (self : Message)
  (h : Header) (n : string) (v : mval) :
  In h headers ->
  dict_get h "name" = Some (HStr n) -> truthy n = true ->
  dict_get self (lower n) = Some v -> is_field v = true ->
  insert_all self headers = Raise AttributeError.
Proof.
  intros Hin Hname Hn. revert self Hin.
  induction headers as [|a r IH]; intros self Hin Hk Hf; [destruct Hin|].
  cbn [insert_all]. destruct Hin as [->|Hin].
  - now rewrite (Message_insert_over_field self h n v true).
  - destruct (Message_insert self (Some a) true) as [m1|e] eqn:Hi;
      cbn [bind].
    + apply IH; [exact Hin | | exact Hf].
      exact (Message_insert_keeps_field _ _ _ _ _ _ Hi Hk Hf).
    + now rewrite (Message_insert_raises _ _ _ _ Hi).
Qed.

(** X19. A response takes the headers [To], [From], [CSeq], [Call-ID] and
    [Via] of the request it answers, and takes [None] for one the request
    lacks; [insert] then finds the name taken by what is no header. So
    [create_response] raises [AttributeError] whenever the list of headers
    names a header of the five that the request lacks. *)
Theorem response_cannot_add_missing_header (response : Z)
  (responsetext : string) (headers : list Header) (content : option string)
  (r : Message) (h : Header) (name : string) :
  In name ["To"; "From"; "CSeq"; "Call-ID"; "Via"] ->
  Message_getitem r name = MNone ->
  In h headers ->
  dict_get h "name" = Some (HStr name) ->
  create_response response responsetext headers content (Some r)
  = Raise AttributeError.
Proof.
  intros Hn Hr Hin Hname. unfold create_response, _populate_message.
  rewrite (insert_all_over_field headers _ h name MNone Hin Hname);
    [reflexivity | | | reflexivity].
  - cbn [In] in Hn.
    repeat destruct Hn as [<-|Hn]; try reflexivity; contradiction.
  - cbn [In] in Hn.
    repeat destruct Hn as [Hn|Hn]; try contradiction; subst name;
      rewrite Hr; destruct (response =? 100); reflexivity.
Qed.

Lemma response_cannot_add_missing_header_witness :
  exists r : Message,
    Message_init (Some (invite [to_line; from_line; cseq_line; call_id_line] ""))
    = Ok r /\
    Message_getitem r "Via" = MNone /\
    create_response 200 "OK"
      [[("name", HStr "Via"); ("value", HStr "SIP/2.0/UDP a.example.com")]]
      None (Some r)
    = Raise AttributeError.
Proof.
  match goal with
  | |- exists r, ?i = Ok r /\ _ =>
      let v := eval vm_compute in i in
      match v with
      | Ok ?x => assert (H : i = Ok x) by (vm_compute; reflexivity)
      end
  end.
  eexists. split; [exact H|].
  split; [reflexivity|].
  apply (response_cannot_add_missing_header 200 "OK" _ None _
           [("name", HStr "Via"); ("value", HStr "SIP/2.0/UDP a.example.com")]
           "Via");
    [cbn [In]; tauto | reflexivity | now left | reflexivity].
Defined.

Lemma splitn_absent (s : string) (sep : ascii) (n : nat) :
  index 0 (String sep EmptyString) s = None ->
  splitn s sep (S n) = [s].
Proof.
  induction s as [|c r IH]; [reflexivity|].
  intros H. cbn [index prefix] in H.
  destruct (ascii_dec sep c) as [e|ne]; [destruct r; discriminate H|].
  destruct (index 0 (String sep EmptyString) r); [discriminate|].
  cbn [splitn]. destruct (Ascii.eqb_spec c sep); [congruence|].
  now rewrite IH.
Qed.

(** X20. A header line without a colon is skipped: it raises inside
    [create_headers], the parser catches what it raises, and the message is
    left as it was; so is the empty line. *)
Theorem line_without_colon_is_skipped (self : Message) (h : string) :
  find h ":" 0 = -1 ->
  create_headers h = Raise (ValueError "not enough values to unpack") /\
  store_header self h = self.
Proof.
  unfold find. change (Z.to_nat 0) with 0%nat.
  destruct (index 0 ":" h) eqn:H; [lia|]. intros _.
  assert (Hc : create_headers h
               = Raise (ValueError "not enough values to unpack")).
  { unfold create_headers. now rewrite (splitn_absent h ":" 0 H). }
  split; [exact Hc|]. unfold store_header. now rewrite Hc.
Qed.

Lemma line_without_colon_is_skipped_witness :
  find "Max-Forwards 70" ":" 0 = -1 /\
  store_header Message_new "Max-Forwards 70" = Message_new.
Proof.
  assert (H : find "Max-Forwards 70" ":" 0 = -1) by (vm_compute; reflexivity).
  split; [exact H|].
  exact (proj2 (line_without_colon_is_skipped Message_new _ H)).
Defined.

(** * Further properties of [rtp.py] *)

(** X21. A connection line without a time to live reads back as it was
    written: when [Connection.__init__] accepts a text and stores no [ttl],
    [repr] of the object is that text. *)
Theorem Connection_round_trip (value : string) (c : Obj) :
  truthy value = true ->
  Connection_init value = Ok c ->
  dict_mem c "ttl" = false ->
  Connection_repr c = Ok value.
Proof.
  intros Hv. unfold Connection_init. rewrite Hv.
  pose proof (join_split value " ") as Hj.
  destruct (split value " ") as [|n [|a [|r [|]]]]; try discriminate.
  pose proof (join_split r "/") as Hr.
  destruct (split r "/") as [|address [|ttl [|count rest]]].
  - discriminate.
  - intros [= <-] _. unfold join in Hj, Hr. cbn [String.concat] in Hj, Hr.
    subst address. unfold Connection_repr.
    cbn [dict_set dict_get String.eqb Ascii.eqb Bool.eqb leaf_text bind
         leaf_truthy].
    now rewrite !append_empty_r, Hj.
  - destruct (int ttl); [|discriminate]. cbn [bind].
    intros [= <-]. discriminate.
  - destruct (int ttl); [|discriminate]. cbn [bind].
    destruct (int count); [|discriminate]. cbn [bind].
    intros [= <-]. discriminate.
Qed.

Lemma Connection_round_trip_witness :
  exists c : Obj,
    truthy "IN IP4 192.0.2.101" = true /\
    Connection_init "IN IP4 192.0.2.101" = Ok c /\
    dict_mem c "ttl" = false /\
    Connection_repr c = Ok "IN IP4 192.0.2.101".
Proof.
  assert (H : Connection_init "IN IP4 192.0.2.101"
              = Ok [("nettype", LStr "IN"); ("addrtype", LStr "IP4");
                    ("address", LStr "192.0.2.101")])
    by (vm_compute; reflexivity).
  eexists. split; [reflexivity|]. split; [exact H|].
  split; [reflexivity|].
  exact (Connection_round_trip "IN IP4 192.0.2.101" _ eq_refl H eq_refl).
Defined.

Lemma set_last_length {A : Type} (l : list A) (x : A) :
  List.length (set_last l x) = List.length l.
Proof.
  induction l as [|a r IH]; [reflexivity|].
  destruct r as [|b r]; [reflexivity|].
  change (set_last (a :: b :: r) x) with (a :: set_last (b :: r) x).
  cbn [List.length] in *. now rewrite IH.
Qed.

Section MediaSections.

Variable gethostname : string.
Variable gethostbyname : string -> result string.
Variable time_1 time_2 : Z.

Lemma parse_line_media (self s : SDP) (line : string) :
  parse_line gethostname gethostbyname time_1 time_2 self line = Ok s ->
  List.length (media_of s)
  = (List.length (media_of self) + (if is_m_line line then 1 else 0))%nat.
Proof.
  unfold parse_line, is_m_line.
  destruct (partition line "=") as [[k sep] v].
  destruct (String.eqb_spec k "m") as [->|Hk].
  - destruct (match SDP_getitem self "_allowed_attributes" with
              | SField f => Ok f
              | SMedia _ => Raise TypeError
              end) as [f|]; [|discriminate].
    cbn [bind]. destruct (Media_init v f) as [m|]; [|discriminate].
    cbn [bind].
    destruct (negb (sval_truthy (SDP_getitem self "m"))) eqn:Ht.
    + unfold SDP_getitem at 1. rewrite dict_get_set_same.
      intros [= <-]. unfold media_of at 1, SDP_getitem at 1.
      rewrite dict_get_set_same. unfold media_of.
      destruct (SDP_getitem self "m") as [f'|[|x l]];
        [reflexivity | reflexivity | discriminate Ht].
    + unfold media_of.
      destruct (SDP_getitem self "m") as [f'|l]; [discriminate|].
      intros [= <-]. unfold SDP_getitem. rewrite dict_get_set_same.
      rewrite length_app. reflexivity.
  - destruct (line_value gethostname gethostbyname time_1 time_2 k v)
      as [x|]; [|discriminate].
    cbn [bind]. rewrite Nat.add_0_r.
    destruct (sval_truthy (SDP_getitem self "m")) eqn:Ht.
    + unfold media_of.
      destruct (SDP_getitem self "m") as [f'|l]; [discriminate|].
      destruct (list_at l (-1)) as [obj|]; [|discriminate]. cbn [bind].
      destruct (attach obj k x) as [obj'|]; [|discriminate]. cbn [bind].
      intros [= <-]. unfold SDP_getitem. rewrite dict_get_set_same.
      apply set_last_length.
    + unfold attach_top.
      destruct (match dict_get self k with
                | Some (SField f) => Ok (Some f)
                | Some (SMedia _) => Raise TypeError
                | None => Ok None
                end) as [old|]; [|discriminate].
      cbn [bind]. destruct (attached k old x) as [y|]; [|discriminate].
      cbn [bind]. intros [= <-]. unfold media_of, SDP_getitem.
      now rewrite dict_get_set_other.
Qed.

Lemma parse_lines_media (lines : list string) (self s : SDP) :
  parse_lines gethostname gethostbyname time_1 time_2 self lines = Ok s ->
  List.length (media_of s)
  = (List.length (media_of self) + List.length (filter is_m_line lines))%nat.
Proof.
  revert self. induction lines as [|line rest IH]; intros self;
    cbn [parse_lines filter].
  - intros [= <-]. now rewrite Nat.add_0_r.
  - destruct (parse_line gethostname gethostbyname time_1 time_2 self line)
      as [s1|] eqn:H1; [|discriminate].
    cbn [bind]. intros H. rewrite (IH s1 H), (parse_line_media self s1 line H1).
    destruct (is_m_line line); cbn [List.length]; lia.
Qed.

(** X22. A session that [SDP.__init__] accepts holds one media section for
    each of its lines with the key [m], and no other: the lines with another
    key add no section and remove none. *)
Theorem one_media_section_per_m_line (value : string)
  (allowed_attributes : fval) (s : SDP) :
  SDP_init gethostname gethostbyname time_1 time_2 value allowed_attributes
  = Ok s ->
  List.length (media_of s)
  = List.length (filter is_m_line (split (replace_crlf value) LF)).
Proof.
  unfold SDP_init. destruct value as [|c r] eqn:Hv.
  - now intros [= <-].
  - cbn [truthy]. unfold SDP_parse. intros H.
    now rewrite (parse_lines_media _ _ s H).
Qed.

End MediaSections.

Lemma one_media_section_per_m_line_witness :
  exists s : SDP,
    SDP_init "host" (fun _ => Raise OSError) 0 0 session_two_media FNone
    = Ok s /\
    List.length (media_of s) = 2%nat.
Proof.
  match goal with
  | |- exists s, ?i = Ok s /\ _ =>
      let v := eval vm_compute in i in
      match v with
      | Ok ?x => assert (H : i = Ok x) by (vm_compute; reflexivity)
      end
  end.
  eexists. split; [exact H|].
  rewrite (one_media_section_per_m_line _ _ _ _ _ _ _ H).
  vm_compute. reflexivity.
Defined.

(** ** Originators and media sections *)

Lemma split_pieces (s : string) (sep : ascii) (p : string) :
  In p (split s sep) -> split p sep = [p].
Proof.
  revert p. induction s as [|c r IH]; intros p; cbn [split].
  - intros [<-|[]]. reflexivity.
  - destruct (Ascii.eqb c sep) eqn:Hc.
    + intros [<-|H]; [reflexivity | now apply IH].
    + destruct (split r sep) as [|q qs] eqn:Hs; cbn [cons_head].
      * intros [<-|[]]. cbn [split]. now rewrite Hc.
      * intros [<-|H].
        -- cbn [split]. rewrite Hc, (IH q); [reflexivity | now left].
        -- apply IH. now right.
Qed.

Lemma split_app (p s : string) (sep : ascii) :
  split p sep = [p] ->
  split (p ++ String sep s) sep = p :: split s sep.
Proof.
  induction p as [|c r IH]; cbn [split append].
  - intros _. now rewrite Ascii.eqb_refl.
  - destruct (Ascii.eqb c sep).
    + destruct (split_cons r sep) as (q & qs & Hq). rewrite Hq. discriminate.
    + destruct (split r sep) as [|q qs] eqn:Hs; cbn [cons_head].
      * destruct (split_cons r sep) as (q & qs & Hq). congruence.
      * intros [= -> ->]. now rewrite IH.
Qed.

Lemma split_join (l : list string) (sep : ascii) :
  l <> [] ->
  Forall (fun p => split p sep = [p]) l ->
  split (join (String sep EmptyString) l) sep = l.
Proof.
  intros Hl H. unfold join.
  induction H as [|p l Hp H IH]; [congruence|].
  destruct l as [|q r]; [exact Hp|].
  change (String.concat (String sep EmptyString) (p :: q :: r))
    with (p ++ String sep (String.concat (String sep EmptyString) (q :: r))).
  rewrite (split_app _ _ _ Hp), IH; [reflexivity | discriminate].
Qed.

Lemma split_plain (s : string) : plain s = true -> split s " " = [s].
Proof.
  induction s as [|c r IH]; [reflexivity|].
  cbn [plain split]. intros H.
  apply andb_prop in H as [H Hr]. apply andb_prop in H as [Hs _].
  destruct (Ascii.eqb_spec c " ") as [->|]; [discriminate Hs|].
  now rewrite (IH Hr).
Qed.

Section Originators.

Variable gethostname : string.
Variable gethostbyname : string -> result string.
Variable time_1 time_2 : Z.

(** X23. An originator reads back from its own text: when
    [Originator.__init__] accepts a text, the object it builds is the object
    built from [repr] of that object; the two numbers of the line are
    written in their normal form, and the other fields as they were. *)
Theorem Originator_round_trip (value : string) (o : Obj) :
  truthy value = true ->
  Originator_init gethostname gethostbyname time_1 time_2 value = Ok o ->
  Originator_init gethostname gethostbyname time_1 time_2 (Originator_repr o)
  = Ok o.
Proof.
  intros Hv. unfold Originator_init at 1. rewrite Hv.
  destruct (split value " ") as [|u [|sa [|sb [|nt [|at' [|ad [|]]]]]]] eqn:Hs;
    try discriminate.
  destruct (int sa) as [a|]; [|discriminate]. cbn [bind].
  destruct (int sb) as [b|]; [|discriminate]. cbn [bind].
  intros [= <-].
  assert (Hp : forall p, In p [u; sa; sb; nt; at'; ad] -> split p " " = [p]).
  { intros p Hin. apply (split_pieces value). now rewrite Hs. }
  change (Originator_repr _)
    with (join " " [u; str_of_int a; str_of_int b; nt; at'; ad]).
  unfold Originator_init.
  assert (Ht : truthy (join " " [u; str_of_int a; str_of_int b; nt; at'; ad])
               = true) by now destruct u.
  rewrite Ht, split_join.
  - now rewrite !int_str_of_int.
  - discriminate.
  - repeat constructor;
      try (apply split_plain, plain_int);
      apply Hp; cbn [In]; tauto.
Qed.

End Originators.

Lemma Originator_round_trip_witness :
  exists o : Obj,
    truthy "- 0028 +7 IN IP4 host.atlanta.com" = true /\
    Originator_init "host" (fun _ => Raise OSError) 0 0
      "- 0028 +7 IN IP4 host.atlanta.com" = Ok o /\
    Originator_repr o = "- 28 7 IN IP4 host.atlanta.com" /\
    Originator_init "host" (fun _ => Raise OSError) 0 0 (Originator_repr o)
    = Ok o.
Proof.
  match goal with
  | |- exists o, _ /\ ?i = Ok o /\ _ =>
      let v := eval vm_compute in i in
      match v with
      | Ok ?x => assert (H : i = Ok x) by (vm_compute; reflexivity)
      end
  end.
  eexists. split; [reflexivity|]. split; [exact H|].
  split; [vm_compute; reflexivity|].
  exact (Originator_round_trip _ _ _ _ "- 0028 +7 IN IP4 host.atlanta.com" _
           eq_refl H).
Defined.

Lemma Media_field_absent (self : Media) (k : string) :
  dict_mem self k = false -> Media_field self k = Ok "".
Proof. unfold Media_field. now intros ->. Qed.

(** X24. A media section reads back as its line: for a text that
    [Media.__init__] accepts, [repr] of the new object is the text with the
    port in its normal form: the media, the port, the protocol and the
    formats, separated as they were, and no line after them. *)
Theorem Media_repr_of_init (value : string) (media_attributes : fval)
  (m : Media) :
  truthy value = true ->
  Media_init value media_attributes = Ok m ->
  exists (media port proto rest : string) (p : Z),
    splitn value " " 3 = [media; port; proto; rest] /\
    int port = Ok p /\
    Media_repr m
    = Ok (media ++ " " ++ str_of_int p ++ " " ++ proto ++ " " ++ rest).
Proof.
  intros Hv. unfold Media_init. rewrite Hv.
  destruct (splitn value " " 3) as [|media [|port [|proto [|rest [|]]]]];
    try discriminate.
  destruct (int port) as [p|] eqn:Hp; [|discriminate]. cbn [bind].
  intros [= <-]. exists media, port, proto, rest, p.
  split; [reflexivity|]. split; [exact Hp|].
  unfold Media_repr.
  cbn [Media_getitem dict_set dict_get String.eqb Ascii.eqb Bool.eqb
       fval_text fval_str iter_strings bind].
  rewrite join_split.
  cbn [chars append_each].
  rewrite !Media_field_absent by reflexivity.
  cbn [bind]. now rewrite !append_empty_r.
Qed.

Lemma Media_repr_of_init_witness :
  exists m : Media,
    truthy "audio 049170 RTP/AVP 0 8" = true /\
    Media_init "audio 049170 RTP/AVP 0 8" FNone = Ok m /\
    Media_repr m = Ok "audio 49170 RTP/AVP 0 8".
Proof.
  match goal with
  | |- exists m, _ /\ ?i = Ok m /\ _ =>
      let v := eval vm_compute in i in
      match v with
      | Ok ?x => assert (H : i = Ok x) by (vm_compute; reflexivity)
      end
  end.
  eexists. split; [reflexivity|]. split; [exact H|].
  destruct (Media_repr_of_init "audio 049170 RTP/AVP 0 8" _ _ eq_refl H)
    as (media & port & proto & rest & p & H1 & H2 & H3).
  vm_compute in H1. injection H1 as <- <- <- <-.
  vm_compute in H2. injection H2 as <-.
  exact H3.
Defined.
